(** * Telecom cart API: context recovery of the cart service

    A shallow embedding of [src/clients/salesforce-cart-client.ts] (the
    simulated backend context provider), of
    [src/services/cart-service.ts] (the session recovery coordinator)
    and of [src/routes/cart-routes.ts] (the handlers of the five routes),
    with the types of [src/types] and the error classes of [src/errors].

    Modelling conventions.
    - A JavaScript [number] that the code computes with (price, quantity,
      total) is an IEEE 754 binary64 value, a primitive [float]: [+] and
      [*] round as they do in the code, and a total is the left-to-right
      fold that [reduce] performs.  Instants in milliseconds, which the
      code only compares and shifts by whole milliseconds, are integers
      [Z].
    - [Date.now()] / [new Date()] is an explicit argument [now] of every
      operation: the clock is read once per caller operation.
    - [crypto.randomUUID()] is a supply of fresh names: a counter whose
      decimal rendering is the identifier.
    - A rejected promise is a [Throw]; a fulfilled one an [Ok].  The state
      is threaded explicitly, also through a [Throw].
    - Objects held in a [Map] are values stored under their key; an
      in-place mutation of such an object is an update of the map at that
      key.  The item objects shared between a context, the cart built from
      it and the session are mutated by [updateItem] of the client only,
      and the service copies the returned list into the session right
      after, so values and references agree at the end of every operation.
    - A route handler is a function from the request (its parameters and
      the fields of the parsed body) to the response (status and JSON
      body); [console.log] and [console.error] are left out. *)

From Stdlib Require Import ZArith Lia Floats.
From stdpp Require Import base option list gmap strings pretty.

Set Default Proof Using "Type".
Set Warnings "-clear-no-such-hyp".

(** ** Types ([src/types/index.ts]) *)

Module CartContext.
Record t : Type := mk { id : string; expiresAt : Z }.
End CartContext.

Module CartItemInput.
Record t : Type := mk
  { productId : string; name : string; price : float; quantity : float }.
End CartItemInput.

Module CartItem.
Record t : Type := mk
  { id : string; productId : string; name : string; price : float;
    quantity : float }.

Definition with_quantity (q : float) (item : t) : t :=
  {| id := id item; productId := productId item; name := name item;
     price := price item; quantity := q |}.
End CartItem.

Module Cart.
Record t : Type := mk { id : string; items : list CartItem.t; total : float }.
End Cart.

Module SessionCart.
Record t : Type := mk
  { sessionId : string; sfContextId : string; items : list CartItem.t;
    createdAt : Z; lastAccessed : Z }.

Definition with_lastAccessed (d : Z) (s : t) : t :=
  {| sessionId := sessionId s; sfContextId := sfContextId s; items := items s;
     createdAt := createdAt s; lastAccessed := d |}.

Definition with_items (l : list CartItem.t) (s : t) : t :=
  {| sessionId := sessionId s; sfContextId := sfContextId s; items := l;
     createdAt := createdAt s; lastAccessed := lastAccessed s |}.

Definition with_sfContextId (c : string) (s : t) : t :=
  {| sessionId := sessionId s; sfContextId := c; items := items s;
     createdAt := createdAt s; lastAccessed := lastAccessed s |}.
End SessionCart.

(** ** Errors ([src/errors/index.ts]) and results *)

(** The values a promise can be rejected with: the four error classes of
    the repository, any other [Error] instance, and a value that is not
    an [Error] at all. *)
#[warnings="-register-all"]
Inductive exn : Type :=
  | ContextExpiredError (contextId : string)
  | CartNotFoundError (sessionId : string)
  | ItemNotFoundError (itemId : string)
  | ContextRecoveryFailedError (sessionId : string) (cause : option exn)
  | OtherError (message : string)
  | NonError (value : string).

Definition instanceof_ContextExpiredError (e : exn) : bool :=
  match e with ContextExpiredError _ => true | _ => false end.

Definition instanceof_Error (e : exn) : bool :=
  match e with NonError _ => false | _ => true end.

Inductive result (A : Type) : Type :=
  | Ok (a : A)
  | Throw (e : exn).
Arguments Ok {A} a.
Arguments Throw {A} e.

Definition is_Ok {A} (r : result A) : bool :=
  match r with Ok _ => true | Throw _ => false end.

(** [crypto.randomUUID()] *)
Definition randomUUID (seed : nat) : string := pretty seed.

(** [Array.prototype.find]: the first element satisfying the predicate. *)
Definition find {A} (P : A → Prop) `{!∀ x, Decision (P x)} (l : list A)
  : option A :=
  snd <$> list_find P l.

(** ** The provider interface, [ISalesforceCartClient] *)

Class ISalesforceCartClient (P : Type) : Type := {
  sf_createContext : Z → P → result CartContext.t * P;
  sf_addItem : Z → string → CartItemInput.t → P → result Cart.t * P;
  sf_getCart : Z → string → P → result Cart.t * P;
  sf_removeItem : Z → string → string → P → result Cart.t * P;
  sf_updateItem : Z → string → string → float → P → result Cart.t * P;
}.

(** ** The simulated provider ([src/clients/salesforce-cart-client.ts]) *)

Module SalesforceCartClient.

Record ContextData : Type := mkData
  { context : CartContext.t; items : list CartItem.t }.

Record t : Type := mk
  { contexts : gmap string ContextData; itemCounter : nat; uuids : nat }.

Definition init : t := {| contexts := ∅; itemCounter := 0; uuids := 0 |}.

Definition CONTEXT_EXPIRY_MS : Z := 30 * 60 * 1000.

Definition with_contexts (m : gmap string ContextData) (c : t) : t :=
  {| contexts := m; itemCounter := itemCounter c; uuids := uuids c |}.

Definition createContext (now : Z) (c : t) : result CartContext.t * t :=
  let context :=
    {| CartContext.id := "ctx_" +:+ randomUUID (uuids c);
       CartContext.expiresAt := (now + CONTEXT_EXPIRY_MS)%Z |} in
  (Ok context,
   {| contexts :=
        <[CartContext.id context := {| context := context; items := [] |}]>
          (contexts c);
      itemCounter := itemCounter c;
      uuids := S (uuids c) |}).

(** Helper: gets a context and validates it hasn't expired. *)
Definition getValidContext (now : Z) (contextId : string) (c : t)
  : result ContextData :=
  match contexts c !! contextId with
  | None => Throw (ContextExpiredError contextId)
  | Some contextData =>
      if (now >? CartContext.expiresAt (context contextData))%Z
      then Throw (ContextExpiredError contextId)
      else Ok contextData
  end.

(** Helper: builds a Cart object from context data. *)
Definition buildCart (contextData : ContextData) : Cart.t :=
  let total :=
    fold_left
      (λ sum item,
         (sum + CartItem.price item * CartItem.quantity item)%float)
      (items contextData) 0%float in
  {| Cart.id := "cart_" +:+ CartContext.id (context contextData);
     Cart.items := items contextData;
     Cart.total := total |}.

Definition addItem (now : Z) (contextId : string) (item : CartItemInput.t)
    (c : t) : result Cart.t * t :=
  match getValidContext now contextId c with
  | Throw e => (Throw e, c)
  | Ok contextData =>
      let counter := S (itemCounter c) in
      let cartItem :=
        {| CartItem.id := "item_" +:+ pretty counter;
           CartItem.productId := CartItemInput.productId item;
           CartItem.name := CartItemInput.name item;
           CartItem.price := CartItemInput.price item;
           CartItem.quantity := CartItemInput.quantity item |} in
      let contextData' :=
        {| context := context contextData;
           items := items contextData ++ [cartItem] |} in
      (Ok (buildCart contextData'),
       {| contexts := <[contextId := contextData']> (contexts c);
          itemCounter := counter;
          uuids := uuids c |})
  end.

Definition getCart (now : Z) (contextId : string) (c : t)
  : result Cart.t * t :=
  match getValidContext now contextId c with
  | Throw e => (Throw e, c)
  | Ok contextData => (Ok (buildCart contextData), c)
  end.

(** [items.findIndex(item => item.id === itemId)], [None] for [-1];
    [items.find] is its second component. *)
Definition findById (itemId : string) (l : list CartItem.t)
  : option (nat * CartItem.t) :=
  list_find (λ item, CartItem.id item = itemId) l.

Definition removeItem (now : Z) (contextId itemId : string) (c : t)
  : result Cart.t * t :=
  match getValidContext now contextId c with
  | Throw e => (Throw e, c)
  | Ok contextData =>
      match findById itemId (items contextData) with
      | None => (Throw (ItemNotFoundError itemId), c)
      | Some (itemIndex, _) =>
          let contextData' :=
            {| context := context contextData;
               items := delete itemIndex (items contextData) |} in
          (Ok (buildCart contextData'),
           with_contexts (<[contextId := contextData']> (contexts c)) c)
      end
  end.

Definition updateItem (now : Z) (contextId itemId : string)
    (quantity : float) (c : t) : result Cart.t * t :=
  match getValidContext now contextId c with
  | Throw e => (Throw e, c)
  | Ok contextData =>
      match findById itemId (items contextData) with
      | None => (Throw (ItemNotFoundError itemId), c)
      | Some (itemIndex, item) =>
          let contextData' :=
            {| context := context contextData;
               items := <[itemIndex := CartItem.with_quantity quantity item]>
                          (items contextData) |} in
          (Ok (buildCart contextData'),
           with_contexts (<[contextId := contextData']> (contexts c)) c)
      end
  end.

(** Test helper: manually expire a context. *)
Definition expireContext (now : Z) (contextId : string) (c : t) : t :=
  match contexts c !! contextId with
  | None => c
  | Some contextData =>
      let contextData' :=
        {| context :=
             {| CartContext.id := CartContext.id (context contextData);
                CartContext.expiresAt := (now - 1000)%Z |};
           items := items contextData |} in
      with_contexts (<[contextId := contextData']> (contexts c)) c
  end.

End SalesforceCartClient.

#[export] Instance SalesforceCartClient_client
  : ISalesforceCartClient SalesforceCartClient.t := {|
  sf_createContext := SalesforceCartClient.createContext;
  sf_addItem := SalesforceCartClient.addItem;
  sf_getCart := SalesforceCartClient.getCart;
  sf_removeItem := SalesforceCartClient.removeItem;
  sf_updateItem := SalesforceCartClient.updateItem;
|}.

(** ** The coordinator ([src/services/cart-service.ts]) *)

Module CartService.
Section service.
Context {P : Type} `{!ISalesforceCartClient P}.

(** The fields of the class: the session table and the injected client;
    [uuids] is the supply [randomUUID] draws from. *)
Record t : Type := mk
  { sessions : gmap string SessionCart.t; uuids : nat; sfClient : P }.

(** Computations of the service: the state is threaded, a rejection
    stops the sequence. *)
Definition M (A : Type) : Type := t → result A * t.

Definition ret {A} (a : A) : M A := λ s, (Ok a, s).
Definition throw {A} (e : exn) : M A := λ s, (Throw e, s).
Definition bind {A B} (m : M A) (k : A → M B) : M B :=
  λ s, match m s with
       | (Ok a, s') => k a s'
       | (Throw e, s') => (Throw e, s')
       end.
Definition try_catch {A} (m : M A) (handler : exn → M A) : M A :=
  λ s, match m s with
       | (Ok a, s') => (Ok a, s')
       | (Throw e, s') => handler e s'
       end.

Notation "'let*' x ':=' m 'in' k" := (bind m (λ x, k))
  (at level 10, x name, m at level 100, k at level 200).
Notation "m ';;' k" := (bind m (λ _, k))
  (at level 100, k at level 200, right associativity).

(** [await this.sfClient.f(...)] *)
Definition await {A} (f : P → result A * P) : M A :=
  λ s, let '(r, p) := f (sfClient s) in
       (r, {| sessions := sessions s; uuids := uuids s; sfClient := p |}).

(** A session object lives in the table under its key [ref]; assigning
    to one of its fields rewrites the entry. *)
Definition store (ref : string) (session : SessionCart.t) : M unit :=
  λ s, (Ok tt, {| sessions := <[ref := session]> (sessions s);
                  uuids := uuids s; sfClient := sfClient s |}).

Definition fresh_uuid : M string :=
  λ s, (Ok (randomUUID (uuids s)),
        {| sessions := sessions s; uuids := S (uuids s);
           sfClient := sfClient s |}).

(** Helper: get session or throw CartNotFoundError. *)
Definition getSession (sessionId : string) : M SessionCart.t :=
  λ s, match sessions s !! sessionId with
       | Some session => (Ok session, s)
       | None => (Throw (CartNotFoundError sessionId), s)
       end.

(** Helper: synchronize session items with cart items. *)
Definition syncSessionItems (ref : string) (session : SessionCart.t)
    (items : list CartItem.t) : M SessionCart.t :=
  let session := SessionCart.with_items items session in
  store ref session ;; ret session.

Definition toInput (item : CartItem.t) : CartItemInput.t :=
  {| CartItemInput.productId := CartItem.productId item;
     CartItemInput.name := CartItem.name item;
     CartItemInput.price := CartItem.price item;
     CartItemInput.quantity := CartItem.quantity item |}.

(** Step 2 of recovery: [for (const item of session.items) await addItem]. *)
Fixpoint migrate (now : Z) (contextId : string) (items : list CartItem.t)
  : M unit :=
  match items with
  | [] => ret tt
  | item :: rest =>
      await (sf_addItem now contextId (toInput item)) ;;
      migrate now contextId rest
  end.

Definition recoverContext (now : Z) (ref : string) (session : SessionCart.t)
  : M SessionCart.t :=
  try_catch
    (let* newContext := await (sf_createContext now) in
     migrate now (CartContext.id newContext) (SessionCart.items session) ;;
     let session :=
       SessionCart.with_sfContextId (CartContext.id newContext) session in
     store ref session ;;
     ret session)
    (λ error,
       throw (ContextRecoveryFailedError (SessionCart.sessionId session)
                (if instanceof_Error error then Some error else None))).

Definition createCart (now : Z) : M (string * Cart.t) :=
  let* uuid := fresh_uuid in
  let sessionId := "sess_" +:+ uuid in
  let* sfContext := await (sf_createContext now) in
  let session :=
    {| SessionCart.sessionId := sessionId;
       SessionCart.sfContextId := CartContext.id sfContext;
       SessionCart.items := [];
       SessionCart.createdAt := now;
       SessionCart.lastAccessed := now |} in
  store sessionId session ;;
  let cart :=
    {| Cart.id := "cart_" +:+ sessionId; Cart.items := [];
       Cart.total := 0%float |} in
  ret (sessionId, cart).

(** The common opening of the four operations:
    [const session = this.getSession(id); session.lastAccessed = new Date()]. *)
Definition touch (now : Z) (sessionId : string) : M SessionCart.t :=
  let* session := getSession sessionId in
  let session := SessionCart.with_lastAccessed now session in
  store sessionId session ;; ret session.

Definition getCart (now : Z) (sessionId : string) : M Cart.t :=
  let* session := touch now sessionId in
  try_catch
    (await (sf_getCart now (SessionCart.sfContextId session)))
    (λ error,
       if instanceof_ContextExpiredError error then
         let* session := recoverContext now sessionId session in
         await (sf_getCart now (SessionCart.sfContextId session))
       else throw error).

Definition addItem (now : Z) (sessionId : string) (item : CartItemInput.t)
  : M Cart.t :=
  let* session := touch now sessionId in
  try_catch
    (let* cart :=
       await (sf_addItem now (SessionCart.sfContextId session) item) in
     syncSessionItems sessionId session (Cart.items cart) ;;
     ret cart)
    (λ error,
       if instanceof_ContextExpiredError error then
         let* session := recoverContext now sessionId session in
         let* cart :=
           await (sf_addItem now (SessionCart.sfContextId session) item) in
         syncSessionItems sessionId session (Cart.items cart) ;;
         ret cart
       else throw error).

Definition removeItem (now : Z) (sessionId itemId : string) : M Cart.t :=
  let* session := touch now sessionId in
  try_catch
    (let* cart :=
       await (sf_removeItem now (SessionCart.sfContextId session) itemId) in
     syncSessionItems sessionId session (Cart.items cart) ;;
     ret cart)
    (λ error,
       if instanceof_ContextExpiredError error then
         let* session := recoverContext now sessionId session in
         match find (λ item, CartItem.id item = itemId)
                 (SessionCart.items session) with
         | None => throw error
         | Some itemToRemove =>
             let* recoveredCart :=
               await (sf_getCart now (SessionCart.sfContextId session)) in
             match find (λ item, CartItem.productId item
                                 = CartItem.productId itemToRemove)
                     (Cart.items recoveredCart) with
             | None => throw (ContextRecoveryFailedError sessionId None)
             | Some newItem =>
                 let* cart :=
                   await (sf_removeItem now (SessionCart.sfContextId session)
                            (CartItem.id newItem)) in
                 syncSessionItems sessionId session (Cart.items cart) ;;
                 ret cart
             end
         end
       else throw error).

Definition updateItem (now : Z) (sessionId itemId : string) (quantity : float)
  : M Cart.t :=
  let* session := touch now sessionId in
  try_catch
    (let* cart :=
       await (sf_updateItem now (SessionCart.sfContextId session) itemId
                quantity) in
     syncSessionItems sessionId session (Cart.items cart) ;;
     ret cart)
    (λ error,
       if instanceof_ContextExpiredError error then
         let* session := recoverContext now sessionId session in
         match find (λ item, CartItem.id item = itemId)
                 (SessionCart.items session) with
         | None => throw error
         | Some itemToUpdate =>
             let* recoveredCart :=
               await (sf_getCart now (SessionCart.sfContextId session)) in
             match find (λ item, CartItem.productId item
                                 = CartItem.productId itemToUpdate)
                     (Cart.items recoveredCart) with
             | None => throw (ContextRecoveryFailedError sessionId None)
             | Some newItem =>
                 let* cart :=
                   await (sf_updateItem now (SessionCart.sfContextId session)
                            (CartItem.id newItem) quantity) in
                 syncSessionItems sessionId session (Cart.items cart) ;;
                 ret cart
             end
         end
       else throw error).

(** The four operations that take a session id, as one request type. *)
Inductive call : Type :=
  | GetCart
  | AddItem (item : CartItemInput.t)
  | RemoveItem (itemId : string)
  | UpdateItem (itemId : string) (quantity : float).

Definition perform (now : Z) (sessionId : string) (c : call) : M Cart.t :=
  match c with
  | GetCart => getCart now sessionId
  | AddItem item => addItem now sessionId item
  | RemoveItem itemId => removeItem now sessionId itemId
  | UpdateItem itemId quantity => updateItem now sessionId itemId quantity
  end.

(** The provider calls of the replay alone, on the provider's state. *)
Fixpoint replay (now : Z) (contextId : string) (items : list CartItem.t)
    (p : P) : result unit * P :=
  match items with
  | [] => (Ok tt, p)
  | item :: rest =>
      match sf_addItem now contextId (toInput item) p with
      | (Ok _, p') => replay now contextId rest p'
      | (Throw e, p') => (Throw e, p')
      end
  end.

End service.

Arguments t P : clear implicits.
Arguments M P A : clear implicits.

Definition init {P} (p : P) : t P :=
  {| sessions := ∅; uuids := 0; sfClient := p |}.

End CartService.

(** The service over the simulated provider, as the tests build it. *)
Definition World : Type := CartService.t SalesforceCartClient.t.

Definition world0 : World := CartService.init SalesforceCartClient.init.

(** Scenario A and B of the specification, run on the model. *)
Definition item_p1 : CartItemInput.t :=
  {| CartItemInput.productId := "p1"; CartItemInput.name := "one";
     CartItemInput.price := 100; CartItemInput.quantity := 1 |}.
Definition item_p2 : CartItemInput.t :=
  {| CartItemInput.productId := "p2"; CartItemInput.name := "two";
     CartItemInput.price := 50; CartItemInput.quantity := 2 |}.

(** [sfClient.expireContext(id)] on the provider of a world, and on the
    context a session is bound to: the induced expiry of the tests. *)
Definition expireContext (now : Z) (contextId : string) (w : World) : World :=
  {| CartService.sessions := CartService.sessions w;
     CartService.uuids := CartService.uuids w;
     CartService.sfClient :=
       SalesforceCartClient.expireContext now contextId
         (CartService.sfClient w) |}.

Definition expireSession (now : Z) (sessionId : string) (w : World) : World :=
  match CartService.sessions w !! sessionId with
  | Some session => expireContext now (SessionCart.sfContextId session) w
  | None => w
  end.

(** The items of the session, and of the context it is bound to. *)
Definition sessionItems (sessionId : string) (w : World)
  : option (list CartItem.t) :=
  SessionCart.items <$> CartService.sessions w !! sessionId.

Definition contextItems (sessionId : string) (w : World)
  : option (list CartItem.t) :=
  session ← CartService.sessions w !! sessionId;
  SalesforceCartClient.items <$>
    SalesforceCartClient.contexts (CartService.sfClient w)
      !! SessionCart.sfContextId session.

(** Worlds of the scenarios: a fresh session, the session holding
    [item_p1], and the same after its context was expired. *)
Definition w_created : World := (CartService.createCart 0 world0).2.
Definition w_one : World := (CartService.addItem 0 "sess_0" item_p1 w_created).2.
Definition w_one_expired : World := expireSession 0 "sess_0" w_one.

(** A context at the very instant of its expiry. *)
Definition c_boundary : SalesforceCartClient.t :=
  (SalesforceCartClient.addItem 0 "ctx_0" item_p1
     (SalesforceCartClient.createContext 0 SalesforceCartClient.init).2).2.
Definition t_boundary : Z := SalesforceCartClient.CONTEXT_EXPIRY_MS.

Definition mkItem (id productId name : string) (price quantity : float)
  : CartItem.t :=
  {| CartItem.id := id; CartItem.productId := productId;
     CartItem.name := name; CartItem.price := price;
     CartItem.quantity := quantity |}.

(** An item whose price × quantity is not a binary64 value
    (9007199254740991 × 3 is rounded to 27021597764222972), an item with
    a fractional price (9.99, as the code reads the literal), and the
    session holding both, its context expired. *)
Definition item_big : CartItemInput.t :=
  {| CartItemInput.productId := "p3"; CartItemInput.name := "three";
     CartItemInput.price := 9007199254740991; CartItemInput.quantity := 3 |}.
Definition item_fraction : CartItemInput.t :=
  {| CartItemInput.productId := "p4"; CartItemInput.name := "four";
     CartItemInput.price := 0x1.3fae147ae147bp+3;
     CartItemInput.quantity := 3 |}.
Definition w_rounded : World :=
  expireSession 0 "sess_0"
    (CartService.addItem 0 "sess_0" item_fraction
       (CartService.addItem 0 "sess_0" item_big w_created).2).2.

(** The session of [w_one]. *)
Definition session_one : SessionCart.t :=
  {| SessionCart.sessionId := "sess_0";
     SessionCart.sfContextId := "ctx_0";
     SessionCart.items := [mkItem "item_1" "p1" "one" 100 1];
     SessionCart.createdAt := 0; SessionCart.lastAccessed := 0 |}.


(** ** Specification-side notions *)

(** [Σ price × quantity] over a list of items, in the arithmetic of the
    code: every product and every partial sum is rounded to a binary64
    value, so the sum is taken in the order of the list, from [0]. *)
Fixpoint sumFrom (sum : float) (l : list CartItem.t) : float :=
  match l with
  | [] => sum
  | item :: rest =>
      sumFrom (sum + CartItem.price item * CartItem.quantity item)%float rest
  end.

Definition sumTotal (l : list CartItem.t) : float := sumFrom 0%float l.

(** The item the provider makes of an input when its counter is
    [counter], and the items it makes of a list of inputs added in
    order. *)
Definition mint (counter : nat) (input : CartItemInput.t) : CartItem.t :=
  {| CartItem.id := "item_" +:+ pretty (S counter);
     CartItem.productId := CartItemInput.productId input;
     CartItem.name := CartItemInput.name input;
     CartItem.price := CartItemInput.price input;
     CartItem.quantity := CartItemInput.quantity input |}.

Fixpoint relabel (counter : nat) (inputs : list CartItemInput.t)
  : list CartItem.t :=
  match inputs with
  | [] => []
  | input :: rest => mint counter input :: relabel (S counter) rest
  end.

(** What survives a change of context: the items without their ids. *)
Definition contents (l : list CartItem.t) : list CartItemInput.t :=
  map CartService.toInput l.


(** The provider after a recovery of [session] at [now]: a new context
    holding the relabelled copies of the session's items. *)
Definition recoveredId (c : SalesforceCartClient.t) : string :=
  "ctx_" +:+ randomUUID (SalesforceCartClient.uuids c).

Definition recoveredData (now : Z) (session : SessionCart.t)
    (c : SalesforceCartClient.t) : SalesforceCartClient.ContextData :=
  {| SalesforceCartClient.context :=
       {| CartContext.id := recoveredId c;
          CartContext.expiresAt :=
            (now + SalesforceCartClient.CONTEXT_EXPIRY_MS)%Z |};
     SalesforceCartClient.items :=
       relabel (SalesforceCartClient.itemCounter c)
         (contents (SessionCart.items session)) |}.

Definition recovered (now : Z) (session : SessionCart.t)
    (c : SalesforceCartClient.t) : SalesforceCartClient.t :=
  {| SalesforceCartClient.contexts :=
       <[recoveredId c := recoveredData now session c]>
         (SalesforceCartClient.contexts c);
     SalesforceCartClient.itemCounter :=
       SalesforceCartClient.itemCounter c
       + length (SessionCart.items session);
     SalesforceCartClient.uuids := S (SalesforceCartClient.uuids c) |}.

(** The context of a session is unknown to the provider or past its
    expiry instant. *)
Definition expired (now : Z) (contextId : string)
    (c : SalesforceCartClient.t) : Prop :=
  ∀ cd, SalesforceCartClient.contexts c !! contextId = Some cd →
        (CartContext.expiresAt (SalesforceCartClient.context cd) < now)%Z.

(** The session mirrors its context: same items up to their ids. *)
Definition mirrors (sessionId : string) (w : World) : Prop :=
  ∀ session cd,
    CartService.sessions w !! sessionId = Some session →
    SalesforceCartClient.contexts (CartService.sfClient w)
      !! SessionCart.sfContextId session = Some cd →
    contents (SessionCart.items session)
    = contents (SalesforceCartClient.items cd).


(** The world once the operation has stamped the session, and once a
    mutating operation has written the provider's list back. *)
Definition touchedW (now : Z) (sessionId : string) (session : SessionCart.t)
    (w : World) : World :=
  {| CartService.sessions :=
       <[sessionId := SessionCart.with_lastAccessed now session]>
         (CartService.sessions w);
     CartService.uuids := CartService.uuids w;
     CartService.sfClient := CartService.sfClient w |}.

Definition syncedW (now : Z) (sessionId : string) (session : SessionCart.t)
    (r : Cart.t * SalesforceCartClient.t) (w : World) : World :=
  {| CartService.sessions :=
       <[sessionId := SessionCart.with_items (Cart.items r.1)
                        (SessionCart.with_lastAccessed now session)]>
         (CartService.sessions w);
     CartService.uuids := CartService.uuids w;
     CartService.sfClient := r.2 |}.

(** The world once the session has been stamped and recovered. *)
Definition recoveredW (now : Z) (sessionId : string)
    (session : SessionCart.t) (w : World) : World :=
  {| CartService.sessions :=
       <[sessionId :=
           SessionCart.with_sfContextId (recoveredId (CartService.sfClient w))
             (SessionCart.with_lastAccessed now session)]>
         (CartService.sessions w);
     CartService.uuids := CartService.uuids w;
     CartService.sfClient := recovered now session (CartService.sfClient w) |}.


(** What a call does to the item list of a live context whose provider
    counter is [counter]; [None] when the item is not found. *)
Definition effect (c : CartService.call) (counter : nat)
    (l : list CartItem.t) : option (list CartItem.t) :=
  match c with
  | CartService.GetCart => Some l
  | CartService.AddItem input => Some (l ++ [mint counter input])
  | CartService.RemoveItem itemId =>
      match SalesforceCartClient.findById itemId l with
      | Some (itemIndex, _) => Some (delete itemIndex l)
      | None => None
      end
  | CartService.UpdateItem itemId quantity =>
      match SalesforceCartClient.findById itemId l with
      | Some (itemIndex, item) =>
          Some (<[itemIndex := CartItem.with_quantity quantity item]> l)
      | None => None
      end
  end.

(** The item id a call names, if any. *)
Definition target (c : CartService.call) : string :=
  match c with
  | CartService.RemoveItem itemId | CartService.UpdateItem itemId _ => itemId
  | _ => ""
  end.

(** The world after a call was served from the live context [cd] of
    [session], leaving the list [l'] in it. *)
Definition servedW (now : Z) (sessionId : string) (session : SessionCart.t)
    (cd : SalesforceCartClient.ContextData) (c : CartService.call)
    (l' : list CartItem.t) (w : World) : World :=
  match c with
  | CartService.GetCart => touchedW now sessionId session w
  | _ =>
      {| CartService.sessions :=
           <[sessionId := SessionCart.with_items l'
                            (SessionCart.with_lastAccessed now session)]>
             (CartService.sessions w);
         CartService.uuids := CartService.uuids w;
         CartService.sfClient :=
           {| SalesforceCartClient.contexts :=
                <[SessionCart.sfContextId session :=
                    {| SalesforceCartClient.context :=
                         SalesforceCartClient.context cd;
                       SalesforceCartClient.items := l' |}]>
                  (SalesforceCartClient.contexts (CartService.sfClient w));
              SalesforceCartClient.itemCounter :=
                match c with
                | CartService.AddItem _ =>
                    S (SalesforceCartClient.itemCounter
                         (CartService.sfClient w))
                | _ => SalesforceCartClient.itemCounter
                         (CartService.sfClient w)
                end;
              SalesforceCartClient.uuids :=
                SalesforceCartClient.uuids (CartService.sfClient w) |} |}
  end.

(** The call issued after a recovery: [removeItem] and [updateItem]
    translate the caller's id through the session's list into the id of
    the first item of the recovered list with the same product. *)
Definition remap (sessionId : string) (session : SessionCart.t)
    (recoveredItems : list CartItem.t) (c : CartService.call)
  : exn + CartService.call :=
  let translate (itemId : string) : exn + string :=
    match find (λ item, CartItem.id item = itemId)
            (SessionCart.items session) with
    | None => inl (ContextExpiredError (SessionCart.sfContextId session))
    | Some old =>
        match find (λ item, CartItem.productId item = CartItem.productId old)
                recoveredItems with
        | None => inl (ContextRecoveryFailedError sessionId None)
        | Some newItem => inr (CartItem.id newItem)
        end
    end in
  match c with
  | CartService.RemoveItem itemId =>
      match translate itemId with
      | inl e => inl e
      | inr newId => inr (CartService.RemoveItem newId)
      end
  | CartService.UpdateItem itemId quantity =>
      match translate itemId with
      | inl e => inl e
      | inr newId => inr (CartService.UpdateItem newId quantity)
      end
  | _ => inr c
  end.


(** Every context of the provider is stored under its own id, and the
    context of a session carries an identifier the provider has already
    drawn: both hold of every world the service builds. *)
Definition keyed (c : SalesforceCartClient.t) : Prop :=
  map_Forall
    (λ key cd, CartContext.id (SalesforceCartClient.context cd) = key)
    (SalesforceCartClient.contexts c).

Definition drawn (contextId : string) (bound : nat) : Prop :=
  ∃ k, contextId = "ctx_" +:+ randomUUID k ∧ k < bound.


(** The cart read from the session of [w_rounded]. *)
Definition cart_rounded : Cart.t :=
  {| Cart.id := "cart_ctx_1";
     Cart.items :=
       [mkItem "item_3" "p3" "three" 9007199254740991 3;
        mkItem "item_4" "p4" "four" 0x1.3fae147ae147bp+3 3];
     Cart.total := 27021597764223000 |}.

(** Scenario B: the cart answered when [item_p2] is added to the session
    of [w_one] after its context expired. *)
Definition cart_recovered : Cart.t :=
  {| Cart.id := "cart_ctx_1";
     Cart.items := [mkItem "item_2" "p1" "one" 100 1;
                    mkItem "item_3" "p2" "two" 50 2];
     Cart.total := 200 |}.


(** ** Runs of callers *)

(** Item ids are minted by the provider and differ from one run to
    another, so a caller's request names an item by its position in the
    cart the caller was last handed. *)
Inductive request : Type :=
  | Get
  | Add (input : CartItemInput.t)
  | RemoveAt (position : nat)
  | UpdateAt (position : nat) (quantity : float).

Definition idAt (position : nat) (seen : list CartItem.t) : string :=
  default "" (CartItem.id <$> seen !! position).

Definition toCall (seen : list CartItem.t) (r : request) : CartService.call :=
  match r with
  | Get => CartService.GetCart
  | Add input => CartService.AddItem input
  | RemoveAt position => CartService.RemoveItem (idAt position seen)
  | UpdateAt position quantity =>
      CartService.UpdateItem (idAt position seen) quantity
  end.

(** One request on a session, made at the instant [now] by a caller who
    holds the items [st.2] of the cart it was last handed. *)
Definition step (now : Z) (sessionId : string) (r : request)
    (st : World * list CartItem.t) : result Cart.t * (World * list CartItem.t) :=
  let out := CartService.perform now sessionId (toCall st.2 r) st.1 in
  (out.1,
   (out.2, match out.1 with Ok cart => Cart.items cart | Throw _ => st.2 end)).

(** The events of a run over any number of sessions, each with the
    instant the clock shows when it happens: a [createCart], the induced
    expiry of the context a session is bound to, or a request on a
    session.  The state of a run is the world and, per session, the items
    of the cart last handed to the caller. *)
Inductive event : Type :=
  | Create (now : Z)
  | Expire (now : Z) (sessionId : string)
  | Request (now : Z) (sessionId : string) (r : request).

Definition seenBy (sessionId : string) (seen : gmap string (list CartItem.t))
  : list CartItem.t :=
  default [] (seen !! sessionId).

(** An induced expiry answers nothing to the callers. *)
Definition stepEvent (e : event)
    (st : World * gmap string (list CartItem.t))
  : option (result Cart.t) * (World * gmap string (list CartItem.t)) :=
  match e with
  | Create now =>
      let out := CartService.createCart now st.1 in
      match out.1 with
      | Ok (sessionId, cart) =>
          (Some (Ok cart), (out.2, <[sessionId := Cart.items cart]> st.2))
      | Throw e => (Some (Throw e), (out.2, st.2))
      end
  | Expire now sessionId => (None, (expireSession now sessionId st.1, st.2))
  | Request now sessionId r =>
      let out := step now sessionId r (st.1, seenBy sessionId st.2) in
      (Some out.1, (out.2.1, <[sessionId := out.2.2]> st.2))
  end.

Fixpoint run (events : list event)
    (st : World * gmap string (list CartItem.t)) : list (result Cart.t) :=
  match events with
  | [] => []
  | e :: rest =>
      let out := stepEvent e st in
      match out.1 with
      | Some r => r :: run rest out.2
      | None => run rest out.2
      end
  end.

(** What the callers ask for, whenever they ask for it: the events of a
    run without their instants and without the induced expiries. *)
Inductive operation : Type :=
  | CreateCart
  | On (sessionId : string) (r : request).

Definition operationOf (e : event) : option operation :=
  match e with
  | Create _ => Some CreateCart
  | Expire _ _ => None
  | Request _ sessionId r => Some (On sessionId r)
  end.

Definition operationsOf (events : list event) : list operation :=
  omap operationOf events.

(** The caller-visible state of a cart: products with their quantities,
    and the total. *)
Definition view (r : result Cart.t)
  : option (list (string * float) * float) :=
  match r with
  | Ok cart =>
      Some (map (λ item, (CartItem.productId item, CartItem.quantity item))
              (Cart.items cart),
            Cart.total cart)
  | Throw _ => None
  end.

(** The request finds the context of its session expired: by an induced
    expiry, or because the clock has passed the expiry instant. *)
Definition meetsExpiry (now : Z) (sessionId : string) (w : World) : bool :=
  match CartService.sessions w !! sessionId with
  | Some session =>
      negb (is_Ok (SalesforceCartClient.getValidContext now
                     (SessionCart.sfContextId session) (CartService.sfClient w)))
  | None => false
  end.

(** The id is one of the session's own list. *)
Definition knownTo (sessionId itemId : string) (w : World) : bool :=
  bool_decide
    (itemId ∈ CartItem.id <$> default [] (sessionItems sessionId w)).

(** The item at [position] is the first of its product in the cart. *)
Definition firstOfProduct (position : nat) (seen : list CartItem.t) : bool :=
  match seen !! position with
  | Some item =>
      bool_decide
        (fst <$> list_find
                   (λ other, CartItem.productId other = CartItem.productId item)
                   seen
         = Some position)
  | None => false
  end.

(** A [RemoveAt] or [UpdateAt] that meets an expired context names an id
    of the session's own list, and the first item of its product. *)
Definition faithfulAt (e : event)
    (st : World * gmap string (list CartItem.t)) : bool :=
  match e with
  | Request now sessionId (RemoveAt position | UpdateAt position _) =>
      negb (meetsExpiry now sessionId st.1)
      || (knownTo sessionId (idAt position (seenBy sessionId st.2)) st.1
          && firstOfProduct position (seenBy sessionId st.2))
  | _ => true
  end.

Fixpoint faithful (events : list event)
    (st : World * gmap string (list CartItem.t)) : bool :=
  match events with
  | [] => true
  | e :: rest => faithfulAt e st && faithful rest (stepEvent e st).2
  end.

(** No request of the run meets an expired context. *)
Definition unexpiredAt (e : event)
    (st : World * gmap string (list CartItem.t)) : bool :=
  match e with
  | Request now sessionId _ => negb (meetsExpiry now sessionId st.1)
  | _ => true
  end.

Fixpoint unexpired (events : list event)
    (st : World * gmap string (list CartItem.t)) : bool :=
  match events with
  | [] => true
  | e :: rest => unexpiredAt e st && unexpired rest (stepEvent e st).2
  end.

(** The same operations with no induced expiry, all at the instant
    [now]. *)
Definition withoutExpiries (now : Z) (events : list event) : list event :=
  omap (λ e, match e with
             | Create _ => Some (Create now)
             | Expire _ _ => None
             | Request _ sessionId r => Some (Request now sessionId r)
             end) events.

(** The cart as a list of inputs, and what each request does to it. *)
Definition specStep (r : request) (l : list CartItemInput.t)
  : option (list CartItemInput.t) :=
  match r with
  | Get => Some l
  | Add input => Some (l ++ [input])
  | RemoveAt position =>
      match l !! position with
      | Some _ => Some (delete position l)
      | None => None
      end
  | UpdateAt position quantity =>
      match l !! position with
      | Some input =>
          Some (<[position :=
                    {| CartItemInput.productId := CartItemInput.productId input;
                       CartItemInput.name := CartItemInput.name input;
                       CartItemInput.price := CartItemInput.price input;
                       CartItemInput.quantity := quantity |}]> l)
      | None => None
      end
  end.

(** The carts of the sessions as lists of inputs, and what a sequence of
    operations shows of them: the [k]-th [createCart] opens the empty
    cart of session [sess_k]. *)
Definition inputsView (l : list CartItemInput.t)
  : list (string * float) * float :=
  (map (λ input, (CartItemInput.productId input, CartItemInput.quantity input))
     l,
   fold_left
     (λ sum input,
        (sum + CartItemInput.price input * CartItemInput.quantity input)%float)
     l 0%float).

Definition specOperation (o : operation)
    (st : gmap string (list CartItemInput.t) * nat)
  : option (list (string * float) * float)
    * (gmap string (list CartItemInput.t) * nat) :=
  match o with
  | CreateCart =>
      (Some (inputsView []),
       (<["sess_" +:+ randomUUID st.2 := []]> st.1, S st.2))
  | On sessionId r =>
      match st.1 !! sessionId with
      | None => (None, st)
      | Some l =>
          match specStep r l with
          | Some l' => (Some (inputsView l'), (<[sessionId := l']> st.1, st.2))
          | None => (None, st)
          end
      end
  end.

Fixpoint specRun (operations : list operation)
    (st : gmap string (list CartItemInput.t) * nat)
  : list (option (list (string * float) * float)) :=
  match operations with
  | [] => []
  | o :: rest =>
      let out := specOperation o st in
      out.1 :: specRun rest out.2
  end.

(** Ids the provider has minted so far. *)
Definition mintedBy (counter : nat) (item : CartItem.t) : Prop :=
  ∃ k, CartItem.id item = "item_" +:+ pretty k ∧ 0 < k ≤ counter.

(** The state of a run between two events: the session is bound to a
    context holding exactly the items the caller has seen, under distinct
    minted ids; the session's own list has the same contents, under the
    same ids or, after a [Get] that recovered, under older ids none of
    which the caller holds. *)
Definition tracked (sessionId : string) (w : World)
    (seen : list CartItem.t) : Prop :=
  ∃ session cd,
    CartService.sessions w !! sessionId = Some session ∧
    SalesforceCartClient.contexts (CartService.sfClient w)
      !! SessionCart.sfContextId session = Some cd ∧
    SalesforceCartClient.items cd = seen ∧
    contents (SessionCart.items session) = contents seen ∧
    (SessionCart.items session = seen ∨
     Forall (λ item, CartItem.id item
                     ∉ CartItem.id <$> SessionCart.items session) seen) ∧
    NoDup (CartItem.id <$> seen) ∧
    Forall (mintedBy (SalesforceCartClient.itemCounter (CartService.sfClient w)))
      seen ∧
    Forall (mintedBy (SalesforceCartClient.itemCounter (CartService.sfClient w)))
      (SessionCart.items session).

(** The run of the duplicate-product counterexample: two items of
    product ["p1"] with quantities 1 and 2, then the second is removed,
    after an induced expiry or not. *)
Definition item_p1_twice : CartItemInput.t :=
  {| CartItemInput.productId := "p1"; CartItemInput.name := "one";
     CartItemInput.price := 100; CartItemInput.quantity := 2 |}.

Definition duplicate_events (expire : bool) : list event :=
  [Create 0; Request 1 "sess_0" (Add item_p1);
   Request 2 "sess_0" (Add item_p1_twice)]
  ++ (if expire then [Expire 3 "sess_0"] else [])
  ++ [Request 4 "sess_0" (RemoveAt 1)].

(** A run over two sessions and two hours: scenario C followed by an
    update and a read on the first session, each hit by an induced
    expiry, then a removal at a position the cart does not have and a
    read on an unknown session, while a second session is created and
    filled, holds the same product twice, and outlives its context. *)
Definition scenario_events : list event :=
  [Create 0; Request 1000 "sess_0" (Add item_p1);
   Expire 2000 "sess_0"; Request 2000 "sess_0" (Add item_p2);
   Create 3000;
   Expire 4000 "sess_0"; Request 4500 "sess_0" (RemoveAt 0);
   Request 5000 "sess_1" (Add item_p1);
   Request 6000 "sess_1" (Add item_p1_twice);
   Expire 7000 "sess_0"; Request 7000 "sess_0" (UpdateAt 0 5);
   Expire 8000 "sess_0"; Request 8000 "sess_0" Get;
   Request 9000 "sess_0" (Add item_p1);
   Request 9500 "sess_0" (RemoveAt 7); Request 9600 "sess_9" Get;
   Request 3600000 "sess_1" (RemoveAt 0);
   Request 7200000 "sess_1" Get;
   Request 7200001 "sess_1" (UpdateAt 0 3);
   Request 7200002 "sess_0" (RemoveAt 1)]%Z.

(** The world of the duplicate-product counterexample before the
    removal. *)
Definition w_duplicates : World :=
  (CartService.addItem 0 "sess_0" item_p1_twice w_one).2.


(** ** Reachable worlds *)

(** The worlds the service and the test helper can build from the empty
    one: a step is [createCart], one of the four operations on any
    session id, or [expireContext] on any context id, at any instant. *)
Inductive reachable : World → Prop :=
  | reachable_init : reachable world0
  | reachable_createCart now w :
      reachable w → reachable (CartService.createCart now w).2
  | reachable_perform now sessionId c w :
      reachable w → reachable (CartService.perform now sessionId c w).2
  | reachable_expireContext now contextId w :
      reachable w → reachable (expireContext now contextId w).

(** What holds of every reachable world: contexts are stored under their
    id, every session is bound to a context id already drawn, no two
    sessions share a context, and every session mirrors its context. *)
Definition consistent (w : World) : Prop :=
  keyed (CartService.sfClient w) ∧
  (∀ sessionId session,
     CartService.sessions w !! sessionId = Some session →
     drawn (SessionCart.sfContextId session)
       (SalesforceCartClient.uuids (CartService.sfClient w))) ∧
  (∀ sessionId1 sessionId2 session1 session2,
     CartService.sessions w !! sessionId1 = Some session1 →
     CartService.sessions w !! sessionId2 = Some session2 →
     SessionCart.sfContextId session1 = SessionCart.sfContextId session2 →
     sessionId1 = sessionId2) ∧
  (∀ sessionId, mirrors sessionId w).

(** Session ids are drawn from the service's supply. *)
Definition issued (w : World) : Prop :=
  ∀ sessionId session,
    CartService.sessions w !! sessionId = Some session →
    ∃ k, sessionId = "sess_" +:+ randomUUID k ∧ k < CartService.uuids w.

(** The id of the session the next [createCart] makes. *)
Definition createdId (w : World) : string :=
  "sess_" +:+ randomUUID (CartService.uuids w).

(** What a step on session [sessionId] may change between [w] and [w']:
    the entry of that session, the contexts stored under [keys], and the
    item counter, which only grows. *)
Definition footprint (sessionId : string) (keys : list string)
    (w w' : World) : Prop :=
  (∀ other, other ≠ sessionId →
     CartService.sessions w' !! other = CartService.sessions w !! other) ∧
  (∀ key, key ∉ keys →
     SalesforceCartClient.contexts (CartService.sfClient w') !! key
     = SalesforceCartClient.contexts (CartService.sfClient w) !! key) ∧
  SalesforceCartClient.itemCounter (CartService.sfClient w)
  ≤ SalesforceCartClient.itemCounter (CartService.sfClient w').

(** The state of a run between two events, against the carts of inputs
    its operations describe. *)
Definition coherent (w : World) (seen : gmap string (list CartItem.t))
    (carts : gmap string (list CartItemInput.t)) : Prop :=
  consistent w ∧ issued w ∧
  ∀ sessionId,
    match CartService.sessions w !! sessionId with
    | Some _ =>
        tracked sessionId w (seenBy sessionId seen) ∧
        carts !! sessionId = Some (contents (seenBy sessionId seen))
    | None => carts !! sessionId = None
    end.


(** ** Calls on the provider *)

(** The four cart methods of the provider take a context id where those
    of the service take a session id; [serve] dispatches a [call] on the
    provider as [perform] does on the service. *)
Definition serve (now : Z) (contextId : string) (c : CartService.call)
    (p : SalesforceCartClient.t) : result Cart.t * SalesforceCartClient.t :=
  match c with
  | CartService.GetCart => SalesforceCartClient.getCart now contextId p
  | CartService.AddItem item =>
      SalesforceCartClient.addItem now contextId item p
  | CartService.RemoveItem itemId =>
      SalesforceCartClient.removeItem now contextId itemId p
  | CartService.UpdateItem itemId quantity =>
      SalesforceCartClient.updateItem now contextId itemId quantity p
  end.

(** Every public method of [SalesforceCartClient], the test helper
    [expireContext] included, and the provider it leaves behind. *)
Inductive clientCall : Type :=
  | CreateContext
  | Serve (contextId : string) (c : CartService.call)
  | ExpireContext (contextId : string).

Definition clientAfter (now : Z) (call : clientCall)
    (p : SalesforceCartClient.t) : SalesforceCartClient.t :=
  match call with
  | CreateContext => (SalesforceCartClient.createContext now p).2
  | Serve contextId c => (serve now contextId c p).2
  | ExpireContext contextId =>
      SalesforceCartClient.expireContext now contextId p
  end.

(** The context a call works on: the one it names, or the one it makes. *)
Definition subject (call : clientCall) (p : SalesforceCartClient.t) : string :=
  match call with
  | CreateContext => recoveredId p
  | Serve contextId _ | ExpireContext contextId => contextId
  end.

(** A history of the provider: calls with the instant each is made at,
    applied from left to right. *)
Definition clientRun (calls : list (Z * clientCall))
    (p : SalesforceCartClient.t) : SalesforceCartClient.t :=
  fold_left (λ p timed, clientAfter timed.1 timed.2 p) calls p.

(** The item ids of a context, and whether an id is among them. *)
Definition itemIds (cd : SalesforceCartClient.ContextData) : list string :=
  CartItem.id <$> SalesforceCartClient.items cd.

(** Two contexts of the scenarios: [ctx_0] holds [item_1] and [item_2],
    [ctx_1] holds [item_3]. *)
Definition client_calls : list (Z * clientCall) :=
  [(0, CreateContext); (5, Serve "ctx_0" (CartService.AddItem item_p1));
   (7, CreateContext); (9, Serve "ctx_0" (CartService.AddItem item_p2));
   (9, Serve "ctx_1" (CartService.AddItem item_p1))]%Z.

Definition c_two : SalesforceCartClient.t :=
  clientRun client_calls SalesforceCartClient.init.


(** Item ids the provider has minted so far, and the invariant of its
    histories: the ids of every context are minted and pairwise distinct,
    and no id occurs in two contexts. *)
Definition mintedId (counter : nat) (itemId : string) : Prop :=
  ∃ k, itemId = "item_" +:+ pretty k ∧ 0 < k ≤ counter.

Definition mintedOnce (p : SalesforceCartClient.t) : Prop :=
  (∀ key cd,
     SalesforceCartClient.contexts p !! key = Some cd →
     Forall (mintedId (SalesforceCartClient.itemCounter p)) (itemIds cd) ∧
     NoDup (itemIds cd)) ∧
  (∀ key1 key2 cd1 cd2 itemId,
     SalesforceCartClient.contexts p !! key1 = Some cd1 →
     SalesforceCartClient.contexts p !! key2 = Some cd2 →
     itemId ∈ itemIds cd1 → itemId ∈ itemIds cd2 → key1 = key2).

(** Every context is stored under an identifier already drawn. *)
Definition contextsDrawn (p : SalesforceCartClient.t) : Prop :=
  ∀ key cd,
    SalesforceCartClient.contexts p !! key = Some cd →
    drawn key (SalesforceCartClient.uuids p).


(** The provider call an operation of the service starts with, for any
    provider: [perform] on the context instead of the session. *)
Definition sf_serve {P : Type} `{!ISalesforceCartClient P} (now : Z)
    (contextId : string) (c : CartService.call) : P → result Cart.t * P :=
  match c with
  | CartService.GetCart => sf_getCart now contextId
  | CartService.AddItem item => sf_addItem now contextId item
  | CartService.RemoveItem itemId => sf_removeItem now contextId itemId
  | CartService.UpdateItem itemId quantity =>
      sf_updateItem now contextId itemId quantity
  end.

(** The list a call leaves in the session: the items of the cart it
    returns when it is a successful [addItem], [removeItem] or
    [updateItem], the list the session had otherwise. *)
Definition writtenBack (c : CartService.call) (r : result Cart.t)
    (held : list CartItem.t) : list CartItem.t :=
  match c, r with
  | CartService.GetCart, _ | _, Throw _ => held
  | _, Ok cart => Cart.items cart
  end.


(** A backend that is out of service, as a client of the interface: it
    holds no context, creates none and rejects every call. *)
Inductive Unavailable : Type := unavailable.

#[export] Instance Unavailable_client : ISalesforceCartClient Unavailable := {|
  sf_createContext _ p := (Throw (OtherError "Salesforce unavailable"), p);
  sf_addItem _ contextId _ p := (Throw (ContextExpiredError contextId), p);
  sf_getCart _ contextId p := (Throw (ContextExpiredError contextId), p);
  sf_removeItem _ contextId _ p := (Throw (ContextExpiredError contextId), p);
  sf_updateItem _ contextId _ _ p :=
    (Throw (ContextExpiredError contextId), p);
|}.

(** The session of [w_one] in a service whose backend is out of service. *)
Definition s_outage : CartService.t Unavailable :=
  {| CartService.sessions := {[ "sess_0" := session_one ]};
     CartService.uuids := 1; CartService.sfClient := unavailable |}.

(** [w_one] with a second, empty session: [sess_1], bound to [ctx_1]. *)
Definition w_two : World := (CartService.createCart 0 w_one).2.


(** ** The messages of the error classes ([src/errors/index.ts]) *)

(** What the constructors hand to [super], the [message] of the error,
    for the three classes whose message the routes send. *)
Definition CartNotFoundError_message (sessionId : string) : string :=
  "Cart session " +:+ sessionId +:+ " not found".

Definition ItemNotFoundError_message (itemId : string) : string :=
  "Item " +:+ itemId +:+ " not found in cart".

Definition ContextRecoveryFailedError_message (sessionId : string) : string :=
  "Failed to recover from context expiry for session " +:+ sessionId.

(** ** The service interface, [ICartService] *)

Class ICartService (S : Type) : Type := {
  cs_createCart : Z → S → result (string * Cart.t) * S;
  cs_getCart : Z → string → S → result Cart.t * S;
  cs_addItem : Z → string → CartItemInput.t → S → result Cart.t * S;
  cs_removeItem : Z → string → string → S → result Cart.t * S;
  cs_updateItem : Z → string → string → float → S → result Cart.t * S;
}.

#[export] Instance CartService_service {P : Type} `{!ISalesforceCartClient P}
  : ICartService (CartService.t P) := {|
  cs_createCart := CartService.createCart;
  cs_getCart := CartService.getCart;
  cs_addItem := CartService.addItem;
  cs_removeItem := CartService.removeItem;
  cs_updateItem := CartService.updateItem;
|}.

(** ** The routes ([src/routes/cart-routes.ts]) *)

Module CartRoutes.

(** The value of a field of [req.body], as [express.json()] parsed it:
    [VUndefined] for an absent field, [VObject] for an object or an
    array. *)
Inductive value : Type :=
  | VUndefined
  | VNull
  | VBoolean (b : bool)
  | VNumber (n : float)
  | VString (s : string)
  | VObject.

(** [!v] is [negb (truthy v)]: a number is falsy when it is a zero or
    NaN. *)
Definition truthy (v : value) : bool :=
  match v with
  | VUndefined | VNull => false
  | VBoolean b => b
  | VNumber n => negb (PrimFloat.eqb n 0 || PrimFloat.is_nan n)
  | VString s => negb (String.eqb s "")
  | VObject => true
  end.

(** [v === undefined] *)
Definition isUndefined (v : value) : bool :=
  match v with VUndefined => true | _ => false end.

(** [typeof v === 'number'] *)
Definition isNumber (v : value) : bool :=
  match v with VNumber _ => true | _ => false end.

(** [Number.isInteger(v)]: a number that is finite and has no fractional
    part; a finite binary64 value is [m × 2^e]. *)
Definition Number_isInteger (n : float) : bool :=
  match Prim2SF n with
  | S754_zero _ => true
  | S754_finite _ m e => (0 <=? e)%Z || (Z.pos m mod 2 ^ (- e) =? 0)%Z
  | _ => false
  end.

Definition isInteger (v : value) : bool :=
  match v with VNumber n => Number_isInteger n | _ => false end.

(** [v <= 0], which the routes evaluate on numbers only. *)
Definition leqZero (v : value) : bool :=
  match v with
  | VNumber n => PrimFloat.leb n 0
  | _ => false
  end.

(** The bodies the routes send: [{ sessionId, cart }], or
    [{ error, message }] with [sessionId] beside on a failed recovery. *)
Inductive payload : Type :=
  | CartPayload (sessionId : string) (cart : Cart.t)
  | ErrorPayload (error message : string) (sessionId : option string).

(** [res.status(status).json(json)] *)
Record response : Type := mkResponse { status : Z; json : payload }.

Section router.
Context {S : Type} `{!ICartService S}.

(** POST / *)
Definition postCart (now : Z) (s : S) : response * S :=
  match cs_createCart now s with
  | (Ok (sessionId, cart), s') =>
      ({| status := 201; json := CartPayload sessionId cart |}, s')
  | (Throw _, s') =>
      ({| status := 500;
          json := ErrorPayload "InternalServerError" "Failed to create cart"
                    None |}, s')
  end.

(** GET /:sessionId *)
Definition getCart (now : Z) (sessionId : string) (s : S) : response * S :=
  match cs_getCart now sessionId s with
  | (Ok cart, s') =>
      ({| status := 200; json := CartPayload sessionId cart |}, s')
  | (Throw (CartNotFoundError unknown), s') =>
      ({| status := 404;
          json := ErrorPayload "CartNotFound"
                    (CartNotFoundError_message unknown) None |}, s')
  | (Throw _, s') =>
      ({| status := 500;
          json := ErrorPayload "InternalServerError" "Failed to get cart"
                    None |}, s')
  end.

(** POST /:sessionId/items.  The three checks do not test the type of
    [productId] and [name]: a body that passes them with one of the two
    not a string is handed to the service as it is; such an item is
    outside the typed [CartItemInput] the service is written for, and the
    model gives no answer for it, [None]. *)
Definition postItem (now : Z) (sessionId : string)
    (productId name price quantity : value) (s : S) : option (response * S) :=
  if negb (truthy productId) || negb (truthy name) || isUndefined price
     || isUndefined quantity
  then
    Some ({| status := 400;
             json := ErrorPayload "ValidationError"
                       "Missing required fields: productId, name, price, quantity"
                       None |}, s)
  else if negb (isNumber price) || leqZero price then
    Some ({| status := 400;
             json := ErrorPayload "ValidationError"
                       "Price must be a positive number" None |}, s)
  else if negb (isInteger quantity) || leqZero quantity then
    Some ({| status := 400;
             json := ErrorPayload "ValidationError"
                       "Quantity must be a positive integer" None |}, s)
  else
    match productId, name, price, quantity with
    | VString productId, VString name, VNumber price, VNumber quantity =>
        Some
          match cs_addItem now sessionId
                  {| CartItemInput.productId := productId;
                     CartItemInput.name := name;
                     CartItemInput.price := price;
                     CartItemInput.quantity := quantity |} s with
          | (Ok cart, s') =>
              ({| status := 200; json := CartPayload sessionId cart |}, s')
          | (Throw (CartNotFoundError unknown), s') =>
              ({| status := 404;
                  json := ErrorPayload "CartNotFound"
                            (CartNotFoundError_message unknown) None |}, s')
          | (Throw (ContextRecoveryFailedError failed _), s') =>
              ({| status := 409;
                  json := ErrorPayload "ContextRecoveryFailed"
                            (ContextRecoveryFailedError_message failed)
                            (Some sessionId) |}, s')
          | (Throw _, s') =>
              ({| status := 500;
                  json := ErrorPayload "InternalServerError"
                            "Failed to add item to cart" None |}, s')
          end
    | _, _, _, _ => None
    end.

(** DELETE /:sessionId/items/:itemId *)
Definition deleteItem (now : Z) (sessionId itemId : string) (s : S)
  : response * S :=
  match cs_removeItem now sessionId itemId s with
  | (Ok cart, s') =>
      ({| status := 200; json := CartPayload sessionId cart |}, s')
  | (Throw (CartNotFoundError unknown), s') =>
      ({| status := 404;
          json := ErrorPayload "CartNotFound"
                    (CartNotFoundError_message unknown) None |}, s')
  | (Throw (ItemNotFoundError unknown), s') =>
      ({| status := 404;
          json := ErrorPayload "ItemNotFound"
                    (ItemNotFoundError_message unknown) None |}, s')
  | (Throw (ContextRecoveryFailedError failed _), s') =>
      ({| status := 409;
          json := ErrorPayload "ContextRecoveryFailed"
                    (ContextRecoveryFailedError_message failed)
                    (Some sessionId) |}, s')
  | (Throw _, s') =>
      ({| status := 500;
          json := ErrorPayload "InternalServerError"
                    "Failed to remove item from cart" None |}, s')
  end.

(** PUT /:sessionId/items/:itemId *)
Definition putItem (now : Z) (sessionId itemId : string) (quantity : value)
    (s : S) : response * S :=
  if isUndefined quantity then
    ({| status := 400;
        json := ErrorPayload "ValidationError"
                  "Missing required field: quantity" None |}, s)
  else
    match quantity with
    | VNumber n =>
        if negb (Number_isInteger n) || PrimFloat.leb n 0 then
          ({| status := 400;
              json := ErrorPayload "ValidationError"
                        "Quantity must be a positive integer" None |}, s)
        else
          match cs_updateItem now sessionId itemId n s with
          | (Ok cart, s') =>
              ({| status := 200; json := CartPayload sessionId cart |}, s')
          | (Throw (CartNotFoundError unknown), s') =>
              ({| status := 404;
                  json := ErrorPayload "CartNotFound"
                            (CartNotFoundError_message unknown) None |}, s')
          | (Throw (ItemNotFoundError unknown), s') =>
              ({| status := 404;
                  json := ErrorPayload "ItemNotFound"
                            (ItemNotFoundError_message unknown) None |}, s')
          | (Throw (ContextRecoveryFailedError failed _), s') =>
              ({| status := 409;
                  json := ErrorPayload "ContextRecoveryFailed"
                            (ContextRecoveryFailedError_message failed)
                            (Some sessionId) |}, s')
          | (Throw _, s') =>
              ({| status := 500;
                  json := ErrorPayload "InternalServerError"
                            "Failed to update item in cart" None |}, s')
          end
    | _ =>
        ({| status := 400;
            json := ErrorPayload "ValidationError"
                      "Quantity must be a positive integer" None |}, s)
    end.

(** The five routes of the router, as one request type. *)
Inductive request : Type :=
  | POST_cart
  | GET_cart (sessionId : string)
  | POST_item (sessionId : string) (productId name price quantity : value)
  | DELETE_item (sessionId itemId : string)
  | PUT_item (sessionId itemId : string) (quantity : value).

Definition handle (now : Z) (r : request) (s : S) : option (response * S) :=
  match r with
  | POST_cart => Some (postCart now s)
  | GET_cart sessionId => Some (getCart now sessionId s)
  | POST_item sessionId productId name price quantity =>
      postItem now sessionId productId name price quantity s
  | DELETE_item sessionId itemId => Some (deleteItem now sessionId itemId s)
  | PUT_item sessionId itemId quantity =>
      Some (putItem now sessionId itemId quantity s)
  end.

End router.

End CartRoutes.


(** A well-formed item, and the body that carries it. *)
(** The two tests of the routes on a number: [n <= 0] is false, which
    holds of the numbers above zero and of NaN; and [n] is an integer
    besides. *)
Definition notLeqZero (n : float) : Prop := PrimFloat.leb n 0 = false.

Definition positiveInteger (n : float) : Prop :=
  CartRoutes.Number_isInteger n = true ∧ PrimFloat.leb n 0 = false.

Definition wellFormed (item : CartItemInput.t) : Prop :=
  CartItemInput.productId item ≠ "" ∧ CartItemInput.name item ≠ "" ∧
  notLeqZero (CartItemInput.price item) ∧
  positiveInteger (CartItemInput.quantity item).

Definition POST_itemOf (sessionId : string) (item : CartItemInput.t)
  : CartRoutes.request :=
  CartRoutes.POST_item sessionId
    (CartRoutes.VString (CartItemInput.productId item))
    (CartRoutes.VString (CartItemInput.name item))
    (CartRoutes.VNumber (CartItemInput.price item))
    (CartRoutes.VNumber (CartItemInput.quantity item)).


(** What the three checks of POST /:sessionId/items let through, and the
    check of PUT /:sessionId/items/:itemId. *)
Definition passesChecks (productId name price quantity : CartRoutes.value)
  : Prop :=
  CartRoutes.truthy productId = true ∧ CartRoutes.truthy name = true ∧
  (∃ p, price = CartRoutes.VNumber p ∧ notLeqZero p) ∧
  (∃ q, quantity = CartRoutes.VNumber q ∧ positiveInteger q).

Definition passesCheck (quantity : CartRoutes.value) : Prop :=
  ∃ q, quantity = CartRoutes.VNumber q ∧ positiveInteger q.




(** The worlds a world can become: by [createCart], by one of the four
    operations on any session id, or by [expireContext] on any context
    id, at any instant. *)
Inductive evolves : World → World → Prop :=
  | evolves_refl w : evolves w w
  | evolves_createCart now w w' :
      evolves w w' → evolves w (CartService.createCart now w').2
  | evolves_perform now sessionId c w w' :
      evolves w w' → evolves w (CartService.perform now sessionId c w').2
  | evolves_expireContext now contextId w w' :
      evolves w w' → evolves w (expireContext now contextId w').

(** No session is bound to the context. *)
Definition unbound (contextId : string) (w : World) : Prop :=
  ∀ sessionId session,
    CartService.sessions w !! sessionId = Some session →
    SessionCart.sfContextId session ≠ contextId.


(** The request that asks the routes for an operation of the service,
    and the operations whose request passes validation. *)
Definition routeOf (sessionId : string) (c : CartService.call)
  : CartRoutes.request :=
  match c with
  | CartService.GetCart => CartRoutes.GET_cart sessionId
  | CartService.AddItem item => POST_itemOf sessionId item
  | CartService.RemoveItem itemId => CartRoutes.DELETE_item sessionId itemId
  | CartService.UpdateItem itemId quantity =>
      CartRoutes.PUT_item sessionId itemId (CartRoutes.VNumber quantity)
  end.

Definition acceptable (c : CartService.call) : Prop :=
  match c with
  | CartService.AddItem item => wellFormed item
  | CartService.UpdateItem _ quantity => positiveInteger quantity
  | _ => True
  end.


(** * Properties *)

(** ** The coordinator over any provider *)

Section generic.
Context {P : Type} `{!ISalesforceCartClient P}.
Implicit Types (s : CartService.t P) (session : SessionCart.t).

Import CartService.

Lemma migrate_replay now contextId items s :
  migrate now contextId items s =
  (let '(r, p) := replay now contextId items (sfClient s) in
   (r, {| sessions := sessions s; uuids := uuids s; sfClient := p |})).
Proof.
  revert s. induction items as [|item rest IH]; intros s; simpl.
  - by destruct s.
  - unfold bind, await.
    destruct (sf_addItem now contextId (toInput item) (sfClient s))
      as [[cart|e] p]; [|done].
    by rewrite IH.
Qed.

(** C3. Recovery is atomic: a successful [recoverContext] has created a
    context, replayed every session item into it and only then rebound the
    session (items unchanged); a failed one, whether the creation or one
    of the replayed [addItem] calls threw, leaves the session table as it
    was and throws [ContextRecoveryFailedError] with the session id and
    the cause: the value thrown, whenever it is an [Error]. *)
Theorem recovery_atomic now ref session s :
  let '(r, s') := recoverContext now ref session s in
  match r with
  | Ok session' =>
      ∃ newContext p1,
        sf_createContext now (sfClient s) = (Ok newContext, p1) ∧
        replay now (CartContext.id newContext) (SessionCart.items session) p1
          = (Ok tt, sfClient s') ∧
        session' =
          SessionCart.with_sfContextId (CartContext.id newContext) session ∧
        SessionCart.items session' = SessionCart.items session ∧
        sessions s' = <[ref := session']> (sessions s)
  | Throw e =>
      sessions s' = sessions s ∧
      ∃ cause,
        e = ContextRecoveryFailedError (SessionCart.sessionId session)
              (if instanceof_Error cause then Some cause else None) ∧
        (sf_createContext now (sfClient s) = (Throw cause, sfClient s') ∨
         ∃ newContext p1,
           sf_createContext now (sfClient s) = (Ok newContext, p1) ∧
           replay now (CartContext.id newContext) (SessionCart.items session)
             p1 = (Throw cause, sfClient s'))
  end.
Proof.
  unfold recoverContext, try_catch, bind, await.
  destruct (sf_createContext now (sfClient s)) as [[newContext|cause] p1]
    eqn:Hcreate; simpl.
  - rewrite migrate_replay; simpl.
    destruct (replay now (CartContext.id newContext)
                (SessionCart.items session) p1) as [[[]|cause] p2] eqn:Hreplay;
      simpl.
    + exists newContext, p1. by rewrite Hreplay.
    + split; [done|]. exists cause. split; [done|]. right.
      exists newContext, p1. by rewrite Hreplay.
  - split; [done|]. exists cause. split; [done|]. by left.
Qed.

Lemma getCart_unknown now sessionId s :
  sessions s !! sessionId = None →
  getCart now sessionId s = (Throw (CartNotFoundError sessionId), s).
Proof.
  intros Hs. unfold getCart, touch, bind, getSession. by rewrite Hs.
Qed.

Lemma addItem_unknown now sessionId input s :
  sessions s !! sessionId = None →
  addItem now sessionId input s = (Throw (CartNotFoundError sessionId), s).
Proof.
  intros Hs. unfold addItem, touch, bind, getSession. by rewrite Hs.
Qed.

Lemma removeItem_unknown now sessionId itemId s :
  sessions s !! sessionId = None →
  removeItem now sessionId itemId s
  = (Throw (CartNotFoundError sessionId), s).
Proof.
  intros Hs. unfold removeItem, touch, bind, getSession. by rewrite Hs.
Qed.

Lemma updateItem_unknown now sessionId itemId quantity s :
  sessions s !! sessionId = None →
  updateItem now sessionId itemId quantity s
  = (Throw (CartNotFoundError sessionId), s).
Proof.
  intros Hs. unfold updateItem, touch, bind, getSession. by rewrite Hs.
Qed.

(** When the provider reports an expired context, [getCart] and
    [addItem] recover once and issue the call once more; whatever that
    second call answers, an expired-context error included, is the
    answer of the operation. *)
Lemma getCart_retries_once now sessionId session s contextId p :
  sessions s !! sessionId = Some session →
  sf_getCart now (SessionCart.sfContextId session) (sfClient s)
    = (Throw (ContextExpiredError contextId), p) →
  getCart now sessionId s =
  match recoverContext now sessionId
          (SessionCart.with_lastAccessed now session)
          {| sessions :=
               <[sessionId := SessionCart.with_lastAccessed now session]>
                 (sessions s);
             uuids := uuids s; sfClient := p |} with
  | (Ok session', s') =>
      await (sf_getCart now (SessionCart.sfContextId session')) s'
  | (Throw e, s') => (Throw e, s')
  end.
Proof.
  intros Hs Hcall. unfold getCart, touch, try_catch, bind, getSession.
  rewrite Hs; simpl. unfold await at 1; simpl. by rewrite Hcall.
Qed.

Lemma addItem_retries_once now sessionId session s input contextId p :
  sessions s !! sessionId = Some session →
  sf_addItem now (SessionCart.sfContextId session) input (sfClient s)
    = (Throw (ContextExpiredError contextId), p) →
  addItem now sessionId input s =
  match recoverContext now sessionId
          (SessionCart.with_lastAccessed now session)
          {| sessions :=
               <[sessionId := SessionCart.with_lastAccessed now session]>
                 (sessions s);
             uuids := uuids s; sfClient := p |} with
  | (Ok session', s') =>
      match sf_addItem now (SessionCart.sfContextId session') input
              (sfClient s') with
      | (Ok cart, p') =>
          (Ok cart,
           {| sessions :=
                <[sessionId := SessionCart.with_items (Cart.items cart)
                                 session']> (sessions s');
              uuids := uuids s'; sfClient := p' |})
      | (Throw e, p') =>
          (Throw e,
           {| sessions := sessions s'; uuids := uuids s'; sfClient := p' |})
      end
  | (Throw e, s') => (Throw e, s')
  end.
Proof.
  intros Hs Hcall.
  unfold addItem, syncSessionItems, touch, try_catch, bind, getSession, store,
    ret.
  rewrite Hs; simpl. unfold await at 1; simpl. rewrite Hcall; simpl.
  destruct (recoverContext _ _ _ _) as [[session'|e] s']; [|done].
  unfold await.
  by destruct (sf_addItem now (SessionCart.sfContextId session') input
                 (sfClient s')) as [[cart|e] p'].
Qed.

(** C7. An unknown session id is rejected with [CartNotFoundError] by
    each of the four operations, in the state the operation started from:
    the provider (whatever it is) has not been called. *)
Theorem unknown_session_rejected now sessionId (c : call) s :
  sessions s !! sessionId = None →
  perform now sessionId c s = (Throw (CartNotFoundError sessionId), s).
Proof.
  intros Hnone. destruct c as [|input|itemId|itemId quantity]; simpl.
  - by apply getCart_unknown.
  - by apply addItem_unknown.
  - by apply removeItem_unknown.
  - by apply updateItem_unknown.
Qed.

End generic.

Lemma unknown_session_rejected_witness :
  CartService.perform 0 "invalid_session"
    (CartService.RemoveItem "item_001") world0
  = (Throw (CartNotFoundError "invalid_session"), world0).
Proof. apply unknown_session_rejected. reflexivity. Defined.

(** ** The simulated provider *)

Section provider.
Import SalesforceCartClient.
Implicit Types (c : SalesforceCartClient.t) (cd : ContextData).

Lemma getValidContext_Throw now contextId c e :
  getValidContext now contextId c = Throw e →
  e = ContextExpiredError contextId ∧
  ∀ cd, contexts c !! contextId = Some cd →
        (CartContext.expiresAt (context cd) < now)%Z.
Proof.
  unfold getValidContext.
  destruct (contexts c !! contextId) as [cd|]; [|by intros [= <-]].
  destruct (Z.gtb_spec now (CartContext.expiresAt (context cd)));
    [|done].
  intros [= <-]. split; [done|]. intros ? [= <-]. lia.
Qed.

Lemma getValidContext_Ok now contextId c cd :
  getValidContext now contextId c = Ok cd ↔
  contexts c !! contextId = Some cd ∧
  (now ≤ CartContext.expiresAt (context cd))%Z.
Proof.
  unfold getValidContext.
  destruct (contexts c !! contextId) as [cd'|]; [|by split; [|intros []]].
  destruct (Z.gtb_spec now (CartContext.expiresAt (context cd'))); split.
  - done.
  - intros [[= ->] ?]. lia.
  - by intros [= ->].
  - by intros [[= ->] ?].
Qed.

Lemma getValidContext_expired now contextId c :
  (∀ cd, contexts c !! contextId = Some cd →
         (CartContext.expiresAt (context cd) < now)%Z) →
  getValidContext now contextId c = Throw (ContextExpiredError contextId).
Proof.
  intros Hexp.
  destruct (getValidContext now contextId c) as [cd|e] eqn:Hv.
  - apply getValidContext_Ok in Hv as [Hcd ?]. apply Hexp in Hcd. lia.
  - by apply getValidContext_Throw in Hv as [-> _].
Qed.

(** C2, as the code has it.  Each of the four operations, taken by
    itself, fails with the expired-context error exactly when the context
    id is unknown or the current instant is strictly past the expiry
    instant of the context, and then leaves the provider as it was.  At
    the expiry instant itself the context is still valid: [getCart] and
    [addItem] are served from it, and so are [removeItem] and
    [updateItem], which can only miss the item. *)
Theorem expiry_is_strict now contextId c item itemId quantity :
  ((addItem now contextId item c).1 = Throw (ContextExpiredError contextId)
   ↔ expired now contextId c) ∧
  ((getCart now contextId c).1 = Throw (ContextExpiredError contextId)
   ↔ expired now contextId c) ∧
  ((removeItem now contextId itemId c).1
   = Throw (ContextExpiredError contextId)
   ↔ expired now contextId c) ∧
  ((updateItem now contextId itemId quantity c).1
   = Throw (ContextExpiredError contextId)
   ↔ expired now contextId c) ∧
  (expired now contextId c →
   (addItem now contextId item c).2 = c ∧
   (getCart now contextId c).2 = c ∧
   (removeItem now contextId itemId c).2 = c ∧
   (updateItem now contextId itemId quantity c).2 = c) ∧
  (∀ cd, contexts c !! contextId = Some cd →
         CartContext.expiresAt (context cd) = now →
         getValidContext now contextId c = Ok cd ∧
         is_Ok (addItem now contextId item c).1 = true ∧
         (getCart now contextId c).1 = Ok (buildCart cd) ∧
         (is_Ok (removeItem now contextId itemId c).1 = true ∨
          (removeItem now contextId itemId c).1
          = Throw (ItemNotFoundError itemId)) ∧
         (is_Ok (updateItem now contextId itemId quantity c).1 = true ∨
          (updateItem now contextId itemId quantity c).1
          = Throw (ItemNotFoundError itemId))).
Proof.
  assert (∀ cd, getValidContext now contextId c = Ok cd →
            ¬ expired now contextId c) as Hlive.
  { intros cd Hv Hexp. apply getValidContext_Ok in Hv as [Hcd Hle].
    apply Hexp in Hcd. lia. }
  unfold addItem, getCart, removeItem, updateItem.
  destruct (getValidContext now contextId c) as [cd|e] eqn:Hv.
  - specialize (Hlive cd eq_refl).
    destruct (findById itemId (items cd)) as [[itemIndex found]|] eqn:Hfind;
      simpl; (split_and!; [by split..|done|]);
      intros cd' Hcd' Hnow; apply getValidContext_Ok in Hv as [Hcd _];
      rewrite Hcd in Hcd'; injection Hcd' as <-; split_and!; auto.
  - apply getValidContext_Throw in Hv as [-> Hexp]. simpl.
    split_and!; [by split..|done|].
    intros cd Hcd Hnow. apply Hexp in Hcd. lia.
Qed.

(** C2, refuted as stated: at the instant equal to the context's expiry
    instant the context is still served. *)
Lemma inclusive_boundary_counterexample :
  (CartContext.expiresAt ∘ context <$> contexts c_boundary !! "ctx_0")
    = Some t_boundary ∧
  (getCart t_boundary "ctx_0" c_boundary).1
    = Ok {| Cart.id := "cart_ctx_0";
            Cart.items := [mkItem "item_1" "p1" "one" 100 1];
            Cart.total := 100 |} ∧
  is_Ok (addItem t_boundary "ctx_0" item_p2 c_boundary).1 = true ∧
  is_Ok (removeItem t_boundary "ctx_0" "item_1" c_boundary).1 = true ∧
  is_Ok (updateItem t_boundary "ctx_0" "item_1" 3 c_boundary).1 = true.
Proof. by vm_compute. Qed.

End provider.

Section provider_facts.
Import SalesforceCartClient.
Implicit Types (c : SalesforceCartClient.t) (cd : ContextData).

Lemma fold_total_acc (l : list CartItem.t) (acc : float) :
  fold_left
    (λ sum item, (sum + CartItem.price item * CartItem.quantity item)%float)
    l acc = sumFrom acc l.
Proof. revert acc. induction l as [|item rest IH]; intros acc; by simpl. Qed.

Lemma buildCart_total cd : Cart.total (buildCart cd) = sumTotal (items cd).
Proof. unfold buildCart; simpl. by rewrite fold_total_acc. Qed.

Lemma sumFrom_contents (l1 l2 : list CartItem.t) (acc : float) :
  contents l1 = contents l2 → sumFrom acc l1 = sumFrom acc l2.
Proof.
  revert l2 acc. induction l1 as [|x l1 IH]; intros [|y l2] acc; simpl;
    try done.
  intros [= Hp Hn Hpr Hq Hrest]. rewrite Hpr, Hq. by apply IH.
Qed.

Lemma sumTotal_contents (l1 l2 : list CartItem.t) :
  contents l1 = contents l2 → sumTotal l1 = sumTotal l2.
Proof. apply sumFrom_contents. Qed.

Lemma contents_relabel n (inputs : list CartItemInput.t) :
  contents (relabel n inputs) = inputs.
Proof.
  revert n. induction inputs as [|[] rest IH]; intros n; simpl; [done|].
  by rewrite IH.
Qed.

Lemma addItem_valid now contextId input c cd :
  getValidContext now contextId c = Ok cd →
  addItem now contextId input c =
  (Ok (buildCart {| context := context cd;
                    items := items cd ++ [mint (itemCounter c) input] |}),
   {| contexts :=
        <[contextId := {| context := context cd;
                          items := items cd ++ [mint (itemCounter c) input] |}]>
          (contexts c);
      itemCounter := S (itemCounter c);
      uuids := uuids c |}).
Proof. intros Hv. unfold addItem. by rewrite Hv. Qed.

Lemma getValidContext_insert now contextId c cd n u :
  (now ≤ CartContext.expiresAt (context cd))%Z →
  getValidContext now contextId
    {| contexts := <[contextId := cd]> (contexts c);
       itemCounter := n; uuids := u |} = Ok cd.
Proof.
  intros Hle. apply getValidContext_Ok; simpl.
  by rewrite lookup_insert_eq.
Qed.

(** The replay of a list of items into a valid context appends their
    relabelled copies, in order, and cannot fail. *)
Lemma replay_valid now contextId (l : list CartItem.t) c cd :
  getValidContext now contextId c = Ok cd →
  CartService.replay now contextId l c =
  (Ok tt,
   {| contexts :=
        <[contextId := {| context := context cd;
                          items := items cd
                                   ++ relabel (itemCounter c) (contents l) |}]>
          (contexts c);
      itemCounter := itemCounter c + length l;
      uuids := uuids c |}).
Proof.
  revert c cd. induction l as [|item rest IH]; intros c cd Hv; simpl.
  - apply getValidContext_Ok in Hv as [Hcd _].
    rewrite app_nil_r, Nat.add_0_r. destruct cd as [ctx its]; simpl.
    rewrite insert_id by done. by destruct c.
  - rewrite (addItem_valid _ _ _ _ _ Hv).
    erewrite IH; last first.
    { apply getValidContext_insert; simpl.
      by apply getValidContext_Ok in Hv as [_ ?]. }
    simpl. rewrite insert_insert_eq, <-app_assoc; simpl.
    do 3 f_equal. lia.
Qed.

End provider_facts.

(** ** The coordinator over the simulated provider *)

Section world_facts.
Import CartService.
Implicit Types (w : World) (session : SessionCart.t).

Lemma recoverContext_World now ref session w :
  recoverContext now ref session w =
  (Ok (SessionCart.with_sfContextId (recoveredId (sfClient w)) session),
   {| sessions :=
        <[ref := SessionCart.with_sfContextId (recoveredId (sfClient w))
                   session]> (sessions w);
      uuids := uuids w;
      sfClient := recovered now session (sfClient w) |}).
Proof.
  unfold recoverContext, try_catch, bind, await; simpl.
  rewrite migrate_replay; simpl.
  erewrite replay_valid; last first.
  { apply getValidContext_insert; simpl.
    unfold SalesforceCartClient.CONTEXT_EXPIRY_MS. lia. }
  simpl. by rewrite insert_insert_eq.
Qed.

(** Outcome of each operation when the provider's call succeeds, fails
    with another error, or reports an expired context. *)
Lemma getCart_served now sessionId session w cart :
  sessions w !! sessionId = Some session →
  SalesforceCartClient.getCart now (SessionCart.sfContextId session)
    (sfClient w) = (Ok cart, sfClient w) →
  getCart now sessionId w = (Ok cart, touchedW now sessionId session w).
Proof.
  intros Hs Hcall. unfold getCart, touch, try_catch, bind, getSession, await.
  rewrite Hs; simpl. by rewrite Hcall.
Qed.

Lemma getCart_expired now sessionId session w :
  sessions w !! sessionId = Some session →
  expired now (SessionCart.sfContextId session) (sfClient w) →
  getCart now sessionId w
  = (Ok (SalesforceCartClient.buildCart
           (recoveredData now session (sfClient w))),
     recoveredW now sessionId session w).
Proof.
  intros Hs Hexp.
  unfold getCart, touch, try_catch, bind, getSession, await.
  rewrite Hs; simpl. unfold SalesforceCartClient.getCart at 1.
  rewrite (getValidContext_expired _ _ _ Hexp); simpl.
  rewrite recoverContext_World; simpl.
  unfold SalesforceCartClient.getCart.
  erewrite (proj2 (getValidContext_Ok _ _ _ _)); last first.
  { split; [apply lookup_insert_eq|]; simpl.
    unfold SalesforceCartClient.CONTEXT_EXPIRY_MS. lia. }
  unfold recoveredW. by rewrite insert_insert_eq.
Qed.

Lemma recovered_valid now session (c : SalesforceCartClient.t) :
  SalesforceCartClient.getValidContext now (recoveredId c)
    (recovered now session c) = Ok (recoveredData now session c).
Proof.
  apply getValidContext_Ok. split; [apply lookup_insert_eq|]; simpl.
  unfold SalesforceCartClient.CONTEXT_EXPIRY_MS. lia.
Qed.

Lemma recoveredW_session now sessionId session w :
  sessions (recoveredW now sessionId session w) !! sessionId
  = Some (SessionCart.with_sfContextId (recoveredId (sfClient w))
            (SessionCart.with_lastAccessed now session)).
Proof. apply lookup_insert_eq. Qed.

Lemma addItem_served now sessionId session w input cart c' :
  sessions w !! sessionId = Some session →
  SalesforceCartClient.addItem now (SessionCart.sfContextId session) input
    (sfClient w) = (Ok cart, c') →
  addItem now sessionId input w
  = (Ok cart, syncedW now sessionId session (cart, c') w).
Proof.
  intros Hs Hcall.
  unfold addItem, syncSessionItems, touch, try_catch, bind, getSession, await,
    store, ret.
  rewrite Hs; simpl. rewrite Hcall; simpl.
  unfold syncedW; simpl. by rewrite insert_insert_eq.
Qed.

Lemma removeItem_served now sessionId session w itemId cart c' :
  sessions w !! sessionId = Some session →
  SalesforceCartClient.removeItem now (SessionCart.sfContextId session) itemId
    (sfClient w) = (Ok cart, c') →
  removeItem now sessionId itemId w
  = (Ok cart, syncedW now sessionId session (cart, c') w).
Proof.
  intros Hs Hcall.
  unfold removeItem, syncSessionItems, touch, try_catch, bind, getSession,
    await, store, ret.
  rewrite Hs; simpl. rewrite Hcall; simpl.
  unfold syncedW; simpl. by rewrite insert_insert_eq.
Qed.

Lemma updateItem_served now sessionId session w itemId quantity cart c' :
  sessions w !! sessionId = Some session →
  SalesforceCartClient.updateItem now (SessionCart.sfContextId session) itemId
    quantity (sfClient w) = (Ok cart, c') →
  updateItem now sessionId itemId quantity w
  = (Ok cart, syncedW now sessionId session (cart, c') w).
Proof.
  intros Hs Hcall.
  unfold updateItem, syncSessionItems, touch, try_catch, bind, getSession,
    await, store, ret.
  rewrite Hs; simpl. rewrite Hcall; simpl.
  unfold syncedW; simpl. by rewrite insert_insert_eq.
Qed.

Lemma removeItem_missing now sessionId session w itemId :
  sessions w !! sessionId = Some session →
  SalesforceCartClient.removeItem now (SessionCart.sfContextId session) itemId
    (sfClient w) = (Throw (ItemNotFoundError itemId), sfClient w) →
  removeItem now sessionId itemId w
  = (Throw (ItemNotFoundError itemId), touchedW now sessionId session w).
Proof.
  intros Hs Hcall.
  unfold removeItem, touch, try_catch, bind, getSession, await, store.
  rewrite Hs; simpl. by rewrite Hcall.
Qed.

Lemma updateItem_missing now sessionId session w itemId quantity :
  sessions w !! sessionId = Some session →
  SalesforceCartClient.updateItem now (SessionCart.sfContextId session) itemId
    quantity (sfClient w) = (Throw (ItemNotFoundError itemId), sfClient w) →
  updateItem now sessionId itemId quantity w
  = (Throw (ItemNotFoundError itemId), touchedW now sessionId session w).
Proof.
  intros Hs Hcall.
  unfold updateItem, touch, try_catch, bind, getSession, await, store.
  rewrite Hs; simpl. by rewrite Hcall.
Qed.

(** An operation that meets an expired context behaves as the same
    operation on the recovered world; [removeItem] and [updateItem] first
    translate the item id through the session's list. *)
Lemma getCart_recovers now sessionId session w :
  sessions w !! sessionId = Some session →
  expired now (SessionCart.sfContextId session) (sfClient w) →
  getCart now sessionId w
  = getCart now sessionId (recoveredW now sessionId session w).
Proof.
  intros Hs Hexp. rewrite (getCart_expired _ _ _ _ Hs Hexp).
  erewrite getCart_served; [|apply recoveredW_session|]; last first.
  { simpl. unfold SalesforceCartClient.getCart.
    by rewrite recovered_valid. }
  unfold touchedW, recoveredW; simpl. by rewrite insert_insert_eq.
Qed.

Lemma addItem_recovers now sessionId session w input :
  sessions w !! sessionId = Some session →
  expired now (SessionCart.sfContextId session) (sfClient w) →
  addItem now sessionId input w
  = addItem now sessionId input (recoveredW now sessionId session w).
Proof.
  intros Hs Hexp.
  erewrite (addItem_served _ _ _ (recoveredW _ _ _ _));
    [|apply recoveredW_session|]; last first.
  { simpl. apply addItem_valid, recovered_valid. }
  unfold addItem, syncSessionItems, touch, try_catch, bind, getSession, await,
    store, ret.
  rewrite Hs; simpl. unfold SalesforceCartClient.addItem at 1.
  rewrite (getValidContext_expired _ _ _ Hexp); simpl.
  rewrite recoverContext_World; simpl.
  rewrite (addItem_valid _ _ _ _ _ (recovered_valid _ _ _)); simpl.
  unfold syncedW, recoveredW; simpl. by rewrite !insert_insert_eq.
Qed.

Lemma removeItem_recovers now sessionId session w itemId :
  sessions w !! sessionId = Some session →
  expired now (SessionCart.sfContextId session) (sfClient w) →
  removeItem now sessionId itemId w =
  match find (λ item, CartItem.id item = itemId)
          (SessionCart.items session) with
  | None =>
      (Throw (ContextExpiredError (SessionCart.sfContextId session)),
       recoveredW now sessionId session w)
  | Some itemToRemove =>
      match find (λ item, CartItem.productId item
                          = CartItem.productId itemToRemove)
              (SalesforceCartClient.items
                 (recoveredData now session (sfClient w))) with
      | None =>
          (Throw (ContextRecoveryFailedError sessionId None),
           recoveredW now sessionId session w)
      | Some newItem =>
          removeItem now sessionId (CartItem.id newItem)
            (recoveredW now sessionId session w)
      end
  end.
Proof.
  intros Hs Hexp.
  unfold removeItem at 1.
  unfold syncSessionItems, touch, try_catch, bind, getSession, await,
    store, ret, throw.
  rewrite Hs; simpl. unfold SalesforceCartClient.removeItem at 1.
  rewrite (getValidContext_expired _ _ _ Hexp); simpl.
  rewrite recoverContext_World; simpl.
  rewrite insert_insert_eq.
  destruct (find _ (SessionCart.items session)) as [itemToRemove|]; [|done].
  unfold SalesforceCartClient.getCart.
  rewrite (recovered_valid now session); simpl.
  destruct (find _ (relabel _ _)) as [newItem|]; [|done].
  change (recovered now (SessionCart.with_lastAccessed now session))
    with (recovered now session).
  cbn [sfClient sessions uuids].
  destruct (SalesforceCartClient.removeItem now (recoveredId (sfClient w))
              (CartItem.id newItem) (recovered now session (sfClient w)))
    as [[cart|e] c'] eqn:Hcall.
  - erewrite removeItem_served; [|apply recoveredW_session|exact Hcall].
    unfold syncedW, recoveredW; simpl. by rewrite !insert_insert_eq.
  - revert Hcall. unfold SalesforceCartClient.removeItem.
    rewrite recovered_valid.
    destruct (SalesforceCartClient.findById _ _) as [[i z]|] eqn:Hfind;
      [done|].
    intros [= <- <-].
    erewrite removeItem_missing; [|apply recoveredW_session|]; last first.
    { simpl. unfold SalesforceCartClient.removeItem.
      by rewrite recovered_valid, Hfind. }
    unfold touchedW, recoveredW; simpl. by rewrite insert_insert_eq.
Qed.

Lemma updateItem_recovers now sessionId session w itemId quantity :
  sessions w !! sessionId = Some session →
  expired now (SessionCart.sfContextId session) (sfClient w) →
  updateItem now sessionId itemId quantity w =
  match find (λ item, CartItem.id item = itemId)
          (SessionCart.items session) with
  | None =>
      (Throw (ContextExpiredError (SessionCart.sfContextId session)),
       recoveredW now sessionId session w)
  | Some itemToUpdate =>
      match find (λ item, CartItem.productId item
                          = CartItem.productId itemToUpdate)
              (SalesforceCartClient.items
                 (recoveredData now session (sfClient w))) with
      | None =>
          (Throw (ContextRecoveryFailedError sessionId None),
           recoveredW now sessionId session w)
      | Some newItem =>
          updateItem now sessionId (CartItem.id newItem) quantity
            (recoveredW now sessionId session w)
      end
  end.
Proof.
  intros Hs Hexp.
  unfold updateItem at 1.
  unfold syncSessionItems, touch, try_catch, bind, getSession, await,
    store, ret, throw.
  rewrite Hs; simpl. unfold SalesforceCartClient.updateItem at 1.
  rewrite (getValidContext_expired _ _ _ Hexp); simpl.
  rewrite recoverContext_World; simpl.
  rewrite insert_insert_eq.
  destruct (find _ (SessionCart.items session)) as [itemToUpdate|]; [|done].
  unfold SalesforceCartClient.getCart.
  rewrite (recovered_valid now session); simpl.
  destruct (find _ (relabel _ _)) as [newItem|]; [|done].
  change (recovered now (SessionCart.with_lastAccessed now session))
    with (recovered now session).
  cbn [sfClient sessions uuids].
  destruct (SalesforceCartClient.updateItem now (recoveredId (sfClient w))
              (CartItem.id newItem) quantity
              (recovered now session (sfClient w)))
    as [[cart|e] c'] eqn:Hcall.
  - erewrite updateItem_served; [|apply recoveredW_session|exact Hcall].
    unfold syncedW, recoveredW; simpl. by rewrite !insert_insert_eq.
  - revert Hcall. unfold SalesforceCartClient.updateItem.
    rewrite recovered_valid.
    destruct (SalesforceCartClient.findById _ _) as [[i z]|] eqn:Hfind;
      [done|].
    intros [= <- <-].
    erewrite updateItem_missing; [|apply recoveredW_session|]; last first.
    { simpl. unfold SalesforceCartClient.updateItem.
      by rewrite recovered_valid, Hfind. }
    unfold touchedW, recoveredW; simpl. by rewrite insert_insert_eq.
Qed.

End world_facts.

(** ** Stale item ids and the read path *)

Section defects.
Import CartService.

(** C4. The id ["item_999"] names no item.  With a live context the
    caller is told so; once the context has expired the very same call
    recovers the context and then rethrows the provider's
    expired-context error. *)
Theorem stale_id_unknown_to_session_evaluated :
  (removeItem 0 "sess_0" "item_999" w_one).1
    = Throw (ItemNotFoundError "item_999") ∧
  (removeItem 0 "sess_0" "item_999" w_one_expired).1
    = Throw (ContextExpiredError "ctx_0") ∧
  SessionCart.sfContextId
    <$> sessions (removeItem 0 "sess_0" "item_999" w_one_expired).2
        !! "sess_0" = Some "ctx_1".
Proof. by vm_compute. Qed.

(** C5. Whenever the context of the session has expired and the item id
    names no item of the session's list, [removeItem] and [updateItem]
    hand the provider's expired-context error to their caller, after a
    recovery that succeeded. *)
Theorem expired_error_surfaces now sessionId session itemId quantity
    (w : World) :
  sessions w !! sessionId = Some session →
  expired now (SessionCart.sfContextId session) (sfClient w) →
  find (λ item, CartItem.id item = itemId) (SessionCart.items session)
    = None →
  perform now sessionId (RemoveItem itemId) w
    = (Throw (ContextExpiredError (SessionCart.sfContextId session)),
       recoveredW now sessionId session w) ∧
  perform now sessionId (UpdateItem itemId quantity) w
    = (Throw (ContextExpiredError (SessionCart.sfContextId session)),
       recoveredW now sessionId session w).
Proof.
  intros Hs Hexp Hfind; simpl.
  rewrite (removeItem_recovers _ _ _ _ _ Hs Hexp).
  rewrite (updateItem_recovers _ _ _ _ _ _ Hs Hexp).
  by rewrite Hfind.
Qed.

(** C8. [getCart] on a session whose context has expired returns the
    recovered cart (item ["item_2"]) and leaves the session's list as it
    was (item ["item_1"]): the list of the session is not the list of
    its context.  A caller that then names ["item_2"], the id it was just
    given, is answered with the expired-context error if the context
    expires once more. *)
Theorem getCart_leaves_session_items :
  (getCart 0 "sess_0" w_one_expired).1
    = Ok {| Cart.id := "cart_ctx_1";
            Cart.items := [mkItem "item_2" "p1" "one" 100 1];
            Cart.total := 100 |} ∧
  sessionItems "sess_0" (getCart 0 "sess_0" w_one_expired).2
    = Some [mkItem "item_1" "p1" "one" 100 1] ∧
  contextItems "sess_0" (getCart 0 "sess_0" w_one_expired).2
    = Some [mkItem "item_2" "p1" "one" 100 1] ∧
  (removeItem 0 "sess_0" "item_2"
     (expireSession 0 "sess_0" (getCart 0 "sess_0" w_one_expired).2)).1
    = Throw (ContextExpiredError "ctx_1").
Proof. by vm_compute. Qed.

End defects.

Lemma expired_error_surfaces_witness :
  CartService.perform 0 "sess_0" (CartService.UpdateItem "item_999" 3)
    w_one_expired
  = (Throw (ContextExpiredError "ctx_0"),
     recoveredW 0 "sess_0" session_one w_one_expired).
Proof.
  refine (proj2 (expired_error_surfaces 0 "sess_0" session_one "item_999" 3
                   w_one_expired _ _ _)).
  - by vm_compute.
  - intros cd Hcd. vm_compute in Hcd. by injection Hcd as <-.
  - by vm_compute.
Defined.

(** ** The recovered cart holds every product of the session *)

Section remapping.
Import CartService.

Lemma find_Some_elem {A} (P : A → Prop) `{!∀ x, Decision (P x)}
    (l : list A) (x : A) :
  find P l = Some x → x ∈ l ∧ P x.
Proof.
  unfold find. destruct (list_find P l) as [[i y]|] eqn:Hfind; [|done].
  intros [= <-]. apply list_find_Some in Hfind as (Hi & HP & _).
  split; [by eapply list_elem_of_lookup_2|done].
Qed.

Lemma find_is_Some {A} (P : A → Prop) `{!∀ x, Decision (P x)}
    (l : list A) (x : A) :
  x ∈ l → P x → is_Some (find P l).
Proof.
  intros Hx HP. destruct (list_find_elem_of P l x Hx HP) as [[i y] Hfind].
  unfold find. rewrite Hfind. by eexists.
Qed.

Lemma relabel_covers n (l : list CartItem.t) (item : CartItem.t) :
  item ∈ l →
  ∃ newItem, newItem ∈ relabel n (contents l) ∧
             CartItem.productId newItem = CartItem.productId item.
Proof.
  intros Hin.
  assert (toInput item ∈ contents (relabel n (contents l))) as Hc.
  { rewrite contents_relabel. by apply list_elem_of_fmap_2. }
  apply list_elem_of_fmap in Hc as (newItem & Heq & Hnew).
  exists newItem. split; [done|].
  by apply (f_equal CartItemInput.productId) in Heq.
Qed.

Lemma removeItem_valid now contextId itemId (c : SalesforceCartClient.t) cd :
  SalesforceCartClient.getValidContext now contextId c = Ok cd →
  SalesforceCartClient.removeItem now contextId itemId c =
  match SalesforceCartClient.findById itemId
          (SalesforceCartClient.items cd) with
  | None => (Throw (ItemNotFoundError itemId), c)
  | Some (itemIndex, _) =>
      let cd' :=
        {| SalesforceCartClient.context := SalesforceCartClient.context cd;
           SalesforceCartClient.items :=
             delete itemIndex (SalesforceCartClient.items cd) |} in
      (Ok (SalesforceCartClient.buildCart cd'),
       SalesforceCartClient.with_contexts
         (<[contextId := cd']> (SalesforceCartClient.contexts c)) c)
  end.
Proof. intros Hv. unfold SalesforceCartClient.removeItem. by rewrite Hv. Qed.

Lemma updateItem_valid now contextId itemId quantity
    (c : SalesforceCartClient.t) cd :
  SalesforceCartClient.getValidContext now contextId c = Ok cd →
  SalesforceCartClient.updateItem now contextId itemId quantity c =
  match SalesforceCartClient.findById itemId
          (SalesforceCartClient.items cd) with
  | None => (Throw (ItemNotFoundError itemId), c)
  | Some (itemIndex, item) =>
      let cd' :=
        {| SalesforceCartClient.context := SalesforceCartClient.context cd;
           SalesforceCartClient.items :=
             <[itemIndex := CartItem.with_quantity quantity item]>
               (SalesforceCartClient.items cd) |} in
      (Ok (SalesforceCartClient.buildCart cd'),
       SalesforceCartClient.with_contexts
         (<[contextId := cd']> (SalesforceCartClient.contexts c)) c)
  end.
Proof. intros Hv. unfold SalesforceCartClient.updateItem. by rewrite Hv. Qed.

(** On a live context [removeItem] and [updateItem] either succeed or
    report the item as not found. *)
Lemma removeItem_live now sessionId session itemId (w : World) cd :
  sessions w !! sessionId = Some session →
  SalesforceCartClient.getValidContext now (SessionCart.sfContextId session)
    (sfClient w) = Ok cd →
  is_Ok (removeItem now sessionId itemId w).1 = true ∨
  (removeItem now sessionId itemId w).1 = Throw (ItemNotFoundError itemId).
Proof.
  intros Hs Hv.
  pose proof (removeItem_valid now _ itemId _ _ Hv) as Hcall.
  destruct (SalesforceCartClient.findById itemId _) as [[i x]|].
  - left. by erewrite removeItem_served.
  - right. by erewrite removeItem_missing.
Qed.

Lemma updateItem_live now sessionId session itemId quantity (w : World) cd :
  sessions w !! sessionId = Some session →
  SalesforceCartClient.getValidContext now (SessionCart.sfContextId session)
    (sfClient w) = Ok cd →
  is_Ok (updateItem now sessionId itemId quantity w).1 = true ∨
  (updateItem now sessionId itemId quantity w).1
    = Throw (ItemNotFoundError itemId).
Proof.
  intros Hs Hv.
  pose proof (updateItem_valid now _ itemId quantity _ _ Hv) as Hcall.
  destruct (SalesforceCartClient.findById itemId _) as [[i x]|].
  - left. by erewrite updateItem_served.
  - right. by erewrite updateItem_missing.
Qed.

Lemma recoveredW_live now sessionId session (w : World) :
  SalesforceCartClient.getValidContext now
    (SessionCart.sfContextId
       (SessionCart.with_sfContextId (recoveredId (sfClient w))
          (SessionCart.with_lastAccessed now session)))
    (sfClient (recoveredW now sessionId session w))
  = Ok (recoveredData now session (sfClient w)).
Proof. apply recovered_valid. Qed.

(** C10. Over the simulated provider a recovery always succeeds and the
    cart then read from the new context holds the session's items up to
    their ids, so every product of the session is found in it; and
    neither [removeItem] nor [updateItem] ever throws the
    [ContextRecoveryFailedError] of the branch taken when the product is
    missing from the recovered cart. *)
Theorem recovery_failure_branch_unreachable now sessionId itemId quantity
    (w : World) :
  (∀ ref session,
     ∃ session' w' cart,
       recoverContext now ref session w = (Ok session', w') ∧
       SalesforceCartClient.getCart now (SessionCart.sfContextId session')
         (sfClient w') = (Ok cart, sfClient w') ∧
       contents (Cart.items cart) = contents (SessionCart.items session) ∧
       ∀ item, item ∈ SessionCart.items session →
         is_Some (find (λ newItem, CartItem.productId newItem
                                   = CartItem.productId item)
                    (Cart.items cart))) ∧
  (removeItem now sessionId itemId w).1
    ≠ Throw (ContextRecoveryFailedError sessionId None) ∧
  (updateItem now sessionId itemId quantity w).1
    ≠ Throw (ContextRecoveryFailedError sessionId None).
Proof.
  split_and!.
  - intros ref session. rewrite recoverContext_World.
    eexists _, _, _. split; [done|]. simpl.
    unfold SalesforceCartClient.getCart. rewrite recovered_valid.
    split; [done|]. simpl. split; [apply contents_relabel|].
    intros item Hin.
    destruct (relabel_covers (SalesforceCartClient.itemCounter (sfClient w))
                _ _ Hin) as (newItem & Hnew & Hp).
    by eapply find_is_Some.
  - destruct (sessions w !! sessionId) as [session|] eqn:Hs; last first.
    { by rewrite removeItem_unknown. }
    destruct (SalesforceCartClient.getValidContext now
                (SessionCart.sfContextId session) (sfClient w))
      as [cd|e] eqn:Hv.
    { destruct (removeItem_live now _ _ itemId _ _ Hs Hv) as [Hok| ->];
        [|done].
      intros Heq. by rewrite Heq in Hok. }
    apply getValidContext_Throw in Hv as [_ Hexp].
    rewrite (removeItem_recovers _ _ _ _ _ Hs Hexp).
    destruct (find _ (SessionCart.items session)) as [old|] eqn:Hold; [|done].
    apply find_Some_elem in Hold as [Hin _].
    destruct (relabel_covers (SalesforceCartClient.itemCounter (sfClient w))
                _ _ Hin) as (newItem & Hnew & Hp).
    destruct (find_is_Some
                (λ item, CartItem.productId item = CartItem.productId old)
                _ _ Hnew Hp) as [found Hfound].
    simpl. rewrite Hfound.
    destruct (removeItem_live now sessionId _ (CartItem.id found) _ _
                (recoveredW_session now sessionId session w)
                (recoveredW_live now sessionId session w)) as [Hok| ->];
      [|done].
    intros Heq. by rewrite Heq in Hok.
  - destruct (sessions w !! sessionId) as [session|] eqn:Hs; last first.
    { by rewrite updateItem_unknown. }
    destruct (SalesforceCartClient.getValidContext now
                (SessionCart.sfContextId session) (sfClient w))
      as [cd|e] eqn:Hv.
    { destruct (updateItem_live now _ _ itemId quantity _ _ Hs Hv)
        as [Hok| ->]; [|done].
      intros Heq. by rewrite Heq in Hok. }
    apply getValidContext_Throw in Hv as [_ Hexp].
    rewrite (updateItem_recovers _ _ _ _ _ _ Hs Hexp).
    destruct (find _ (SessionCart.items session)) as [old|] eqn:Hold; [|done].
    apply find_Some_elem in Hold as [Hin _].
    destruct (relabel_covers (SalesforceCartClient.itemCounter (sfClient w))
                _ _ Hin) as (newItem & Hnew & Hp).
    destruct (find_is_Some
                (λ item, CartItem.productId item = CartItem.productId old)
                _ _ Hnew Hp) as [found Hfound].
    simpl. rewrite Hfound.
    destruct (updateItem_live now sessionId _ (CartItem.id found) quantity _ _
                (recoveredW_session now sessionId session w)
                (recoveredW_live now sessionId session w)) as [Hok| ->];
      [|done].
    intros Heq. by rewrite Heq in Hok.
Qed.

End remapping.

(** ** Every operation, on a live and on an expired context *)

Section perform_facts.
Import CartService.

Lemma perform_live now sessionId session (c : call) (w : World) cd :
  sessions w !! sessionId = Some session →
  SalesforceCartClient.getValidContext now (SessionCart.sfContextId session)
    (sfClient w) = Ok cd →
  perform now sessionId c w =
  match effect c (SalesforceCartClient.itemCounter (sfClient w))
          (SalesforceCartClient.items cd) with
  | Some l' =>
      (Ok (SalesforceCartClient.buildCart
             {| SalesforceCartClient.context :=
                  SalesforceCartClient.context cd;
                SalesforceCartClient.items := l' |}),
       servedW now sessionId session cd c l' w)
  | None =>
      (Throw (ItemNotFoundError (target c)),
       touchedW now sessionId session w)
  end.
Proof.
  intros Hs Hv. destruct c as [|input|itemId|itemId quantity]; simpl.
  - apply getCart_served; [done|].
    unfold SalesforceCartClient.getCart. rewrite Hv. by destruct cd.
  - erewrite addItem_served; [|done|by apply addItem_valid]. done.
  - pose proof (removeItem_valid now _ itemId _ _ Hv) as Hcall.
    destruct (SalesforceCartClient.findById itemId _) as [[i x]|].
    + by rewrite (removeItem_served _ _ _ _ _ _ _ Hs Hcall).
    + by rewrite (removeItem_missing _ _ _ _ _ Hs Hcall).
  - pose proof (updateItem_valid now _ itemId quantity _ _ Hv) as Hcall.
    destruct (SalesforceCartClient.findById itemId _) as [[i x]|].
    + by rewrite (updateItem_served _ _ _ _ _ _ _ _ Hs Hcall).
    + by rewrite (updateItem_missing _ _ _ _ _ _ Hs Hcall).
Qed.

Lemma perform_recovers now sessionId session (c : call) (w : World) :
  sessions w !! sessionId = Some session →
  expired now (SessionCart.sfContextId session) (sfClient w) →
  perform now sessionId c w =
  match remap sessionId session
          (SalesforceCartClient.items
             (recoveredData now session (sfClient w))) c with
  | inl e => (Throw e, recoveredW now sessionId session w)
  | inr c' => perform now sessionId c' (recoveredW now sessionId session w)
  end.
Proof.
  intros Hs Hexp. destruct c as [|input|itemId|itemId quantity]; simpl.
  - by apply getCart_recovers.
  - by apply addItem_recovers.
  - rewrite (removeItem_recovers _ _ _ _ _ Hs Hexp).
    destruct (find _ (SessionCart.items session)) as [old|]; [|done].
    unfold recoveredData; simpl. by destruct (find _ (relabel _ _)).
  - rewrite (updateItem_recovers _ _ _ _ _ _ Hs Hexp).
    destruct (find _ (SessionCart.items session)) as [old|]; [|done].
    unfold recoveredData; simpl. by destruct (find _ (relabel _ _)).
Qed.

Lemma perform_unknown now sessionId (c : call) (w : World) :
  sessions w !! sessionId = None →
  perform now sessionId c w = (Throw (CartNotFoundError sessionId), w).
Proof.
  intros Hs. destruct c; simpl;
    auto using getCart_unknown, addItem_unknown, removeItem_unknown,
      updateItem_unknown.
Qed.

(** A context is valid or expired. *)
Lemma live_or_expired now contextId (c : SalesforceCartClient.t) :
  (∃ cd, SalesforceCartClient.getValidContext now contextId c = Ok cd) ∨
  expired now contextId c.
Proof.
  destruct (SalesforceCartClient.getValidContext now contextId c)
    as [cd|e] eqn:Hv; [by eauto|].
  right. by apply getValidContext_Throw in Hv as [_ ?].
Qed.

End perform_facts.

(** ** Totals *)

Section totals.
Import CartService.

Lemma mirrors_of sessionId (w : World) session cd :
  sessions w !! sessionId = Some session →
  SalesforceCartClient.contexts (sfClient w)
    !! SessionCart.sfContextId session = Some cd →
  contents (SessionCart.items session)
  = contents (SalesforceCartClient.items cd) →
  mirrors sessionId w.
Proof.
  intros Hs Hc Heq session' cd' Hs' Hc'.
  rewrite Hs in Hs'. injection Hs' as <-.
  rewrite Hc in Hc'. by injection Hc' as <-.
Qed.

Lemma touchedW_mirrors now sessionId session (w : World) :
  sessions w !! sessionId = Some session →
  mirrors sessionId w → mirrors sessionId (touchedW now sessionId session w).
Proof.
  intros Hs Hm session' cd'. unfold touchedW; simpl.
  rewrite lookup_insert_eq. intros [= <-]; simpl. by apply Hm.
Qed.

Lemma recoveredW_mirrors now sessionId session (w : World) :
  mirrors sessionId (recoveredW now sessionId session w).
Proof.
  eapply mirrors_of.
  - apply recoveredW_session.
  - apply lookup_insert_eq.
  - simpl. by rewrite contents_relabel.
Qed.

(** What a call served from a live context leaves behind. *)
Lemma servedW_facts now sessionId session cd (c : call) l' (w : World) :
  sessions w !! sessionId = Some session →
  SalesforceCartClient.getValidContext now (SessionCart.sfContextId session)
    (sfClient w) = Ok cd →
  mirrors sessionId w →
  effect c (SalesforceCartClient.itemCounter (sfClient w))
    (SalesforceCartClient.items cd) = Some l' →
  mirrors sessionId (servedW now sessionId session cd c l' w) ∧
  contextItems sessionId (servedW now sessionId session cd c l' w)
    = Some l' ∧
  ∃ held, sessionItems sessionId (servedW now sessionId session cd c l' w)
          = Some held ∧ sumTotal held = sumTotal l'.
Proof.
  intros Hs Hv Hm Heff.
  apply getValidContext_Ok in Hv as [Hcd _].
  assert (∀ sess' (m : gmap string SalesforceCartClient.ContextData) n u,
    SessionCart.sfContextId sess' = SessionCart.sfContextId session →
    SessionCart.items sess' = l' →
    let w' := {| sessions := <[sessionId := sess']> (sessions w);
                 uuids := uuids w;
                 sfClient :=
                   {| SalesforceCartClient.contexts :=
                        <[SessionCart.sfContextId session :=
                            {| SalesforceCartClient.context :=
                                 SalesforceCartClient.context cd;
                               SalesforceCartClient.items := l' |}]> m;
                      SalesforceCartClient.itemCounter := n;
                      SalesforceCartClient.uuids := u |} |} in
    mirrors sessionId w' ∧ contextItems sessionId w' = Some l' ∧
    ∃ held, sessionItems sessionId w' = Some held
            ∧ sumTotal held = sumTotal l') as Hsync.
  { intros sess' m n u Hid Hits w'. split_and!.
    - eapply mirrors_of; [apply lookup_insert_eq| |].
      + simpl. rewrite Hid. apply lookup_insert_eq.
      + simpl. by rewrite Hits.
    - unfold contextItems, w'; simpl. rewrite lookup_insert_eq; simpl.
      rewrite Hid. by rewrite lookup_insert_eq.
    - exists l'. unfold sessionItems, w'; simpl.
      rewrite lookup_insert_eq; simpl. by rewrite Hits. }
  destruct c as [|input|itemId|itemId quantity]; simpl in *;
    try (apply Hsync; done).
  injection Heff as <-. split_and!.
  - by apply touchedW_mirrors.
  - unfold contextItems, touchedW; simpl. rewrite lookup_insert_eq; simpl.
    by rewrite Hcd.
  - exists (SessionCart.items session). split.
    + unfold sessionItems, touchedW; simpl. by rewrite lookup_insert_eq.
    + apply sumTotal_contents. by apply Hm.
Qed.

(** Every successful mutating call of the provider returns the list its
    context now holds, with the total of that list. *)
Lemma provider_returns_cart now contextId (p p' : SalesforceCartClient.t)
    cart :
  (∃ input, SalesforceCartClient.addItem now contextId input p
            = (Ok cart, p')) ∨
  (∃ itemId, SalesforceCartClient.removeItem now contextId itemId p
             = (Ok cart, p')) ∨
  (∃ itemId quantity,
     SalesforceCartClient.updateItem now contextId itemId quantity p
     = (Ok cart, p')) →
  SalesforceCartClient.items <$> SalesforceCartClient.contexts p'
                                 !! contextId
    = Some (Cart.items cart) ∧
  Cart.total cart = sumTotal (Cart.items cart).
Proof.
  { intros Hcall.
    assert (∃ cd', cart = SalesforceCartClient.buildCart cd' ∧
              SalesforceCartClient.contexts p' !! contextId = Some cd')
      as (cd' & -> & Hcd').
    { destruct Hcall as [[input H]|[[itemId H]|(itemId & quantity & H)]];
        revert H;
        unfold SalesforceCartClient.addItem, SalesforceCartClient.removeItem,
          SalesforceCartClient.updateItem;
        destruct (SalesforceCartClient.getValidContext now contextId p)
          as [cd|e]; try done;
        try (destruct (SalesforceCartClient.findById _ _) as [[i x]|];
             try done);
        intros [= <- <-]; eexists; (split; [done|]); simpl;
        apply lookup_insert_eq. }
    rewrite Hcd'. split; [done|]. apply buildCart_total. }
Qed.

(** For a session that mirrors its context, the cart a successful
    operation returns is the one of the current context, and its total
    is the sum over the returned items and over the session's own. *)
Lemma total_of_mirror now sessionId (c : call) (w : World) :
  mirrors sessionId w →
  mirrors sessionId (perform now sessionId c w).2 ∧
  ∀ cart, (perform now sessionId c w).1 = Ok cart →
    Cart.total cart = sumTotal (Cart.items cart) ∧
    contextItems sessionId (perform now sessionId c w).2
      = Some (Cart.items cart) ∧
    ∃ held, sessionItems sessionId (perform now sessionId c w).2 = Some held
            ∧ Cart.total cart = sumTotal held.
Proof.
  intros Hm.
  destruct (sessions w !! sessionId) as [session|] eqn:Hs; last first.
  { rewrite (perform_unknown _ _ _ _ Hs). by split. }
  assert (∀ session0 (w0 : World) cd0 c0,
    sessions w0 !! sessionId = Some session0 →
    SalesforceCartClient.getValidContext now
      (SessionCart.sfContextId session0) (sfClient w0) = Ok cd0 →
    mirrors sessionId w0 →
    mirrors sessionId (perform now sessionId c0 w0).2 ∧
    ∀ cart, (perform now sessionId c0 w0).1 = Ok cart →
      Cart.total cart = sumTotal (Cart.items cart) ∧
      contextItems sessionId (perform now sessionId c0 w0).2
        = Some (Cart.items cart) ∧
      ∃ held, sessionItems sessionId (perform now sessionId c0 w0).2
              = Some held ∧ Cart.total cart = sumTotal held) as Hlive.
  { intros session0 w0 cd0 c0 Hs0 Hv0 Hm0.
    rewrite (perform_live _ _ _ c0 _ _ Hs0 Hv0).
    destruct (effect c0 _ _) as [l'|] eqn:Heff; simpl.
    - destruct (servedW_facts _ _ _ _ _ _ _ Hs0 Hv0 Hm0 Heff)
        as (Hm' & Hctx & held & Hheld & Hsum).
      split; [done|]. intros cart [= <-]. rewrite buildCart_total; simpl.
      split_and!; [done..|]. by exists held.
    - split; [by apply touchedW_mirrors|done]. }
  destruct (live_or_expired now (SessionCart.sfContextId session) (sfClient w))
    as [[cd Hv]|Hexp]; [by eapply Hlive|].
  rewrite (perform_recovers _ _ _ c _ Hs Hexp).
  destruct (remap _ _ _ c) as [e|c'].
  - simpl. split; [apply recoveredW_mirrors|done].
  - eapply Hlive;
      [apply recoveredW_session|apply recoveredW_live|apply recoveredW_mirrors].
Qed.

End totals.

(** ** Cart identifiers *)

Section cart_ids.
Import CartService.

Lemma createCart_World now (w : World) :
  createCart now w =
  (Ok ("sess_" +:+ randomUUID (uuids w),
       {| Cart.id := "cart_" +:+ ("sess_" +:+ randomUUID (uuids w));
          Cart.items := []; Cart.total := 0 |}),
   {| sessions :=
        <["sess_" +:+ randomUUID (uuids w) :=
            {| SessionCart.sessionId := "sess_" +:+ randomUUID (uuids w);
               SessionCart.sfContextId := recoveredId (sfClient w);
               SessionCart.items := [];
               SessionCart.createdAt := now;
               SessionCart.lastAccessed := now |}]> (sessions w);
      uuids := S (uuids w);
      sfClient := (SalesforceCartClient.createContext now (sfClient w)).2 |}).
Proof. done. Qed.

Lemma servedW_keyed now sessionId session cd (c : call) l' (w : World) :
  keyed (sfClient w) →
  CartContext.id (SalesforceCartClient.context cd)
  = SessionCart.sfContextId session →
  keyed (sfClient (servedW now sessionId session cd c l' w)).
Proof.
  intros Hk Hid. destruct c; simpl; [done|..];
    by apply map_Forall_insert_2.
Qed.

Lemma recovered_keyed now session (c : SalesforceCartClient.t) :
  keyed c → keyed (recovered now session c).
Proof. intros Hk. by apply map_Forall_insert_2. Qed.

Lemma servedW_session now sessionId session cd (c : call) l' (w : World) :
  ∃ session',
    sessions (servedW now sessionId session cd c l' w) !! sessionId
    = Some session' ∧
    SessionCart.sfContextId session' = SessionCart.sfContextId session.
Proof.
  destruct c; simpl; rewrite lookup_insert_eq; by eexists.
Qed.

Lemma servedW_uuids now sessionId session cd (c : call) l' (w : World) :
  SalesforceCartClient.uuids
    (sfClient (servedW now sessionId session cd c l' w))
  = SalesforceCartClient.uuids (sfClient w).
Proof. by destruct c. Qed.

(** The cart served from a live context carries that context's id. *)
Lemma live_cart_id now sessionId session cd (c : call) (w : World) cart w' :
  sessions w !! sessionId = Some session →
  SalesforceCartClient.getValidContext now (SessionCart.sfContextId session)
    (sfClient w) = Ok cd →
  keyed (sfClient w) →
  perform now sessionId c w = (Ok cart, w') →
  Cart.id cart = "cart_" +:+ SessionCart.sfContextId session ∧
  keyed (sfClient w') ∧
  SalesforceCartClient.uuids (sfClient w')
  = SalesforceCartClient.uuids (sfClient w) ∧
  ∃ session', sessions w' !! sessionId = Some session' ∧
              SessionCart.sfContextId session'
              = SessionCart.sfContextId session.
Proof.
  intros Hs Hv Hk. rewrite (perform_live _ _ _ c _ _ Hs Hv).
  assert (CartContext.id (SalesforceCartClient.context cd)
          = SessionCart.sfContextId session) as Hid.
  { apply getValidContext_Ok in Hv as [Hcd _]. by apply Hk in Hcd. }
  destruct (effect c _ _) as [l'|]; [|done].
  intros [= <- <-]. simpl. rewrite Hid. split_and!.
  - done.
  - by apply servedW_keyed.
  - apply servedW_uuids.
  - apply servedW_session.
Qed.

Lemma cart_id_of_drawn now sessionId session (c : call)
    (w : World) cart w' :
  sessions w !! sessionId = Some session →
  keyed (sfClient w) →
  drawn (SessionCart.sfContextId session)
    (SalesforceCartClient.uuids (sfClient w)) →
  perform now sessionId c w = (Ok cart, w') →
  (∃ session',
     sessions w' !! sessionId = Some session' ∧
     Cart.id cart = "cart_" +:+ SessionCart.sfContextId session' ∧
     keyed (sfClient w') ∧
     drawn (SessionCart.sfContextId session')
       (SalesforceCartClient.uuids (sfClient w'))) ∧
  (∀ uuid, Cart.id cart ≠ "cart_" +:+ ("sess_" +:+ uuid)) ∧
  (expired now (SessionCart.sfContextId session) (sfClient w) →
   Cart.id cart ≠ "cart_" +:+ SessionCart.sfContextId session).
Proof.
  intros Hs Hk Hdrawn Hop.
  assert (∃ session',
            sessions w' !! sessionId = Some session' ∧
            Cart.id cart = "cart_" +:+ SessionCart.sfContextId session' ∧
            keyed (sfClient w') ∧
            drawn (SessionCart.sfContextId session')
              (SalesforceCartClient.uuids (sfClient w')) ∧
            (expired now (SessionCart.sfContextId session) (sfClient w) →
             SessionCart.sfContextId session'
             ≠ SessionCart.sfContextId session))
    as (session' & Hs' & Hid & Hk' & Hdrawn' & Hnew).
  { destruct (live_or_expired now (SessionCart.sfContextId session)
                (sfClient w)) as [[cd Hv]|Hexp].
    - destruct (live_cart_id _ _ _ _ _ _ _ _ Hs Hv Hk Hop)
        as (Hid & Hk' & Hu & session' & Hs' & Hctx).
      exists session'. rewrite Hctx. split_and!; try done.
      + destruct Hdrawn as (k & -> & Hlt). exists k. by rewrite Hu.
      + intros Hexp. apply getValidContext_Ok in Hv as [Hcd Hle].
        apply Hexp in Hcd. lia.
    - rewrite (perform_recovers _ _ _ c _ Hs Hexp) in Hop.
      destruct (remap _ _ _ c) as [e|c']; [done|].
      destruct (live_cart_id _ _ _ _ _ _ _ _
                  (recoveredW_session now sessionId session w)
                  (recoveredW_live now sessionId session w)
                  (recovered_keyed now session _ Hk) Hop)
        as (Hid & Hk' & Hu & session' & Hs' & Hctx).
      exists session'. rewrite Hctx. split_and!; try done.
      + exists (SalesforceCartClient.uuids (sfClient w)).
        split; [done|]. rewrite Hu. simpl. lia.
      + intros _. destruct Hdrawn as (k & -> & Hlt). simpl.
        unfold recoveredId. intros [= Heq]. simpl in Heq.
        unfold randomUUID in Heq. apply pretty_nat_inj in Heq. lia. }
  split; [by exists session'|]. split.
  - intros uuid. rewrite Hid. destruct Hdrawn' as (k & -> & _).
    simpl. by intros [=].
  - intros Hexp. rewrite Hid. simpl. intros [= Heq]. by apply Hnew.
Qed.

End cart_ids.

(** ** Runs: the coordinator refines the cart of inputs *)

Section lists.

Lemma list_find_NoDup {A B} `{EqDecision B} (f : A → B) (l : list A)
    (k : nat) (x : A) :
  NoDup (f <$> l) → l !! k = Some x →
  list_find (λ y, f y = f x) l = Some (k, x).
Proof.
  intros Hnd Hk. apply list_find_Some. split_and!; [done..|].
  intros j y Hj Hlt Heq.
  assert (j = k); [|lia].
  eapply (NoDup_lookup _ _ _ (f x) Hnd).
  - by rewrite list_lookup_fmap, Hj; simpl; rewrite Heq.
  - by rewrite list_lookup_fmap, Hk.
Qed.

Lemma productIds_contents (l : list CartItem.t) :
  CartItem.productId <$> l = CartItemInput.productId <$> contents l.
Proof. unfold contents. by rewrite <-list_fmap_compose. Qed.

Lemma view_contents (l1 l2 : list CartItem.t) :
  contents l1 = contents l2 →
  map (λ item, (CartItem.productId item, CartItem.quantity item)) l1
  = map (λ item, (CartItem.productId item, CartItem.quantity item)) l2.
Proof.
  intros Heq.
  assert (∀ l : list CartItem.t,
    map (λ item, (CartItem.productId item, CartItem.quantity item)) l
    = (λ input, (CartItemInput.productId input, CartItemInput.quantity input))
      <$> contents l) as Hview.
  { intros l. unfold contents. by rewrite <-list_fmap_compose. }
  by rewrite !Hview, Heq.
Qed.

Lemma toInput_mint n input : CartService.toInput (mint n input) = input.
Proof. by destruct input. Qed.

Lemma relabel_lookup n (inputs : list CartItemInput.t) (i : nat) :
  relabel n inputs !! i = mint (n + i) <$> inputs !! i.
Proof.
  revert n i. induction inputs as [|input rest IH]; intros n [|i]; simpl;
    try done.
  - by rewrite Nat.add_0_r.
  - rewrite IH. by replace (S n + i) with (n + S i) by lia.
Qed.

Lemma relabel_ids_NoDup n (inputs : list CartItemInput.t) :
  NoDup (CartItem.id <$> relabel n inputs).
Proof.
  apply NoDup_alt. intros i j x.
  rewrite !list_lookup_fmap, !relabel_lookup.
  destruct (inputs !! i) as [a|]; [|done].
  destruct (inputs !! j) as [b|]; [|done]. simpl.
  intros [= <-] [= Heq]. apply pretty_nat_inj in Heq. lia.
Qed.

Lemma relabel_minted n (inputs : list CartItemInput.t) :
  Forall (mintedBy (n + length inputs)) (relabel n inputs).
Proof.
  apply Forall_lookup. intros i item. rewrite relabel_lookup.
  destruct (inputs !! i) as [a|] eqn:Hi; [|done]. intros [= <-].
  apply lookup_lt_Some in Hi. exists (S (n + i)). split; [done|lia].
Qed.

Lemma mintedBy_mono n m (item : CartItem.t) :
  n ≤ m → mintedBy n item → mintedBy m item.
Proof. intros Hle (k & Hid & Hk). exists k. split; [done|lia]. Qed.

Lemma minted_not_empty n (l : list CartItem.t) :
  Forall (mintedBy n) l → SalesforceCartClient.findById "" l = None.
Proof.
  intros Hall. apply list_find_None.
  eapply Forall_impl; [exact Hall|].
  intros item (k & Hid & _). by rewrite Hid.
Qed.

Lemma mint_fresh n input (l : list CartItem.t) :
  Forall (mintedBy n) l →
  CartItem.id (mint n input) ∉ CartItem.id <$> l.
Proof.
  intros Hall Hin. apply list_elem_of_fmap in Hin as (item & Heq & Hitem).
  rewrite Forall_forall in Hall. destruct (Hall _ Hitem) as (k & Hid & Hk).
  rewrite Hid in Heq. simpl in Heq. injection Heq as Heq.
  apply pretty_nat_inj in Heq. lia.
Qed.

Lemma view_inputs (cart : Cart.t) :
  Cart.total cart = sumTotal (Cart.items cart) →
  view (Ok cart) = Some (inputsView (contents (Cart.items cart))).
Proof.
  intros Ht. unfold view, inputsView. rewrite Ht. clear Ht. f_equal. f_equal.
  - unfold contents. by rewrite map_map.
  - unfold sumTotal. generalize 0%float.
    induction (Cart.items cart) as [|item rest IH]; intros acc; simpl;
      [done|]. apply IH.
Qed.

Lemma relabel_fresh n (inputs : list CartItemInput.t) (l : list CartItem.t) :
  Forall (mintedBy n) l →
  Forall (λ item, CartItem.id item ∉ CartItem.id <$> l) (relabel n inputs).
Proof.
  intros Hall. apply Forall_lookup. intros i item. rewrite relabel_lookup.
  destruct (inputs !! i) as [input|]; [|done]. intros [= <-].
  apply mint_fresh. eapply Forall_impl; [exact Hall|]. intros x.
  apply mintedBy_mono. lia.
Qed.

End lists.

Section tracking.
Import CartService.

Lemma meetsExpiry_false now sessionId session (w : World) :
  sessions w !! sessionId = Some session →
  meetsExpiry now sessionId w = false →
  ∃ cd, SalesforceCartClient.getValidContext now
          (SessionCart.sfContextId session) (sfClient w) = Ok cd.
Proof.
  intros Hs. unfold meetsExpiry. rewrite Hs.
  destruct (SalesforceCartClient.getValidContext _ _ _) as [cd|e];
    [by eexists|done].
Qed.

Lemma meetsExpiry_true now sessionId session (w : World) :
  sessions w !! sessionId = Some session →
  meetsExpiry now sessionId w = true →
  expired now (SessionCart.sfContextId session) (sfClient w).
Proof.
  intros Hs. unfold meetsExpiry. rewrite Hs.
  destruct (live_or_expired now (SessionCart.sfContextId session) (sfClient w))
    as [[cd Hv]|Hexp]; [by rewrite Hv|done].
Qed.

Lemma servedW_tracked now sessionId session cd (c : call) l (w : World) :
  c ≠ GetCart →
  NoDup (CartItem.id <$> l) →
  Forall (mintedBy (SalesforceCartClient.itemCounter
                      (sfClient (servedW now sessionId session cd c l w)))) l →
  tracked sessionId (servedW now sessionId session cd c l w) l.
Proof.
  intros Hc Hnd Hmint.
  exists (SessionCart.with_items l (SessionCart.with_lastAccessed now session)),
    {| SalesforceCartClient.context := SalesforceCartClient.context cd;
       SalesforceCartClient.items := l |}.
  destruct c; [done|..]; simpl in *;
    (split_and!; [apply lookup_insert_eq|apply lookup_insert_eq|done|done
                  |by left|done..]).
Qed.

Lemma recoveredW_tracked now sessionId session (w : World) :
  Forall (mintedBy (SalesforceCartClient.itemCounter (sfClient w)))
    (SessionCart.items session) →
  tracked sessionId (recoveredW now sessionId session w)
    (relabel (SalesforceCartClient.itemCounter (sfClient w))
       (contents (SessionCart.items session))).
Proof.
  intros Hmint. eexists _, _. split_and!.
  - apply recoveredW_session.
  - simpl. apply lookup_insert_eq.
  - done.
  - simpl. by rewrite contents_relabel.
  - right. simpl. by apply relabel_fresh.
  - apply relabel_ids_NoDup.
  - simpl. unfold contents at 1. rewrite <-(length_fmap toInput).
    apply relabel_minted.
  - simpl. eapply Forall_impl; [exact Hmint|]. intros item.
    apply mintedBy_mono. lia.
Qed.

Lemma recoveredW_meetsExpiry now sessionId session (w : World) :
  meetsExpiry now sessionId (recoveredW now sessionId session w) = false.
Proof.
  unfold meetsExpiry. rewrite recoveredW_session.
  by rewrite recoveredW_live.
Qed.

Lemma idAt_lookup position (seen : list CartItem.t) item :
  seen !! position = Some item → idAt position seen = CartItem.id item.
Proof. intros Hl. unfold idAt. by rewrite Hl. Qed.

Lemma contents_lookup position (seen : list CartItem.t) input :
  contents seen !! position = Some input →
  ∃ item, seen !! position = Some item ∧ toInput item = input.
Proof.
  unfold contents. rewrite list_lookup_fmap.
  destruct (seen !! position) as [item|]; [|done].
  intros [= <-]. by exists item.
Qed.

(** A request served from a valid context does to the contents of the
    cart what [specStep] says. *)
Lemma tracked_served now sessionId (w : World) seen (r : request) l' :
  tracked sessionId w seen →
  meetsExpiry now sessionId w = false →
  specStep r (contents seen) = Some l' →
  ∃ cart w',
    perform now sessionId (toCall seen r) w = (Ok cart, w') ∧
    contents (Cart.items cart) = l' ∧
    Cart.total cart = sumTotal (Cart.items cart) ∧
    tracked sessionId w' (Cart.items cart).
Proof.
  intros (session & cd & Hs & Hcd & <- & Hcont & Hids & Hnd & Hmint & Hmint')
    Hlive Hspec.
  destruct (meetsExpiry_false _ _ _ _ Hs Hlive) as [cd' Hv].
  assert (cd' = cd) as ->.
  { apply getValidContext_Ok in Hv as [Hcd' _]. congruence. }
  rewrite (perform_live _ _ _ _ _ _ Hs Hv).
  assert (∀ c l,
    c ≠ GetCart →
    effect c (SalesforceCartClient.itemCounter (sfClient w))
      (SalesforceCartClient.items cd) = Some l →
    contents l = l' → NoDup (CartItem.id <$> l) →
    Forall (mintedBy (SalesforceCartClient.itemCounter
                        (sfClient (servedW now sessionId session cd c l w))))
      l →
    ∃ cart w',
      match effect c (SalesforceCartClient.itemCounter (sfClient w))
              (SalesforceCartClient.items cd) with
      | Some l0 =>
          (Ok (SalesforceCartClient.buildCart
                 {| SalesforceCartClient.context :=
                      SalesforceCartClient.context cd;
                    SalesforceCartClient.items := l0 |}),
           servedW now sessionId session cd c l0 w)
      | None => (Throw (ItemNotFoundError (target c)),
                 touchedW now sessionId session w)
      end = (Ok cart, w') ∧
      contents (Cart.items cart) = l' ∧
      Cart.total cart = sumTotal (Cart.items cart) ∧
      tracked sessionId w' (Cart.items cart)) as Hmut.
  { intros c l Hc -> Hl Hndl Hml. eexists _, _. split; [done|].
    rewrite buildCart_total. simpl. split_and!; [done..|].
    by apply servedW_tracked. }
  destruct r as [|input|position|position quantity]; simpl in Hspec.
  - injection Hspec as <-. eexists _, _. split; [done|].
    rewrite buildCart_total. simpl. split_and!; [done..|].
    exists (SessionCart.with_lastAccessed now session), cd.
    unfold touchedW; simpl. split_and!; try done.
    apply lookup_insert_eq.
  - injection Hspec as <-. eapply (Hmut (AddItem input)); [done|done|..].
    + unfold contents. rewrite fmap_app. simpl. by rewrite toInput_mint.
    + rewrite fmap_app. apply NoDup_app. split_and!; [done| |].
      * intros x Hx Hin. apply list_elem_of_singleton in Hin as ->.
        exact (mint_fresh _ _ _ Hmint Hx).
      * apply NoDup_singleton.
    + simpl. apply Forall_app. split.
      * eapply Forall_impl; [exact Hmint|]. intros item.
        apply mintedBy_mono. lia.
      * apply Forall_singleton. eexists. split; [done|lia].
  - destruct (contents _ !! position) as [input|] eqn:Hin; [|done].
    injection Hspec as <-.
    apply contents_lookup in Hin as (item & Hitem & _).
    unfold toCall. rewrite (idAt_lookup _ _ _ Hitem).
    pose proof (list_find_NoDup CartItem.id _ _ _ Hnd Hitem) as Hfind.
    eapply (Hmut (RemoveItem (CartItem.id item))); [done|..].
    + simpl. unfold SalesforceCartClient.findById. by rewrite Hfind.
    + unfold contents. by rewrite list_fmap_delete.
    + rewrite list_fmap_delete.
      by eapply sublist_NoDup; [|apply sublist_delete].
    + simpl. by apply Forall_delete.
  - destruct (contents _ !! position) as [input|] eqn:Hin; [|done].
    injection Hspec as <-.
    apply contents_lookup in Hin as (item & Hitem & <-).
    unfold toCall. rewrite (idAt_lookup _ _ _ Hitem).
    pose proof (list_find_NoDup CartItem.id _ _ _ Hnd Hitem) as Hfind.
    eapply (Hmut (UpdateItem (CartItem.id item) quantity)); [done|..].
    + simpl. unfold SalesforceCartClient.findById. by rewrite Hfind.
    + unfold contents. by rewrite list_fmap_insert.
    + rewrite list_fmap_insert. simpl. rewrite list_insert_id; [done|].
      by rewrite list_lookup_fmap, Hitem.
    + simpl. apply Forall_insert; [done|].
      rewrite Forall_lookup in Hmint. by apply (Hmint _ _ Hitem).
Qed.

(** A request that names a position outside the cart is answered from a
    valid context by an error, and leaves the cart as it was. *)
Lemma tracked_missed now sessionId (w : World) seen (r : request) :
  tracked sessionId w seen →
  meetsExpiry now sessionId w = false →
  specStep r (contents seen) = None →
  ∃ e w',
    perform now sessionId (toCall seen r) w = (Throw e, w') ∧
    tracked sessionId w' seen.
Proof.
  intros (session & cd & Hs & Hcd & <- & Hcont & Hids & Hnd & Hmint & Hmint')
    Hlive Hspec.
  destruct (meetsExpiry_false _ _ _ _ Hs Hlive) as [cd' Hv].
  assert (cd' = cd) as ->.
  { apply getValidContext_Ok in Hv as [Hcd' _]. congruence. }
  rewrite (perform_live _ _ _ _ _ _ Hs Hv).
  assert (tracked sessionId (touchedW now sessionId session w)
            (SalesforceCartClient.items cd)) as Htouched.
  { exists (SessionCart.with_lastAccessed now session), cd.
    unfold touchedW; simpl. split_and!; try done. apply lookup_insert_eq. }
  destruct r as [|input|position|position quantity]; simpl in Hspec;
    [done..| |];
    unfold contents in Hspec; rewrite list_lookup_fmap in Hspec;
    destruct (SalesforceCartClient.items cd !! position) as [item|] eqn:Hitem;
    try done; unfold toCall, idAt; rewrite Hitem; simpl;
    rewrite (minted_not_empty _ _ Hmint); by eexists _, _.
Qed.

Lemma firstOfProduct_find position (seen : list CartItem.t) :
  firstOfProduct position seen = true →
  ∃ item, seen !! position = Some item ∧
    ∀ j other, seen !! j = Some other → j < position →
               CartItem.productId other ≠ CartItem.productId item.
Proof.
  unfold firstOfProduct.
  destruct (seen !! position) as [item|] eqn:Hitem; [|done].
  intros Hfirst. apply bool_decide_eq_true in Hfirst. exists item.
  split; [done|].
  destruct (list_find _ seen) as [[i x]|] eqn:Hfind; [|done].
  simpl in Hfirst. injection Hfirst as ->.
  apply list_find_Some in Hfind as (_ & _ & Hbefore). exact Hbefore.
Qed.

(** After a recovery the caller's position names the same position of
    the recovered cart, provided the session knows the caller's ids and
    the item is the first of its product. *)
Lemma remap_position sessionId session seen (r : request) n :
  NoDup (CartItem.id <$> seen) →
  match r with
  | RemoveAt position | UpdateAt position _ =>
      SessionCart.items session = seen ∧ firstOfProduct position seen = true
  | _ => True
  end →
  remap sessionId session (relabel n (contents (SessionCart.items session)))
    (toCall seen r)
  = inr (toCall (relabel n (contents (SessionCart.items session))) r).
Proof.
  intros Hids Hknown.
  assert (∀ position,
    SessionCart.items session = seen →
    firstOfProduct position seen = true →
    ∃ old,
      find (λ item, CartItem.id item = idAt position seen)
        (SessionCart.items session) = Some old ∧
      ∃ newItem,
        find (λ item, CartItem.productId item = CartItem.productId old)
          (relabel n (contents (SessionCart.items session))) = Some newItem ∧
        CartItem.id newItem
        = idAt position (relabel n (contents (SessionCart.items session))))
    as Htranslate.
  { intros position Heq Hfirst. rewrite Heq.
    apply firstOfProduct_find in Hfirst as (item & Hitem & Hbefore).
    exists item. split.
    { unfold find. rewrite (idAt_lookup _ _ _ Hitem).
      by rewrite (list_find_NoDup CartItem.id _ _ _ Hids Hitem). }
    assert (relabel n (contents seen) !! position
            = Some (mint (n + position) (CartService.toInput item))) as Hnew.
    { rewrite relabel_lookup. unfold contents.
      by rewrite list_lookup_fmap, Hitem. }
    exists (mint (n + position) (CartService.toInput item)). split.
    - unfold find.
      assert (list_find
                (λ other, CartItem.productId other = CartItem.productId item)
                (relabel n (contents seen))
              = Some (position, mint (n + position) (CartService.toInput item)))
        as ->; [|done].
      apply list_find_Some. split_and!; [done|done|].
      intros j y Hj Hlt. rewrite relabel_lookup in Hj.
      unfold contents in Hj. rewrite list_lookup_fmap in Hj.
      destruct (seen !! j) as [other|] eqn:Hother;
        [|done].
      injection Hj as <-. simpl. by apply (Hbefore j other).
    - by rewrite (idAt_lookup _ _ _ Hnew). }
  destruct r as [|input|position|position quantity]; simpl in *;
    [done..| |];
    destruct Hknown as [Hitems Hfirst];
    destruct (Htranslate _ Hitems Hfirst) as (old & -> & newItem & -> & ->);
    done.
Qed.

(** A request that meets an expired context is served after the
    recovery as [specStep] says, when it names an item the session knows
    and that is the first of its product. *)
Lemma tracked_recovered now sessionId (w : World) seen (r : request) :
  tracked sessionId w seen →
  meetsExpiry now sessionId w = true →
  match r with
  | RemoveAt position | UpdateAt position _ =>
      knownTo sessionId (idAt position seen) w = true ∧
      firstOfProduct position seen = true
  | _ => True
  end →
  ∃ l' cart w',
    specStep r (contents seen) = Some l' ∧
    perform now sessionId (toCall seen r) w = (Ok cart, w') ∧
    contents (Cart.items cart) = l' ∧
    Cart.total cart = sumTotal (Cart.items cart) ∧
    tracked sessionId w' (Cart.items cart).
Proof.
  intros (session & cd & Hs & Hcd & <- & Hcont & Hids & Hnd & Hmint & Hmint')
    Hmeets Hfaithful.
  pose proof (meetsExpiry_true _ _ _ _ Hs Hmeets) as Hexp.
  assert (∃ l', specStep r (contents (SalesforceCartClient.items cd)) = Some l')
    as [l' Hspec].
  { destruct r as [|input|position|position quantity]; simpl; [by eexists..| |];
      destruct Hfaithful as [_ Hfirst];
      apply firstOfProduct_find in Hfirst as (item & Hitem & _);
      unfold contents; rewrite list_lookup_fmap, Hitem; by eexists. }
  assert (match r with
          | RemoveAt position | UpdateAt position _ =>
              SessionCart.items session = SalesforceCartClient.items cd ∧
              firstOfProduct position (SalesforceCartClient.items cd) = true
          | _ => True
          end) as Hknown.
  { destruct r as [|input|position|position quantity]; try done;
      destruct Hfaithful as [Hk Hfirst]; (split; [|done]);
      (destruct Hids as [Heq|Hfresh]; [done|]);
      apply firstOfProduct_find in Hfirst as (item & Hitem & _);
      unfold knownTo, sessionItems in Hk; rewrite Hs in Hk; simpl in Hk;
      apply bool_decide_eq_true in Hk;
      rewrite (idAt_lookup _ _ _ Hitem) in Hk;
      rewrite Forall_lookup in Hfresh; by destruct (Hfresh _ _ Hitem). }
  exists l'. rewrite (perform_recovers _ _ _ _ _ Hs Hexp).
  unfold recoveredData; simpl.
  rewrite (remap_position _ _ _ _ _ Hnd Hknown).
  pose proof (recoveredW_tracked now sessionId session w Hmint') as Hrec.
  destruct (tracked_served now _ _ _ r l' Hrec
              (recoveredW_meetsExpiry now sessionId session w))
    as (cart & w' & Hop & Hl' & Htotal & Htracked').
  { by rewrite contents_relabel, Hcont. }
  rewrite Hop. by exists cart, w'.
Qed.

End tracking.

(** ** The invariant of reachable worlds *)

Section reachability.
Import CartService.

(** Rebinding or rewriting one session together with its context keeps
    the world consistent, as long as no other session uses that
    context. *)
Lemma consistent_update (w : World) sessionId session' cd' svcUuids n u :
  consistent w →
  SalesforceCartClient.uuids (sfClient w) ≤ u →
  drawn (SessionCart.sfContextId session') u →
  CartContext.id (SalesforceCartClient.context cd')
  = SessionCart.sfContextId session' →
  contents (SessionCart.items session')
  = contents (SalesforceCartClient.items cd') →
  (∀ other session,
     other ≠ sessionId → sessions w !! other = Some session →
     SessionCart.sfContextId session ≠ SessionCart.sfContextId session') →
  consistent
    {| sessions := <[sessionId := session']> (sessions w);
       uuids := svcUuids;
       sfClient :=
         {| SalesforceCartClient.contexts :=
              <[SessionCart.sfContextId session' := cd']>
                (SalesforceCartClient.contexts (sfClient w));
            SalesforceCartClient.itemCounter := n;
            SalesforceCartClient.uuids := u |} |}.
Proof.
  intros (Hkeyed & Hdrawn & Hinj & Hmirror) Hu Hnew Hid Hcont Hother.
  split_and!; simpl.
  - by apply map_Forall_insert_2.
  - intros sid session. destruct (decide (sid = sessionId)) as [->|Hne].
    + rewrite lookup_insert_eq. intros [= <-].
      destruct Hnew as (k & Hk & Hlt). by exists k.
    + rewrite lookup_insert_ne by done. intros Hs.
      destruct (Hdrawn _ _ Hs) as (k & Hk & Hlt). exists k.
      split; [done|]. simpl. lia.
  - intros sid1 sid2 s1 s2.
    destruct (decide (sid1 = sessionId)) as [->|Hne1];
      destruct (decide (sid2 = sessionId)) as [->|Hne2]; try done.
    + rewrite lookup_insert_eq, lookup_insert_ne by done.
      intros [= <-] Hs2 Heq. by destruct (Hother _ _ Hne2 Hs2).
    + rewrite lookup_insert_eq, lookup_insert_ne by done.
      intros Hs1 [= <-] Heq. by destruct (Hother _ _ Hne1 Hs1).
    + rewrite !lookup_insert_ne by done. apply Hinj.
  - intros sid session cd. simpl.
    destruct (decide (sid = sessionId)) as [->|Hne].
    + rewrite lookup_insert_eq. intros [= <-].
      rewrite lookup_insert_eq. by intros [= <-].
    + rewrite lookup_insert_ne by done. intros Hs.
      rewrite lookup_insert_ne by (by apply not_eq_sym, (Hother sid)).
      intros Hcd. by apply (Hmirror sid).
Qed.

Lemma consistent_touchedW now sessionId session (w : World) :
  sessions w !! sessionId = Some session →
  consistent w → consistent (touchedW now sessionId session w).
Proof.
  intros Hs (Hkeyed & Hdrawn & Hinj & Hmirror).
  assert (∀ sid s,
    sessions (touchedW now sessionId session w) !! sid = Some s →
    ∃ s0, sessions w !! sid = Some s0 ∧
          SessionCart.sfContextId s = SessionCart.sfContextId s0 ∧
          SessionCart.items s = SessionCart.items s0) as Hsame.
  { intros sid s. unfold touchedW; simpl.
    destruct (decide (sid = sessionId)) as [->|Hne].
    - rewrite lookup_insert_eq. intros [= <-]. by exists session.
    - rewrite lookup_insert_ne by done. intros Hs0. by exists s. }
  split_and!.
  - done.
  - intros sid s Hsid. destruct (Hsame _ _ Hsid) as (s0 & Hs0 & -> & _).
    by eapply Hdrawn.
  - intros sid1 sid2 s1 s2 H1 H2.
    destruct (Hsame _ _ H1) as (s01 & Hs01 & -> & _).
    destruct (Hsame _ _ H2) as (s02 & Hs02 & -> & _).
    by eapply Hinj.
  - intros sid s cd Hsid. destruct (Hsame _ _ Hsid) as (s0 & Hs0 & -> & ->).
    by apply (Hmirror sid).
Qed.

Lemma consistent_world0 : consistent world0.
Proof.
  split_and!.
  - apply map_Forall_empty.
  - intros sid session Hs. simpl in Hs. by rewrite lookup_empty in Hs.
  - intros sid1 sid2 s1 s2 Hs. simpl in Hs. by rewrite lookup_empty in Hs.
  - intros sid session cd Hs. simpl in Hs. by rewrite lookup_empty in Hs.
Qed.

Lemma drawn_fresh contextId (c : SalesforceCartClient.t) :
  drawn contextId (SalesforceCartClient.uuids c) → contextId ≠ recoveredId c.
Proof.
  intros (k & -> & Hlt). unfold recoveredId, randomUUID. simpl.
  intros [= Heq]. apply pretty_nat_inj in Heq. lia.
Qed.

Lemma consistent_recoveredW now sessionId session (w : World) :
  consistent w → consistent (recoveredW now sessionId session w).
Proof.
  intros Hw.
  apply (consistent_update w sessionId
           (SessionCart.with_sfContextId (recoveredId (sfClient w))
              (SessionCart.with_lastAccessed now session))
           (recoveredData now session (sfClient w))); try done.
  - simpl. lia.
  - eexists. split; [done|]. lia.
  - simpl. by rewrite contents_relabel.
  - intros other s _ Hs. simpl. apply drawn_fresh.
    destruct Hw as (_ & Hdrawn & _). by eapply Hdrawn.
Qed.

Lemma consistent_createCart now (w : World) :
  consistent w → consistent (createCart now w).2.
Proof.
  intros Hw. rewrite createCart_World. simpl.
  apply (consistent_update w _
           {| SessionCart.sessionId := "sess_" +:+ randomUUID (uuids w);
              SessionCart.sfContextId := recoveredId (sfClient w);
              SessionCart.items := [];
              SessionCart.createdAt := now;
              SessionCart.lastAccessed := now |}
           {| SalesforceCartClient.context :=
                {| CartContext.id := recoveredId (sfClient w);
                   CartContext.expiresAt :=
                     (now + SalesforceCartClient.CONTEXT_EXPIRY_MS)%Z |};
              SalesforceCartClient.items := [] |}); try done.
  - simpl. lia.
  - eexists. split; [done|]. lia.
  - intros other s _ Hs. simpl. apply drawn_fresh.
    destruct Hw as (_ & Hdrawn & _). by eapply Hdrawn.
Qed.

Lemma consistent_servedW now sessionId session cd (c : call) l' (w : World) :
  sessions w !! sessionId = Some session →
  SalesforceCartClient.contexts (sfClient w)
    !! SessionCart.sfContextId session = Some cd →
  consistent w →
  consistent (servedW now sessionId session cd c l' w).
Proof.
  intros Hs Hcd Hw.
  assert (consistent
    {| sessions :=
         <[sessionId := SessionCart.with_items l'
                          (SessionCart.with_lastAccessed now session)]>
           (sessions w);
       uuids := uuids w;
       sfClient :=
         {| SalesforceCartClient.contexts :=
              <[SessionCart.sfContextId session :=
                  {| SalesforceCartClient.context :=
                       SalesforceCartClient.context cd;
                     SalesforceCartClient.items := l' |}]>
                (SalesforceCartClient.contexts (sfClient w));
            SalesforceCartClient.itemCounter :=
              SalesforceCartClient.itemCounter
                (sfClient (servedW now sessionId session cd c l' w));
            SalesforceCartClient.uuids :=
              SalesforceCartClient.uuids (sfClient w) |} |}) as Hnew.
  { destruct Hw as (Hkeyed & Hdrawn & Hinj & Hmirror).
    apply (consistent_update w sessionId
             (SessionCart.with_items l'
                (SessionCart.with_lastAccessed now session))
             {| SalesforceCartClient.context :=
                  SalesforceCartClient.context cd;
                SalesforceCartClient.items := l' |}); try done.
    - simpl. by eapply Hdrawn.
    - simpl. by apply Hkeyed in Hcd.
    - intros other s Hne Hother Heq. simpl in Heq.
      by destruct Hne; eapply Hinj. }
  destruct c; [by apply consistent_touchedW|done..].
Qed.

Lemma consistent_expireContext now contextId (w : World) :
  consistent w → consistent (expireContext now contextId w).
Proof.
  intros (Hkeyed & Hdrawn & Hinj & Hmirror).
  unfold expireContext, SalesforceCartClient.expireContext.
  destruct (SalesforceCartClient.contexts (sfClient w) !! contextId)
    as [cd|] eqn:Hcd; [|by destruct w].
  split_and!; simpl; try done.
  - apply map_Forall_insert_2; [|done]. simpl. by apply Hkeyed in Hcd.
  - intros sid session cd' Hs. simpl.
    destruct (decide (SessionCart.sfContextId session = contextId))
      as [Heq|Hne].
    + rewrite Heq, lookup_insert_eq. intros [= <-]. simpl.
      apply (Hmirror sid _ _ Hs). by rewrite Heq.
    + rewrite lookup_insert_ne by done. by apply (Hmirror sid).
Qed.

Lemma consistent_perform now sessionId (c : call) (w : World) :
  consistent w → consistent (perform now sessionId c w).2.
Proof.
  intros Hw.
  destruct (sessions w !! sessionId) as [session|] eqn:Hs; last first.
  { by rewrite (perform_unknown _ _ _ _ Hs). }
  assert (∀ session0 (w0 : World) cd0 c0,
    sessions w0 !! sessionId = Some session0 →
    SalesforceCartClient.getValidContext now
      (SessionCart.sfContextId session0) (sfClient w0) = Ok cd0 →
    consistent w0 → consistent (perform now sessionId c0 w0).2) as Hlive.
  { intros session0 w0 cd0 c0 Hs0 Hv0 Hw0.
    rewrite (perform_live _ _ _ c0 _ _ Hs0 Hv0).
    apply getValidContext_Ok in Hv0 as [Hcd0 _].
    destruct (effect c0 _ _) as [l'|]; simpl.
    - by apply consistent_servedW.
    - by apply consistent_touchedW. }
  destruct (live_or_expired now (SessionCart.sfContextId session) (sfClient w))
    as [[cd Hv]|Hexp]; [by eapply Hlive|].
  rewrite (perform_recovers _ _ _ c _ Hs Hexp).
  destruct (remap _ _ _ c) as [e|c'].
  - by apply consistent_recoveredW.
  - eapply Hlive;
      [apply recoveredW_session|apply recoveredW_live
      |by apply consistent_recoveredW].
Qed.

Lemma reachable_consistent (w : World) : reachable w → consistent w.
Proof.
  induction 1 as [|now w _ IH|now sessionId c w _ IH|now contextId w _ IH].
  - apply consistent_world0.
  - by apply consistent_createCart.
  - by apply consistent_perform.
  - by apply consistent_expireContext.
Qed.

End reachability.

(** ** Totals and cart identifiers in reachable worlds *)

Section reachable_worlds.
Import CartService.

(** C6. Every successful mutating call of the provider returns the
    list its context now holds, with the total [Σ price × quantity] of
    that list.  And in every reachable world, the cart a successful
    operation of the coordinator returns is the one of the context the
    session is now bound to, and its total is [Σ price × quantity] over
    the returned items and over the session's own items, whether or not
    the operation went through a recovery; so is the empty cart of
    [createCart].  The sum [sumTotal] is the one of the code's
    arithmetic: prices, quantities and totals are binary64 values, each
    product and each partial sum is rounded, and the items are summed in
    the order of the list, from 0. *)
Theorem total_is_sum now sessionId (c : call) (w : World) :
  reachable w →
  (∀ contextId (p p' : SalesforceCartClient.t) cart,
     (∃ input, SalesforceCartClient.addItem now contextId input p
               = (Ok cart, p')) ∨
     (∃ itemId, SalesforceCartClient.removeItem now contextId itemId p
                = (Ok cart, p')) ∨
     (∃ itemId quantity,
        SalesforceCartClient.updateItem now contextId itemId quantity p
        = (Ok cart, p')) →
     SalesforceCartClient.items <$> SalesforceCartClient.contexts p'
                                    !! contextId
       = Some (Cart.items cart) ∧
     Cart.total cart = sumTotal (Cart.items cart)) ∧
  (∀ cart, (perform now sessionId c w).1 = Ok cart →
     Cart.total cart = sumTotal (Cart.items cart) ∧
     contextItems sessionId (perform now sessionId c w).2
       = Some (Cart.items cart) ∧
     ∃ held, sessionItems sessionId (perform now sessionId c w).2 = Some held
             ∧ Cart.total cart = sumTotal held) ∧
  (∀ created cart, (createCart now w).1 = Ok (created, cart) →
     Cart.total cart = sumTotal (Cart.items cart) ∧
     sessionItems created (createCart now w).2 = Some (Cart.items cart)).
Proof.
  intros Hreach. split_and!.
  - intros contextId p p' cart. apply provider_returns_cart.
  - apply reachable_consistent in Hreach as (_ & _ & _ & Hmirror).
    by apply total_of_mirror.
  - intros created cart. rewrite createCart_World. intros [= <- <-].
    split; [done|]. unfold sessionItems; simpl.
    by rewrite lookup_insert_eq.
Qed.

(** C9. [createCart] answers with the cart id ["cart_" ++ sessionId].
    In a reachable world a later operation on the session answers with
    ["cart_" ++ contextId] for the context the session is bound to when
    the operation returns: never the id given at creation, and, when the
    operation had to recover, not the id of the context it replaced
    either. *)
Theorem cart_id_follows_context now sessionId session (c : call)
    (w : World) cart w' :
  reachable w →
  sessions w !! sessionId = Some session →
  perform now sessionId c w = (Ok cart, w') →
  (∀ now0 (w0 : World),
     ∃ sessionId0,
       (createCart now0 w0).1
       = Ok (sessionId0,
             {| Cart.id := "cart_" +:+ sessionId0; Cart.items := [];
                Cart.total := 0 |}) ∧
       sessionId0 = "sess_" +:+ randomUUID (uuids w0)) ∧
  (∃ session',
     sessions w' !! sessionId = Some session' ∧
     Cart.id cart = "cart_" +:+ SessionCart.sfContextId session') ∧
  (∀ uuid, Cart.id cart ≠ "cart_" +:+ ("sess_" +:+ uuid)) ∧
  (expired now (SessionCart.sfContextId session) (sfClient w) →
   Cart.id cart ≠ "cart_" +:+ SessionCart.sfContextId session).
Proof.
  intros Hreach Hs Hop. split.
  { intros now0 w0. rewrite createCart_World. by eexists. }
  apply reachable_consistent in Hreach as (Hkeyed & Hdrawn & _).
  destruct (cart_id_of_drawn _ _ _ _ _ _ _ Hs Hkeyed (Hdrawn _ _ Hs) Hop)
    as ((session' & Hs' & Hid & _) & Hcreation & Hchange).
  split; [by exists session'|done].
Qed.

End reachable_worlds.

(** ** Scenario B as an instance of the theorems above *)

Lemma reachable_expireSession now sessionId (w : World) :
  reachable w → reachable (expireSession now sessionId w).
Proof.
  intros Hw. unfold expireSession.
  destruct (CartService.sessions w !! sessionId); [|done].
  by apply reachable_expireContext.
Qed.

Lemma w_one_expired_reachable : reachable w_one_expired.
Proof.
  apply reachable_expireSession.
  apply (reachable_perform 0 "sess_0" (CartService.AddItem item_p1)).
  apply reachable_createCart, reachable_init.
Qed.

Lemma w_one_expired_session :
  CartService.sessions w_one_expired !! "sess_0" = Some session_one.
Proof. by vm_compute. Qed.

Lemma w_one_expired_expired :
  expired 0 (SessionCart.sfContextId session_one)
    (CartService.sfClient w_one_expired).
Proof. intros cd Hcd. vm_compute in Hcd. by injection Hcd as <-. Qed.

Lemma scenario_B_evaluated :
  CartService.perform 0 "sess_0" (CartService.AddItem item_p2) w_one_expired
  = (Ok cart_recovered,
     (CartService.perform 0 "sess_0" (CartService.AddItem item_p2)
        w_one_expired).2).
Proof. by vm_compute. Qed.

Lemma w_rounded_reachable : reachable w_rounded.
Proof.
  apply reachable_expireSession.
  apply (reachable_perform 0 "sess_0" (CartService.AddItem item_fraction)).
  apply (reachable_perform 0 "sess_0" (CartService.AddItem item_big)).
  apply reachable_createCart, reachable_init.
Qed.

Lemma total_is_sum_witness :
  (Cart.total cart_recovered = sumTotal (Cart.items cart_recovered) ∧
   ∃ held,
     sessionItems "sess_0"
       (CartService.perform 0 "sess_0" (CartService.AddItem item_p2)
          w_one_expired).2 = Some held ∧
     Cart.total cart_recovered = sumTotal held) ∧
  (CartService.perform 0 "sess_0" CartService.GetCart w_rounded).1
  = Ok cart_rounded ∧
  Cart.total cart_rounded = 27021597764223000%float ∧
  ∃ held,
    sessionItems "sess_0"
      (CartService.perform 0 "sess_0" CartService.GetCart w_rounded).2
    = Some held ∧
    Cart.total cart_rounded = sumTotal held.
Proof.
  split.
  - destruct (proj1 (proj2 (total_is_sum 0 "sess_0"
                              (CartService.AddItem item_p2)
                              w_one_expired w_one_expired_reachable))
                cart_recovered) as (Htotal & _ & Hheld).
    + by rewrite scenario_B_evaluated.
    + by split.
  - destruct (proj1 (proj2 (total_is_sum 0 "sess_0" CartService.GetCart
                              w_rounded w_rounded_reachable))
                cart_rounded) as (Htotal & _ & Hheld).
    + by vm_compute.
    + split_and!; [by vm_compute|reflexivity|exact Hheld].
Defined.

Lemma cart_id_follows_context_witness :
  Cart.id cart_recovered ≠ "cart_" +:+ "ctx_0".
Proof.
  exact (proj2 (proj2 (proj2
    (cart_id_follows_context 0 "sess_0" session_one
       (CartService.AddItem item_p2) w_one_expired cart_recovered _
       w_one_expired_reachable w_one_expired_session scenario_B_evaluated)))
    w_one_expired_expired).
Defined.

(** ** Runs over several sessions *)

Section frames.
Import CartService.

Lemma footprint_refl sessionId keys (w : World) :
  footprint sessionId keys w w.
Proof. by split_and!. Qed.

Lemma footprint_trans sessionId keys keys' (w w' w'' : World) :
  footprint sessionId keys w w' → footprint sessionId keys' w' w'' →
  footprint sessionId (keys ++ keys') w w''.
Proof.
  intros (Hs & Hc & Hn) (Hs' & Hc' & Hn'). split_and!.
  - intros other Hne. by rewrite Hs', Hs.
  - intros key Hkey. rewrite elem_of_app in Hkey.
    rewrite Hc', Hc; [done|..]; intros Hin; apply Hkey; auto.
  - lia.
Qed.

Lemma footprint_mono sessionId keys keys' (w w' : World) :
  keys ⊆ keys' → footprint sessionId keys w w' →
  footprint sessionId keys' w w'.
Proof.
  intros Hsub (Hs & Hc & Hn). split_and!; [done| |done].
  intros key Hkey. apply Hc. intros Hin. by apply Hkey, Hsub.
Qed.

Lemma footprint_touchedW now sessionId session (w : World) :
  footprint sessionId [] w (touchedW now sessionId session w).
Proof.
  split_and!; [|done..]. intros other Hne. unfold touchedW; simpl.
  by rewrite lookup_insert_ne.
Qed.

Lemma footprint_servedW now sessionId session cd (c : call) l' (w : World) :
  footprint sessionId [SessionCart.sfContextId session] w
    (servedW now sessionId session cd c l' w).
Proof.
  destruct c;
    [eapply footprint_mono; [|apply footprint_touchedW]; set_solver|..];
    (split_and!; simpl;
     [intros other Hne; by rewrite lookup_insert_ne
     |intros key Hkey; rewrite lookup_insert_ne; [done|set_solver]
     |lia]).
Qed.

Lemma footprint_recoveredW now sessionId session (w : World) :
  footprint sessionId [recoveredId (sfClient w)] w
    (recoveredW now sessionId session w).
Proof.
  split_and!; simpl.
  - intros other Hne. by rewrite lookup_insert_ne.
  - intros key Hkey. rewrite lookup_insert_ne; [done|set_solver].
  - lia.
Qed.

Lemma footprint_expireSession now sessionId session (w : World) :
  sessions w !! sessionId = Some session →
  footprint sessionId [SessionCart.sfContextId session] w
    (expireSession now sessionId w).
Proof.
  intros Hs. unfold expireSession. rewrite Hs.
  unfold expireContext, SalesforceCartClient.expireContext.
  destruct (SalesforceCartClient.contexts (sfClient w) !! _) as [cd|];
    (split_and!; simpl; [done| |done]); [|done].
  intros key Hkey. rewrite lookup_insert_ne; [done|set_solver].
Qed.

Lemma footprint_perform now sessionId session (c : call) (w : World) :
  sessions w !! sessionId = Some session →
  footprint sessionId
    [SessionCart.sfContextId session; recoveredId (sfClient w)] w
    (perform now sessionId c w).2.
Proof.
  intros Hs.
  assert (∀ session0 (w0 : World) cd0 c0,
    sessions w0 !! sessionId = Some session0 →
    SalesforceCartClient.getValidContext now
      (SessionCart.sfContextId session0) (sfClient w0) = Ok cd0 →
    footprint sessionId [SessionCart.sfContextId session0] w0
      (perform now sessionId c0 w0).2) as Hlive.
  { intros session0 w0 cd0 c0 Hs0 Hv0.
    rewrite (perform_live _ _ _ c0 _ _ Hs0 Hv0).
    destruct (effect c0 _ _) as [l'|]; simpl.
    - apply footprint_servedW.
    - eapply footprint_mono; [|apply footprint_touchedW]. set_solver. }
  destruct (live_or_expired now (SessionCart.sfContextId session) (sfClient w))
    as [[cd Hv]|Hexp].
  { eapply footprint_mono; [|by eapply Hlive]. set_solver. }
  rewrite (perform_recovers _ _ _ c _ Hs Hexp).
  destruct (remap _ _ _ c) as [e|c']; simpl.
  - eapply footprint_mono; [|apply footprint_recoveredW]. set_solver.
  - eapply footprint_mono;
      [|eapply footprint_trans;
        [apply (footprint_recoveredW now sessionId session)
        |eapply Hlive; [apply recoveredW_session|apply recoveredW_live]]].
    simpl. set_solver.
Qed.

(** A session whose entry and context lie outside the footprint of a
    step is tracked after the step as before. *)
Lemma tracked_framed sessionId other keys (w w' : World) seen :
  footprint sessionId keys w w' →
  other ≠ sessionId →
  (∀ session, sessions w !! other = Some session →
              SessionCart.sfContextId session ∉ keys) →
  tracked other w seen → tracked other w' seen.
Proof.
  intros (Hsessions & Hcontexts & Hcounter) Hne Hkeys
    (session & cd & Hs & Hcd & Hitems & Hcont & Hids & Hnd & Hmint & Hmint').
  exists session, cd. split_and!; try done.
  - by rewrite Hsessions.
  - rewrite Hcontexts; [done|]. by apply Hkeys.
  - eapply Forall_impl; [exact Hmint|]. intros item.
    by apply mintedBy_mono.
  - eapply Forall_impl; [exact Hmint'|]. intros item.
    by apply mintedBy_mono.
Qed.

(** An induced expiry changes the expiry instant of one context and
    nothing a session is tracked by. *)
Lemma tracked_expireSession now sessionId other (w : World) seen :
  tracked other w seen → tracked other (expireSession now sessionId w) seen.
Proof.
  intros (session & cd & Hs & Hcd & Hitems & Hcont & Hids & Hnd & Hmint
          & Hmint').
  unfold expireSession.
  destruct (sessions w !! sessionId) as [s0|]; [|by exists session, cd].
  unfold expireContext, SalesforceCartClient.expireContext.
  destruct (SalesforceCartClient.contexts (sfClient w)
              !! SessionCart.sfContextId s0) as [cd0|] eqn:Hcd0;
    [|by exists session, cd].
  destruct (decide (SessionCart.sfContextId session
                    = SessionCart.sfContextId s0)) as [Heq|Hne].
  - rewrite Heq, Hcd0 in Hcd. injection Hcd as <-.
    eexists session, _. simpl. rewrite Heq, lookup_insert_eq.
    by split_and!.
  - exists session, cd. simpl. rewrite lookup_insert_ne by done.
    by split_and!.
Qed.

Lemma seenBy_insert sessionId l (seen : gmap string (list CartItem.t)) :
  seenBy sessionId (<[sessionId := l]> seen) = l.
Proof. unfold seenBy. by rewrite lookup_insert_eq. Qed.

Lemma seenBy_insert_ne sessionId other l
    (seen : gmap string (list CartItem.t)) :
  other ≠ sessionId → seenBy other (<[sessionId := l]> seen) = seenBy other seen.
Proof. intros Hne. unfold seenBy. by rewrite lookup_insert_ne. Qed.

Lemma consistent_expireSession now sessionId (w : World) :
  consistent w → consistent (expireSession now sessionId w).
Proof.
  intros Hw. unfold expireSession.
  destruct (sessions w !! sessionId); [|done].
  by apply consistent_expireContext.
Qed.

Lemma perform_uuids now sessionId (c : call) (w : World) :
  uuids (perform now sessionId c w).2 = uuids w.
Proof.
  destruct (sessions w !! sessionId) as [session|] eqn:Hs; last first.
  { by rewrite (perform_unknown _ _ _ _ Hs). }
  assert (∀ session0 (w0 : World) cd0 c0,
    sessions w0 !! sessionId = Some session0 →
    SalesforceCartClient.getValidContext now
      (SessionCart.sfContextId session0) (sfClient w0) = Ok cd0 →
    uuids (perform now sessionId c0 w0).2 = uuids w0) as Hlive.
  { intros session0 w0 cd0 c0 Hs0 Hv0.
    rewrite (perform_live _ _ _ c0 _ _ Hs0 Hv0).
    destruct (effect c0 _ _) as [l'|]; [|done]. by destruct c0. }
  destruct (live_or_expired now (SessionCart.sfContextId session) (sfClient w))
    as [[cd Hv]|Hexp]; [by eapply Hlive|].
  rewrite (perform_recovers _ _ _ c _ Hs Hexp).
  destruct (remap _ _ _ c) as [e|c']; [done|].
  by erewrite Hlive; [|apply recoveredW_session|apply recoveredW_live].
Qed.

Lemma expireSession_uuids now sessionId (w : World) :
  uuids (expireSession now sessionId w) = uuids w ∧
  sessions (expireSession now sessionId w) = sessions w ∧
  SalesforceCartClient.uuids (sfClient (expireSession now sessionId w))
  = SalesforceCartClient.uuids (sfClient w).
Proof.
  unfold expireSession. destruct (sessions w !! sessionId); [|done].
  unfold expireContext, SalesforceCartClient.expireContext; simpl.
  by destruct (SalesforceCartClient.contexts (sfClient w) !! _).
Qed.

(** The state of a run after an operation on a session that leaves the
    session tracked with the cart [seen']. *)
Lemma coherent_perform now sessionId session (c : call) (w : World)
    seen carts seen' :
  coherent w seen carts →
  sessions w !! sessionId = Some session →
  tracked sessionId (perform now sessionId c w).2 seen' →
  coherent (perform now sessionId c w).2 (<[sessionId := seen']> seen)
    (<[sessionId := contents seen']> carts).
Proof.
  intros (Hcons & Hissued & Htracked) Hs Ht'.
  destruct (footprint_perform now sessionId session c w Hs)
    as (Hsessions & Hcontexts & Hcounter).
  split_and!.
  - by apply consistent_perform.
  - intros sid s0 Hs0. rewrite perform_uuids.
    destruct (decide (sid = sessionId)) as [->|Hne]; [by eapply Hissued|].
    rewrite Hsessions in Hs0 by done. by eapply Hissued.
  - intros sid. destruct (decide (sid = sessionId)) as [->|Hne].
    + destruct Ht' as (session' & cd' & Hs' & Hrest). rewrite Hs'.
      rewrite seenBy_insert, lookup_insert_eq. split; [|done].
      by exists session', cd'.
    + rewrite Hsessions by done. specialize (Htracked sid).
      rewrite seenBy_insert_ne, lookup_insert_ne by done.
      destruct (sessions w !! sid) as [s1|] eqn:Hs1; [|done].
      destruct Htracked as [Ht Hc]. split; [|done].
      eapply (tracked_framed sessionId sid); [by split_and!|done| |done].
      intros s2 Hs2. rewrite Hs1 in Hs2. injection Hs2 as <-.
      destruct Hcons as (_ & Hdrawn & Hinj & _).
      intros Hin. apply elem_of_cons in Hin as [Heq|Hin].
      * by destruct Hne; eapply Hinj.
      * apply list_elem_of_singleton in Hin.
        exact (drawn_fresh _ _ (Hdrawn _ _ Hs1) Hin).
Qed.

(** One request of a run shows what [specOperation] says, as long as it
    is faithful. *)
Lemma coherent_request now sessionId (r : request) (w : World) seen carts :
  coherent w seen carts →
  faithfulAt (Request now sessionId r) (w, seen) = true →
  view <$> (stepEvent (Request now sessionId r) (w, seen)).1
  = Some (specOperation (On sessionId r) (carts, uuids w)).1 ∧
  coherent (stepEvent (Request now sessionId r) (w, seen)).2.1
    (stepEvent (Request now sessionId r) (w, seen)).2.2
    (specOperation (On sessionId r) (carts, uuids w)).2.1 ∧
  uuids (stepEvent (Request now sessionId r) (w, seen)).2.1
  = (specOperation (On sessionId r) (carts, uuids w)).2.2.
Proof.
  intros Hcoh Hfaithful. pose proof Hcoh as (Hcons & Hissued & Htracked).
  specialize (Htracked sessionId).
  unfold stepEvent, step, specOperation. cbn [fst snd].
  destruct (sessions w !! sessionId) as [session|] eqn:Hs; last first.
  { rewrite (perform_unknown _ _ _ _ Hs), Htracked. cbn [fst snd].
    split_and!; [done| |done].
    split_and!; [done..|]. intros sid. specialize (proj2 (proj2 Hcoh) sid).
    assert (seenBy sid (<[sessionId := seenBy sessionId seen]> seen)
            = seenBy sid seen) as ->; [|done].
    destruct (decide (sid = sessionId)) as [->|Hne];
      [by rewrite seenBy_insert|by rewrite seenBy_insert_ne]. }
  destruct Htracked as [Ht Hcart]. rewrite Hcart.
  assert (∀ cart l',
    perform now sessionId (toCall (seenBy sessionId seen) r) w
    = (Ok cart, (perform now sessionId (toCall (seenBy sessionId seen) r) w).2) →
    contents (Cart.items cart) = l' →
    Cart.total cart = sumTotal (Cart.items cart) →
    tracked sessionId
      (perform now sessionId (toCall (seenBy sessionId seen) r) w).2
      (Cart.items cart) →
    view <$> Some (perform now sessionId (toCall (seenBy sessionId seen) r) w).1
    = Some (Some (inputsView l')) ∧
    coherent (perform now sessionId (toCall (seenBy sessionId seen) r) w).2
      (<[sessionId :=
           match (perform now sessionId (toCall (seenBy sessionId seen) r) w).1
           with
           | Ok cart => Cart.items cart
           | Throw _ => seenBy sessionId seen
           end]> seen)
      (<[sessionId := l']> carts) ∧
    uuids (perform now sessionId (toCall (seenBy sessionId seen) r) w).2
    = uuids w) as Hserved.
  { intros cart l' Hop Hl' Htotal Ht'.
    pose proof (coherent_perform now sessionId session _ w seen carts _
                  Hcoh Hs Ht') as Hcoh'.
    rewrite perform_uuids. rewrite Hop in Hcoh' |- *. cbn [fst snd] in *.
    rewrite Hl' in Hcoh'. split_and!; [|done..].
    cbn [fmap option_fmap option_map]. rewrite (view_inputs _ Htotal).
    by rewrite Hl'. }
  destruct (meetsExpiry now sessionId w) eqn:Hmeets.
  - destruct (tracked_recovered now sessionId w _ r Ht Hmeets)
      as (l' & cart & w' & Hspec & Hop & Hl' & Htotal & Ht').
    { destruct r as [|input|position|position quantity]; try done;
        simpl in Hfaithful; rewrite Hmeets in Hfaithful;
        simpl in Hfaithful; by apply andb_true_iff in Hfaithful. }
    rewrite Hspec. cbn [fst snd].
    apply (Hserved cart l'); try done; by rewrite Hop.
  - destruct (specStep r (contents (seenBy sessionId seen))) as [l'|] eqn:Hspec.
    + destruct (tracked_served now sessionId w _ r l' Ht Hmeets Hspec)
        as (cart & w' & Hop & Hl' & Htotal & Ht').
      cbn [fst snd]. apply (Hserved cart l'); try done; by rewrite Hop.
    + destruct (tracked_missed now sessionId w _ r Ht Hmeets Hspec)
        as (e & w' & Hop & Ht').
      pose proof (coherent_perform now sessionId session
                    (toCall (seenBy sessionId seen) r) w seen carts
                    (seenBy sessionId seen) Hcoh Hs) as Hcoh'.
      rewrite perform_uuids. rewrite Hop in Hcoh' |- *. cbn [fst snd] in *.
      rewrite (insert_id carts) in Hcoh' by done.
      split_and!; [done| |done]. by apply Hcoh'.
Qed.


Lemma coherent_create now (w : World) seen carts :
  coherent w seen carts →
  coherent (createCart now w).2 (<[createdId w := []]> seen)
    (<[createdId w := []]> carts).
Proof.
  intros (Hcons & Hissued & Htracked). split_and!.
  - by apply consistent_createCart.
  - rewrite createCart_World. intros sid s0. simpl.
    destruct (decide (sid = createdId w)) as [->|Hne].
    + intros _. exists (uuids w). split; [done|lia].
    + unfold createdId in Hne. rewrite lookup_insert_ne by done.
      intros Hs0. destruct (Hissued _ _ Hs0) as (k & Hk & Hlt).
      exists k. split; [done|lia].
  - intros sid. destruct (decide (sid = createdId w)) as [->|Hne].
    + rewrite seenBy_insert, lookup_insert_eq.
      rewrite createCart_World. simpl. unfold createdId.
      rewrite lookup_insert_eq. split; [|done].
      eexists _, _. split_and!.
      * apply lookup_insert_eq.
      * simpl. apply lookup_insert_eq.
      * done.
      * done.
      * by left.
      * apply NoDup_nil_2.
      * apply Forall_nil_2.
      * apply Forall_nil_2.
    + rewrite seenBy_insert_ne, lookup_insert_ne by done.
      specialize (Htracked sid).
      rewrite createCart_World. simpl. unfold createdId in Hne.
      rewrite lookup_insert_ne by done.
      destruct (sessions w !! sid) as [s1|] eqn:Hs1; [|done].
      destruct Htracked as [Ht Hc]. split; [|done].
      eapply (tracked_framed (createdId w) sid
                [recoveredId (sfClient w)] w); [|done| |done].
      * split_and!; simpl.
        -- intros other Hother. unfold createdId in Hother.
           by rewrite lookup_insert_ne.
        -- intros key Hkey. rewrite lookup_insert_ne; [done|set_solver].
        -- done.
      * intros s2 Hs2 Hin. apply list_elem_of_singleton in Hin.
        destruct Hcons as (_ & Hdrawn & _).
        exact (drawn_fresh _ _ (Hdrawn _ _ Hs2) Hin).
Qed.

Lemma coherent_expire now sessionId (w : World) seen carts :
  coherent w seen carts →
  coherent (expireSession now sessionId w) seen carts.
Proof.
  intros (Hcons & Hissued & Htracked).
  destruct (expireSession_uuids now sessionId w) as (Hu & Hsess & _).
  split_and!.
  - by apply consistent_expireSession.
  - intros sid s0. rewrite Hsess, Hu. apply Hissued.
  - intros sid. specialize (Htracked sid). rewrite Hsess.
    destruct (sessions w !! sid); [|done].
    destruct Htracked as [Ht Hc]. split; [|done].
    by apply tracked_expireSession.
Qed.

End frames.

(** ** Invisibility of recovery *)

Section invisible.
Import CartService.

Lemma stepEvent_Create now (w : World)
    (seen : gmap string (list CartItem.t)) :
  stepEvent (Create now) (w, seen)
  = (Some (Ok {| Cart.id := "cart_" +:+ createdId w; Cart.items := [];
                 Cart.total := 0 |}),
     ((createCart now w).2, <[createdId w := []]> seen)).
Proof. done. Qed.

(** A faithful run shows, operation by operation, the carts of inputs
    its operations describe. *)
Lemma run_refines (events : list event) :
  ∀ (w : World) seen carts,
    coherent w seen carts →
    faithful events (w, seen) = true →
    view <$> run events (w, seen)
    = specRun (operationsOf events) (carts, uuids w).
Proof.
  induction events as [|[now|now sessionId|now sessionId r] rest IH];
    intros w seen carts Hcoh Hfaithful; [done|..];
    cbn [faithful] in Hfaithful;
    apply andb_true_iff in Hfaithful as [Hhead Hrest].
  - cbn [run operationsOf omap list_omap operationOf specRun].
    rewrite stepEvent_Create in Hrest |- *. cbn [fst snd] in Hrest |- *.
    rewrite fmap_cons. f_equal.
    unfold specOperation. cbn [fst snd].
    rewrite (IH _ _ (<[createdId w := []]> carts));
      [|by apply coherent_create|done].
    by rewrite createCart_World.
  - cbn [run operationsOf omap list_omap operationOf stepEvent fst snd]
      in Hrest |- *.
    rewrite (IH _ _ carts); [|by apply coherent_expire|done].
    by destruct (expireSession_uuids now sessionId w) as (-> & _).
  - destruct (coherent_request now sessionId r w seen carts Hcoh Hhead)
      as (Hview & Hcoh' & Hu).
    cbn [run operationsOf omap list_omap operationOf specRun].
    destruct (stepEvent (Request now sessionId r) (w, seen))
      as [[result|] [w' seen']] eqn:Hstep; [|done].
    cbn [fst snd] in *. injection Hview as Hview.
    rewrite fmap_cons, Hview. f_equal.
    rewrite (IH _ _ _ Hcoh' Hrest), Hu.
    by destruct (specOperation (On sessionId r) (carts, uuids w)) as [? [? ?]].
Qed.

Lemma coherent_world0 : coherent world0 ∅ ∅.
Proof. split_and!; [apply consistent_world0|..]; by intros sid. Qed.

Lemma unexpired_faithful (events : list event) :
  ∀ st, unexpired events st = true → faithful events st = true.
Proof.
  induction events as [|e rest IH]; intros st; [done|]. simpl.
  intros [Hhead Hrest]%andb_true_iff. apply andb_true_iff. split; [|by apply IH].
  destruct e as [now|now sessionId|now sessionId r]; try done.
  destruct r; try done; simpl in *; by rewrite Hhead.
Qed.

(** A world in which every session is bound to a context that is valid
    at [now] stays one under every operation made at [now]. *)
Lemma getValidContext_after now key (p : SalesforceCartClient.t) k cd' n u :
  is_Ok (SalesforceCartClient.getValidContext now key p) = true →
  (now ≤ CartContext.expiresAt (SalesforceCartClient.context cd'))%Z →
  is_Ok (SalesforceCartClient.getValidContext now key
           {| SalesforceCartClient.contexts :=
                <[k := cd']> (SalesforceCartClient.contexts p);
              SalesforceCartClient.itemCounter := n;
              SalesforceCartClient.uuids := u |}) = true.
Proof.
  intros Hok Hle. destruct (decide (key = k)) as [->|Hne].
  - by rewrite getValidContext_insert.
  - unfold SalesforceCartClient.getValidContext in *. simpl.
    by rewrite lookup_insert_ne.
Qed.

Lemma perform_unexpired now sessionId (c : call) (w : World) :
  (∀ sid, meetsExpiry now sid w = false) →
  ∀ sid, meetsExpiry now sid (perform now sessionId c w).2 = false.
Proof.
  intros Hall.
  destruct (sessions w !! sessionId) as [session|] eqn:Hs; last first.
  { by rewrite (perform_unknown _ _ _ _ Hs). }
  destruct (meetsExpiry_false _ _ _ _ Hs (Hall sessionId)) as [cd Hv].
  rewrite (perform_live _ _ _ _ _ _ Hs Hv).
  pose proof Hv as Hv'. apply getValidContext_Ok in Hv' as [Hcd Hle].
  assert (∀ sid, meetsExpiry now sid (touchedW now sessionId session w)
                 = false) as Htouched.
  { intros sid. specialize (Hall sid). unfold meetsExpiry in *. simpl.
    destruct (decide (sid = sessionId)) as [->|Hne].
    - rewrite lookup_insert_eq. simpl. by rewrite Hs in Hall.
    - by rewrite lookup_insert_ne. }
  destruct (effect c _ _) as [l'|]; cbn [snd]; [|done].
  destruct c as [|input|itemId|itemId quantity]; [done|..];
    intros sid; specialize (Hall sid); unfold meetsExpiry in *; simpl;
    (destruct (decide (sid = sessionId)) as [->|Hne];
     [rewrite lookup_insert_eq; simpl; rewrite Hs in Hall
     |rewrite lookup_insert_ne by done;
      destruct (sessions w !! sid) as [s1|]; [|done]]);
    apply negb_false_iff; apply negb_false_iff in Hall;
    by apply getValidContext_after.
Qed.

Lemma createCart_unexpired now (w : World) :
  (∀ sid, meetsExpiry now sid w = false) →
  ∀ sid, meetsExpiry now sid (createCart now w).2 = false.
Proof.
  intros Hall sid. specialize (Hall sid). rewrite createCart_World.
  unfold meetsExpiry in *. simpl.
  destruct (decide (sid = "sess_" +:+ randomUUID (uuids w))) as [->|Hne].
  - rewrite lookup_insert_eq. simpl. unfold recoveredId.
    rewrite getValidContext_insert; [done|]. simpl.
    unfold SalesforceCartClient.CONTEXT_EXPIRY_MS. lia.
  - rewrite lookup_insert_ne by done.
    destruct (sessions w !! sid) as [s1|]; [|done].
    apply negb_false_iff. apply negb_false_iff in Hall.
    apply getValidContext_after; [done|]. simpl.
    unfold SalesforceCartClient.CONTEXT_EXPIRY_MS. lia.
Qed.

(** The run of the same operations at one instant, with no induced
    expiry, meets no expired context. *)
Lemma withoutExpiries_unexpired now (events : list event) :
  ∀ (w : World) seen,
    (∀ sid, meetsExpiry now sid w = false) →
    unexpired (withoutExpiries now events) (w, seen) = true.
Proof.
  induction events as [|[at_|at_ sessionId|at_ sessionId r] rest IH];
    intros w seen Hall; [done|..]; unfold withoutExpiries in *;
    cbn [omap list_omap unexpired].
  - rewrite stepEvent_Create. cbn [fst snd unexpiredAt andb].
    apply IH. by apply createCart_unexpired.
  - by apply IH.
  - cbn [unexpiredAt fst snd]. rewrite (Hall sessionId). cbn [negb andb].
    unfold stepEvent, step. cbn [fst snd]. apply IH.
    by apply perform_unexpired.
Qed.

Lemma operationsOf_withoutExpiries now (events : list event) :
  operationsOf (withoutExpiries now events) = operationsOf events.
Proof.
  unfold operationsOf, withoutExpiries.
  induction events as [|[at_|at_ sessionId|at_ sessionId r] rest IH];
    cbn [omap list_omap operationOf]; by rewrite ?IH.
Qed.

(** C1, as the code has it.  Take any run from the empty service:
    [createCart], requests on sessions (read, add, remove or update the
    item at a position of the cart last returned for that session), each
    at its own instant, and induced expiries of the context of a session
    anywhere in between.  Call the run faithful when every remove or
    update that meets an expired context (expired by an induced expiry or
    by the passing of time) names an id that is in the session's own
    list, and the first item of its product in the cart.  Then
    - a faithful run shows the callers, operation by operation, the same
      products, quantities and totals as the same operations run at one
      instant with no induced expiry, a run in which no request meets an
      expired context;
    - more generally, two faithful runs of the same operations, whatever
      their instants and induced expiries, show the same;
    - a run in which no request meets an expired context is faithful;
    - recovery itself replays the items of the session, in order, into
      the new context. *)
Theorem invisibility_of_recovery now (events events' : list event) :
  faithful events (world0, ∅) = true →
  view <$> run events (world0, ∅)
  = view <$> run (withoutExpiries now events) (world0, ∅) ∧
  unexpired (withoutExpiries now events) (world0, ∅) = true ∧
  (operationsOf events' = operationsOf events →
   faithful events' (world0, ∅) = true →
   view <$> run events' (world0, ∅) = view <$> run events (world0, ∅)) ∧
  (unexpired events' (world0, ∅) = true →
   faithful events' (world0, ∅) = true) ∧
  ∀ ref session (w : World),
    ∃ session' w' cd,
      recoverContext now ref session w = (Ok session', w') ∧
      SalesforceCartClient.contexts (sfClient w')
        !! SessionCart.sfContextId session' = Some cd ∧
      contents (SalesforceCartClient.items cd)
      = contents (SessionCart.items session).
Proof.
  intros Hfaithful.
  assert (unexpired (withoutExpiries now events) (world0, ∅) = true)
    as Hcalm by by apply withoutExpiries_unexpired.
  split_and!.
  - rewrite (run_refines events world0 ∅ ∅ coherent_world0 Hfaithful).
    rewrite (run_refines _ world0 ∅ ∅ coherent_world0
               (unexpired_faithful _ _ Hcalm)).
    by rewrite operationsOf_withoutExpiries.
  - done.
  - intros Hsame Hfaithful'.
    rewrite (run_refines events world0 ∅ ∅ coherent_world0 Hfaithful).
    rewrite (run_refines events' world0 ∅ ∅ coherent_world0 Hfaithful').
    by rewrite Hsame.
  - apply unexpired_faithful.
  - intros ref session w. rewrite recoverContext_World.
    eexists _, _, _. split; [done|]. simpl. split.
    + apply lookup_insert_eq.
    + simpl. apply contents_relabel.
Qed.

(** C1, refuted as stated: with two items of one product in the cart,
    removing the second by its id removes, after an expiry, the first
    one; the caller is left with quantity 2 and total 200 instead of
    quantity 1 and total 100. *)
Lemma invisibility_of_recovery_counterexample :
  view (removeItem 0 "sess_0" "item_2" w_duplicates).1
    = Some ([("p1", 1%float)], 100%float) ∧
  view (removeItem 0 "sess_0" "item_2"
          (expireSession 0 "sess_0" w_duplicates)).1
    = Some ([("p1", 2%float)], 200%float) ∧
  operationsOf (duplicate_events true) = operationsOf (duplicate_events false) ∧
  unexpired (duplicate_events false) (world0, ∅) = true ∧
  view <$> run (duplicate_events true) (world0, ∅)
    ≠ view <$> run (duplicate_events false) (world0, ∅).
Proof. split_and!; [by vm_compute..|]. vm_compute. by intros [=]. Qed.

End invisible.

Lemma invisibility_of_recovery_witness :
  faithful scenario_events (world0, ∅) = true ∧
  unexpired scenario_events (world0, ∅) = false ∧
  view <$> run scenario_events (world0, ∅)
  = view <$> run (withoutExpiries 0 scenario_events) (world0, ∅).
Proof.
  split; [by vm_compute|]. split; [by vm_compute|].
  refine (proj1 (invisibility_of_recovery 0 scenario_events [] _)).
  by vm_compute.
Defined.

(** ** The provider, call by call *)

Section client_calls_facts.
Import SalesforceCartClient.
Implicit Types (p : SalesforceCartClient.t) (cd : ContextData)
  (c : CartService.call).

(** What a cart call does on a context that passes the validity check,
    and on one that does not. *)
Lemma serve_valid now contextId c p cd :
  getValidContext now contextId p = Ok cd →
  serve now contextId c p =
  match effect c (itemCounter p) (items cd) with
  | Some l' =>
      let cd' := {| context := context cd; items := l' |} in
      (Ok (buildCart cd'),
       match c with
       | CartService.GetCart => p
       | CartService.AddItem _ =>
           {| contexts := <[contextId := cd']> (contexts p);
              itemCounter := S (itemCounter p); uuids := uuids p |}
       | _ => with_contexts (<[contextId := cd']> (contexts p)) p
       end)
  | None => (Throw (ItemNotFoundError (target c)), p)
  end.
Proof.
  intros Hv. destruct c as [|input|itemId|itemId quantity]; simpl.
  - unfold getCart. rewrite Hv. by destruct cd.
  - by rewrite (addItem_valid _ _ _ _ _ Hv).
  - rewrite (removeItem_valid _ _ _ _ _ Hv).
    by destruct (findById itemId (items cd)) as [[??]|].
  - rewrite (updateItem_valid _ _ _ _ _ _ Hv).
    by destruct (findById itemId (items cd)) as [[??]|].
Qed.

Lemma serve_invalid now contextId c p e :
  getValidContext now contextId p = Throw e →
  serve now contextId c p = (Throw (ContextExpiredError contextId), p).
Proof.
  intros Hv. destruct (getValidContext_Throw _ _ _ _ Hv) as [-> _].
  destruct c; simpl;
    unfold getCart, addItem, removeItem, updateItem; by rewrite Hv.
Qed.

Lemma findById_None itemId (l : list CartItem.t) :
  findById itemId l = None ↔ itemId ∉ CartItem.id <$> l.
Proof.
  unfold findById. rewrite list_find_None, Forall_forall. split.
  - intros Hall (item & Hid & Hin)%list_elem_of_fmap. by apply (Hall item).
  - intros Hnot item Hin Hid. apply Hnot, list_elem_of_fmap. by exists item.
Qed.

(** X1. A context lives thirty minutes.  [createContext] never fails; the
    context it returns expires at [now + 1 800 000] ms and starts with an
    empty cart of total 0: [getCart] answers that cart at every instant up
    to and including the expiry instant, and every cart call is rejected
    with [ContextExpiredError] at every later instant. *)
Theorem context_lifetime now later p :
  ∃ context,
    createContext now p = (Ok context, (createContext now p).2) ∧
    CartContext.expiresAt context = (now + 1800000)%Z ∧
    ((later ≤ now + 1800000)%Z →
     getCart later (CartContext.id context) (createContext now p).2
     = (Ok {| Cart.id := "cart_" +:+ CartContext.id context;
              Cart.items := []; Cart.total := 0 |},
        (createContext now p).2)) ∧
    ((now + 1800000 < later)%Z →
     ∀ c, serve later (CartContext.id context) c (createContext now p).2
          = (Throw (ContextExpiredError (CartContext.id context)),
             (createContext now p).2)).
Proof.
  eexists. split; [reflexivity|]. split; [reflexivity|].
  cbn [createContext fst snd CartContext.id CartContext.expiresAt].
  split.
  - intros Hle. unfold getCart.
    by rewrite getValidContext_insert.
  - intros Hlt c.
    eapply serve_invalid, getValidContext_expired.
    intros cd. cbn [contexts]. rewrite lookup_insert_eq.
    intros [= <-]. done.
Qed.

(** X2. Calls are local to their context.  Whatever a call does
    ([createContext], one of the four cart calls, [expireContext]), the
    data of every context other than the one it names or makes is left
    as it was, so [getCart] on another context answers the same at
    every instant. *)
Theorem calls_are_local now (call : clientCall) p other :
  other ≠ subject call p →
  contexts (clientAfter now call p) !! other = contexts p !! other ∧
  ∀ later, (getCart later other (clientAfter now call p)).1
           = (getCart later other p).1.
Proof.
  intros Hne.
  assert (contexts (clientAfter now call p) !! other = contexts p !! other)
    as Hsame.
  { destruct call as [|contextId c|contextId]; simpl in Hne |- *.
    - by rewrite lookup_insert_ne.
    - destruct (getValidContext now contextId p) as [cd|e] eqn:Hv.
      + rewrite (serve_valid _ _ _ _ _ Hv).
        destruct (effect c (itemCounter p) (items cd)); [|done].
        destruct c; simpl; by rewrite ?lookup_insert_ne.
      + by rewrite (serve_invalid _ _ _ _ _ Hv).
    - unfold expireContext.
      destruct (contexts p !! contextId); [|done].
      simpl. by rewrite lookup_insert_ne. }
  split; [done|]. intros later.
  unfold getCart, getValidContext. rewrite Hsame.
  destruct (contexts p !! other) as [cd|]; [|done].
  by destruct (later >? _)%Z.
Qed.

(** X3. A rejected call changes nothing.  When a cart call of the
    provider throws, the provider is exactly as before, and the error is
    [ContextExpiredError] for the context id, the context being unknown
    or past its expiry, or else [ItemNotFoundError] for the item id of a
    [removeItem] or [updateItem] on a valid context that holds no item
    of that id. *)
Theorem failed_call_changes_nothing now contextId c p e p' :
  serve now contextId c p = (Throw e, p') →
  p' = p ∧
  ((e = ContextExpiredError contextId ∧ expired now contextId p) ∨
   (e = ItemNotFoundError (target c) ∧
    (∃ quantity, c = CartService.RemoveItem (target c) ∨
                 c = CartService.UpdateItem (target c) quantity) ∧
    ∃ cd, getValidContext now contextId p = Ok cd ∧ target c ∉ itemIds cd)).
Proof.
  destruct (getValidContext now contextId p) as [cd|e0] eqn:Hv.
  - rewrite (serve_valid _ _ _ _ _ Hv).
    destruct (effect c (itemCounter p) (items cd)) as [l'|] eqn:He;
      [done|].
    intros [= <- <-]. split; [done|]. right. split; [done|].
    destruct c as [|input|itemId|itemId quantity]; simpl in He |- *;
      try done.
    + split; [exists 0%float; by left|]. exists cd. split; [done|].
      apply findById_None.
      by destruct (findById itemId (items cd)) as [[??]|].
    + split; [exists quantity; by right|]. exists cd. split; [done|].
      apply findById_None.
      by destruct (findById itemId (items cd)) as [[??]|].
  - rewrite (serve_invalid _ _ _ _ _ Hv). intros [= <- <-].
    split; [done|]. left. split; [done|].
    by destruct (getValidContext_Throw _ _ _ _ Hv).
Qed.

(** X4. What a call returns is what [getCart] reads back.  After a
    successful cart call the context holds exactly the returned items,
    [getCart] at the same instant returns the very same cart (id, items
    and total) without changing the provider, and the total is the sum
    of price × quantity over the returned items as the code takes it:
    in the order of the list, from 0, each product and each partial sum
    rounded to a binary64 value. *)
Theorem mutation_is_read_back now contextId c p cart p' :
  serve now contextId c p = (Ok cart, p') →
  getCart now contextId p' = (Ok cart, p') ∧
  (items <$> contexts p' !! contextId) = Some (Cart.items cart) ∧
  Cart.total cart = sumTotal (Cart.items cart).
Proof.
  destruct (getValidContext now contextId p) as [cd|e0] eqn:Hv.
  - rewrite (serve_valid _ _ _ _ _ Hv).
    destruct (effect c (itemCounter p) (items cd)) as [l'|] eqn:He;
      [|done].
    apply getValidContext_Ok in Hv as [Hcd Hle].
    cbv zeta. intros [= <- <-].
    rewrite buildCart_total.
    assert (getValidContext now contextId
              match c with
              | CartService.GetCart => p
              | CartService.AddItem _ =>
                  {| contexts :=
                       <[contextId := {| context := context cd; items := l' |}]>
                         (contexts p);
                     itemCounter := S (itemCounter p); uuids := uuids p |}
              | _ => with_contexts
                       (<[contextId := {| context := context cd;
                                          items := l' |}]> (contexts p)) p
              end = Ok {| context := context cd; items := l' |}) as Hv'.
    { destruct c; simpl in He; try by apply getValidContext_insert.
      injection He as <-. apply getValidContext_Ok. by destruct cd. }
    split; [|split; [|done]].
    + unfold getCart. by rewrite Hv'.
    + apply getValidContext_Ok in Hv' as [-> _]. done.
  - by rewrite (serve_invalid _ _ _ _ _ Hv).
Qed.


(** A call leaves the provider as it was, or rewrites one context: into
    an empty one, into one whose ids are among the former ones in the
    same order, or into one with a newly minted id at the end. *)
Lemma clientAfter_cases now (call : clientCall) p :
  clientAfter now call p = p ∨
  ∃ key cd' n u,
    clientAfter now call p
    = {| contexts := <[key := cd']> (contexts p);
         itemCounter := n; uuids := u |} ∧
    itemCounter p ≤ n ∧ uuids p ≤ u ∧
    (key = recoveredId p ∧ u = S (uuids p) ∧ itemIds cd' = [] ∨
     ∃ cd, contexts p !! key = Some cd ∧
           CartContext.id (context cd') = CartContext.id (context cd) ∧
           (CartContext.expiresAt (context cd')
            = CartContext.expiresAt (context cd) ∨
            CartContext.expiresAt (context cd') = (now - 1000)%Z) ∧
           (itemIds cd' `sublist_of` itemIds cd ∨
            itemIds cd'
            = itemIds cd ++ ["item_" +:+ pretty (S (itemCounter p))] ∧
            n = S (itemCounter p))).
Proof.
  destruct call as [|contextId c|contextId]; simpl.
  - right. eexists _, _, _, _. split; [reflexivity|].
    split_and!; [done|lia|]. left. by split_and!.
  - destruct (getValidContext now contextId p) as [cd|e] eqn:Hv.
    + rewrite (serve_valid _ _ _ _ _ Hv).
      apply getValidContext_Ok in Hv as [Hcd _].
      destruct (effect c (itemCounter p) (items cd)) as [l'|] eqn:He;
        [|by left].
      destruct c as [|input|itemId|itemId quantity]; simpl in He |- *.
      * by left.
      * injection He as <-. right. eexists _, _, _, _.
        split; [reflexivity|]. split_and!; [lia|done|].
        right. exists cd. split_and!; [done|done|by left|].
        right. split; [|done]. unfold itemIds. simpl.
        by rewrite fmap_app.
      * destruct (findById itemId (items cd)) as [[i item]|]; [|done].
        injection He as <-. right. eexists _, _, _, _.
        split; [reflexivity|]. split_and!; [done|done|].
        right. exists cd. split_and!; [done|done|by left|].
        left. unfold itemIds. simpl. rewrite list_fmap_delete.
        apply sublist_delete.
      * destruct (findById itemId (items cd)) as [[i item]|] eqn:Hf;
          [|done].
        injection He as <-. right. eexists _, _, _, _.
        split; [reflexivity|]. split_and!; [done|done|].
        right. exists cd. split_and!; [done|done|by left|].
        left. unfold itemIds. simpl. rewrite list_fmap_insert.
        apply list_find_Some in Hf as (Hi & _ & _).
        rewrite list_insert_id; [done|].
        by rewrite list_lookup_fmap, Hi.
    + rewrite (serve_invalid _ _ _ _ _ Hv). by left.
  - unfold expireContext.
    destruct (contexts p !! contextId) as [cd|] eqn:Hcd; [|by left].
    right. eexists _, _, _, _. split; [reflexivity|].
    split_and!; [done|done|]. right. exists cd.
    split_and!; [done|done|by right|by left].
Qed.

Lemma mintedId_mono n m itemId : n ≤ m → mintedId n itemId → mintedId m itemId.
Proof. intros Hle (k & Hid & Hk). exists k. split; [done|lia]. Qed.

Lemma mintedId_fresh n (l : list string) :
  Forall (mintedId n) l → "item_" +:+ pretty (S n) ∉ l.
Proof.
  intros Hall Hin. rewrite Forall_forall in Hall.
  destruct (Hall _ Hin) as (k & Heq & Hk).
  apply (inj (String.append "item_")) in Heq.
  apply pretty_nat_inj in Heq. lia.
Qed.

Lemma clientAfter_mintedOnce now (call : clientCall) p :
  mintedOnce p → mintedOnce (clientAfter now call p).
Proof.
  intros [Hown Hcross].
  destruct (clientAfter_cases now call p)
    as [->|(key & cd' & n & u & -> & Hn & _ & Hcase)]; [done|].
  assert (Forall (mintedId n) (itemIds cd') ∧ NoDup (itemIds cd') ∧
          ∀ other cd2 itemId,
            other ≠ key → contexts p !! other = Some cd2 →
            itemId ∈ itemIds cd' → itemId ∉ itemIds cd2) as (Hm & Hnd & Hx).
  { destruct Hcase as [(_ & _ & ->)|(cd & Hcd & _ & _ & Hids)].
    { split_and!; [done|apply NoDup_nil_2|]. intros ??? _ _ Hin.
      by apply elem_of_nil in Hin. }
    destruct (Hown _ _ Hcd) as [Hmcd Hndcd].
    destruct Hids as [Hsub|[-> ->]].
    - split_and!.
      + eapply Forall_impl; [|intros ?; by apply mintedId_mono].
        rewrite Forall_forall in Hmcd |- *. intros x Hx.
        apply Hmcd. exact (elem_of_sublist _ _ _ Hx Hsub).
      + by eapply sublist_NoDup.
      + intros other cd2 itemId Hne Hcd2 Hin Hin2. apply Hne.
        eapply (Hcross other key cd2 cd itemId); [done..|].
        exact (elem_of_sublist _ _ _ Hin Hsub).
    - split_and!.
      + apply Forall_app. split.
        * eapply Forall_impl; [done|]. intros ?. apply mintedId_mono. lia.
        * apply Forall_singleton. exists (S (itemCounter p)).
          split; [done|lia].
      + apply NoDup_app. split_and!; [done| |apply NoDup_singleton].
        intros x Hx ->%list_elem_of_singleton.
        by apply (mintedId_fresh _ _ Hmcd).
      + intros other cd2 itemId Hne Hcd2 [Hin| ->%list_elem_of_singleton]%elem_of_app Hin2.
        * apply Hne. by eapply (Hcross other key cd2 cd itemId).
        * destruct (Hown _ _ Hcd2) as [Hm2 _].
          by apply (mintedId_fresh _ _ Hm2). }
  split; cbn [contexts itemCounter].
  - intros k cd0 Hk. destruct (decide (k = key)) as [->|Hne].
    + rewrite lookup_insert_eq in Hk. by injection Hk as <-.
    + rewrite lookup_insert_ne in Hk by done.
      destruct (Hown _ _ Hk) as [Hm0 Hnd0]. split; [|done].
      eapply Forall_impl; [done|]. intros ?. by apply mintedId_mono.
  - intros k1 k2 cd1 cd2 itemId Hk1 Hk2 Hin1 Hin2.
    destruct (decide (k1 = key)) as [->|Hne1];
      destruct (decide (k2 = key)) as [->|Hne2]; [done| | |].
    + rewrite lookup_insert_eq in Hk1. injection Hk1 as <-.
      rewrite lookup_insert_ne in Hk2 by done.
      by destruct (Hx _ _ _ Hne2 Hk2 Hin1).
    + rewrite lookup_insert_eq in Hk2. injection Hk2 as <-.
      rewrite lookup_insert_ne in Hk1 by done.
      by destruct (Hx _ _ _ Hne1 Hk1 Hin2).
    + rewrite lookup_insert_ne in Hk1, Hk2 by done.
      by eapply Hcross.
Qed.

Lemma clientRun_snoc calls timed p :
  clientRun (calls ++ [timed]) p
  = clientAfter timed.1 timed.2 (clientRun calls p).
Proof. unfold clientRun. by rewrite fold_left_app. Qed.

Lemma clientRun_mintedOnce calls p :
  mintedOnce p → mintedOnce (clientRun calls p).
Proof.
  intros Hp. induction calls as [|timed calls IH] using rev_ind; [done|].
  rewrite clientRun_snoc. by apply clientAfter_mintedOnce.
Qed.

Lemma mintedOnce_init : mintedOnce init.
Proof. split; intros *; simpl; by rewrite lookup_empty. Qed.


Lemma delete_NoDup_not_elem (l : list string) i x :
  NoDup l → l !! i = Some x → x ∉ delete i l.
Proof.
  intros Hnd Hi. rewrite delete_take_drop.
  rewrite <-(take_drop_middle _ _ _ Hi) in Hnd.
  apply NoDup_app in Hnd as (_ & Hleft & Hright).
  apply NoDup_cons in Hright as [Hright _].
  intros [Hin|Hin]%elem_of_app; [|done].
  apply (Hleft _ Hin). left.
Qed.

(** X5. Item ids are never reused.  In every history of the provider
    from its initial state, whatever the calls and their instants, an
    item id names at most one item: two items with the same id are the
    same entry of the same context. *)
Theorem item_ids_are_unique (calls : list (Z * clientCall))
    key1 key2 cd1 cd2 i j item1 item2 :
  contexts (clientRun calls init) !! key1 = Some cd1 →
  contexts (clientRun calls init) !! key2 = Some cd2 →
  items cd1 !! i = Some item1 →
  items cd2 !! j = Some item2 →
  CartItem.id item1 = CartItem.id item2 →
  key1 = key2 ∧ i = j.
Proof.
  intros Hk1 Hk2 Hi Hj Hid.
  destruct (clientRun_mintedOnce calls init mintedOnce_init)
    as [Hown Hcross].
  assert (itemIds cd1 !! i = Some (CartItem.id item1)) as Hi1.
  { unfold itemIds. by rewrite list_lookup_fmap, Hi. }
  assert (itemIds cd2 !! j = Some (CartItem.id item1)) as Hj2.
  { unfold itemIds. by rewrite list_lookup_fmap, Hj, Hid. }
  assert (key1 = key2) as <-.
  { eapply (Hcross _ _ _ _ (CartItem.id item1)); [done..| |].
    - by eapply list_elem_of_lookup_2.
    - by eapply list_elem_of_lookup_2. }
  split; [done|]. rewrite Hk1 in Hk2. injection Hk2 as <-.
  destruct (Hown _ _ Hk1) as [_ Hnd].
  by eapply NoDup_lookup.
Qed.

(** X6. [removeItem] removes the item, and only it.  In every history
    of the provider a successful [removeItem] returns the list of the
    context without the one entry of that id, the others in their
    order, with the total summed anew over the entries that remain;
    the id is then gone, and removing it again is rejected with
    [ItemNotFoundError]. *)
Theorem removeItem_removes_the_item (calls : list (Z * clientCall))
    now contextId itemId cart p' :
  removeItem now contextId itemId (clientRun calls init) = (Ok cart, p') →
  ∃ cd i item,
    getValidContext now contextId (clientRun calls init) = Ok cd ∧
    items cd !! i = Some item ∧ CartItem.id item = itemId ∧
    Cart.items cart = delete i (items cd) ∧
    Cart.total cart = sumTotal (delete i (items cd)) ∧
    (itemId ∉ CartItem.id <$> Cart.items cart) ∧
    removeItem now contextId itemId p'
    = (Throw (ItemNotFoundError itemId), p').
Proof.
  set (p := clientRun calls init).
  destruct (clientRun_mintedOnce calls init mintedOnce_init)
    as [Hown _]. fold p in Hown.
  destruct (getValidContext now contextId p) as [cd|e] eqn:Hv.
  2:{ unfold removeItem. by rewrite Hv. }
  rewrite (removeItem_valid _ _ _ _ _ Hv).
  destruct (findById itemId (items cd)) as [[i item]|] eqn:Hf; [|done].
  cbv zeta. intros [= <- <-].
  pose proof Hv as [Hcd Hle]%getValidContext_Ok.
  apply list_find_Some in Hf as (Hi & Hid & _).
  destruct (Hown _ _ Hcd) as [_ Hnd].
  assert (itemId ∉ CartItem.id <$> delete i (items cd)) as Hgone.
  { rewrite list_fmap_delete. apply delete_NoDup_not_elem; [done|].
    by rewrite list_lookup_fmap, Hi, <-Hid. }
  exists cd, i, item. split_and!; [done..| | |done|].
  - done.
  - by rewrite buildCart_total.
  - unfold removeItem, with_contexts.
    rewrite getValidContext_insert by done. simpl.
    by apply findById_None in Hgone as ->.
Qed.

(** X7. [updateItem] changes one quantity.  In every history of the
    provider a successful [updateItem] rewrites the quantity of the one
    entry of that id and nothing else: every entry keeps its place, id,
    product, name and price, the total is summed anew over the
    rewritten list, and the same update made again returns the same cart
    and leaves the provider as it is. *)
Theorem updateItem_changes_one_quantity (calls : list (Z * clientCall))
    now contextId itemId quantity cart p' :
  updateItem now contextId itemId quantity (clientRun calls init)
  = (Ok cart, p') →
  ∃ cd i item,
    getValidContext now contextId (clientRun calls init) = Ok cd ∧
    items cd !! i = Some item ∧ CartItem.id item = itemId ∧
    (∀ j other, items cd !! j = Some other → CartItem.id other = itemId →
                j = i) ∧
    Cart.items cart
    = <[i := CartItem.with_quantity quantity item]> (items cd) ∧
    Cart.total cart
    = sumTotal (<[i := CartItem.with_quantity quantity item]> (items cd)) ∧
    updateItem now contextId itemId quantity p' = (Ok cart, p').
Proof.
  set (p := clientRun calls init).
  destruct (clientRun_mintedOnce calls init mintedOnce_init)
    as [Hown _]. fold p in Hown.
  destruct (getValidContext now contextId p) as [cd|e] eqn:Hv.
  2:{ unfold updateItem. by rewrite Hv. }
  rewrite (updateItem_valid _ _ _ _ _ _ Hv).
  destruct (findById itemId (items cd)) as [[i item]|] eqn:Hf; [|done].
  cbv zeta. intros [= <- <-].
  pose proof Hv as [Hcd Hle]%getValidContext_Ok.
  pose proof Hf as (Hi & Hid & Hfirst)%list_find_Some.
  destruct (Hown _ _ Hcd) as [_ Hnd].
  exists cd, i, item. split_and!; [done..| |done| |].
  - intros j other Hj Hother.
    eapply (NoDup_lookup _ _ _ itemId Hnd); unfold itemIds;
      rewrite list_lookup_fmap; [by rewrite Hj, <-Hother|by rewrite Hi, <-Hid].
  - by rewrite buildCart_total.
  - unfold updateItem, with_contexts.
    rewrite getValidContext_insert by done. cbn [items context contexts].
    assert (findById itemId
              (<[i := CartItem.with_quantity quantity item]> (items cd))
            = Some (i, CartItem.with_quantity quantity item)) as ->.
    { apply list_find_Some. split_and!.
      - apply list_lookup_insert_eq. by eapply lookup_lt_Some.
      - done.
      - intros j y Hj Hlt. rewrite list_lookup_insert_ne in Hj by lia.
        by eapply Hfirst. }
    rewrite list_insert_insert_eq, insert_insert_eq.
    by destruct item.
Qed.


Lemma clientAfter_contextsDrawn now (call : clientCall) p :
  contextsDrawn p → contextsDrawn (clientAfter now call p).
Proof.
  intros Hd.
  destruct (clientAfter_cases now call p)
    as [->|(key & cd' & n & u & -> & _ & Hu & Hcase)]; [done|].
  intros k cd0. cbn [contexts uuids].
  destruct (decide (k = key)) as [->|Hne].
  - intros _. destruct Hcase as [(-> & -> & _)|(cd & Hcd & _)].
    + exists (uuids p). split; [done|lia].
    + destruct (Hd _ _ Hcd) as (i & -> & Hi). exists i. split; [done|lia].
  - rewrite lookup_insert_ne by done. intros Hk.
    destruct (Hd _ _ Hk) as (i & -> & Hi). exists i. split; [done|lia].
Qed.

Lemma clientRun_contextsDrawn calls p :
  contextsDrawn p → contextsDrawn (clientRun calls p).
Proof.
  intros Hp. induction calls as [|timed calls IH] using rev_ind; [done|].
  rewrite clientRun_snoc. by apply clientAfter_contextsDrawn.
Qed.

Lemma contextsDrawn_init : contextsDrawn init.
Proof. intros key cd. simpl. by rewrite lookup_empty. Qed.

(** A call keeps every context in the table, with the expiry instant it
    had or, by [expireContext], an instant before the call. *)
Lemma clientAfter_expiresAt now (call : clientCall) p contextId cd :
  contextsDrawn p →
  contexts p !! contextId = Some cd →
  ∃ cd', contexts (clientAfter now call p) !! contextId = Some cd' ∧
         (CartContext.expiresAt (context cd')
          = CartContext.expiresAt (context cd) ∨
          CartContext.expiresAt (context cd') = (now - 1000)%Z).
Proof.
  intros Hd Hcd.
  destruct (clientAfter_cases now call p)
    as [->|(key & cd' & n & u & -> & _ & _ & Hcase)].
  { exists cd. split; [done|by left]. }
  cbn [contexts]. destruct (decide (contextId = key)) as [->|Hne].
  - rewrite lookup_insert_eq. exists cd'. split; [done|].
    destruct Hcase as [(-> & _)|(cd0 & Hcd0 & _ & Hexp & _)].
    + by destruct (drawn_fresh _ _ (Hd _ _ Hcd)).
    + rewrite Hcd in Hcd0. by injection Hcd0 as <-.
  - rewrite lookup_insert_ne by done. exists cd. split; [done|by left].
Qed.

(** X8. A context is never renewed and never deleted.  In every
    history of the provider, a context whose expiry instant is before
    [now] stays in the table and stays expired whatever calls are made
    up to [now]: every cart call on it at [now] is rejected with
    [ContextExpiredError] and changes nothing. *)
Theorem expiry_is_permanent (before after : list (Z * clientCall))
    now contextId cd :
  contexts (clientRun before init) !! contextId = Some cd →
  (CartContext.expiresAt (context cd) < now)%Z →
  Forall (λ timed, (timed.1 ≤ now)%Z) after →
  is_Some (contexts (clientRun after (clientRun before init)) !! contextId) ∧
  ∀ c, serve now contextId c (clientRun after (clientRun before init))
       = (Throw (ContextExpiredError contextId),
          clientRun after (clientRun before init)).
Proof.
  intros Hcd Hlt Hall.
  pose proof (clientRun_contextsDrawn before init contextsDrawn_init) as Hd.
  set (p := clientRun before init) in *.
  assert (∃ cd', contexts (clientRun after p) !! contextId = Some cd' ∧
                 (CartContext.expiresAt (context cd') < now)%Z)
    as (cd' & Hcd' & Hlt').
  { induction after as [|timed after IH] using rev_ind.
    { by exists cd. }
    apply Forall_app in Hall as [Hall Htimed].
    rewrite Forall_singleton in Htimed.
    destruct (IH Hall) as (cd1 & Hcd1 & Hlt1).
    rewrite clientRun_snoc.
    destruct (clientAfter_expiresAt timed.1 timed.2 _ _ _
                (clientRun_contextsDrawn after p Hd) Hcd1)
      as (cd2 & Hcd2 & Hexp).
    exists cd2. split; [done|]. destruct Hexp as [->| ->]; lia. }
  split; [by rewrite Hcd'|]. intros c.
  eapply serve_invalid, getValidContext_expired.
  intros cd0 Hcd0. rewrite Hcd' in Hcd0. by injection Hcd0 as <-.
Qed.


(** X9. The test helper expires a context and nothing else.  After
    [expireContext] at [now], every cart call on that context at [now]
    or later is rejected with [ContextExpiredError] and changes nothing;
    the context keeps its id and its items, the counters are as before,
    and on an id the provider does not hold the helper does nothing. *)
Theorem expireContext_expires now later contextId c p :
  (now ≤ later)%Z →
  serve later contextId c (expireContext now contextId p)
  = (Throw (ContextExpiredError contextId), expireContext now contextId p) ∧
  (items <$> contexts (expireContext now contextId p) !! contextId)
  = (items <$> contexts p !! contextId) ∧
  (CartContext.id ∘ context <$> contexts (expireContext now contextId p)
                                 !! contextId)
  = (CartContext.id ∘ context <$> contexts p !! contextId) ∧
  itemCounter (expireContext now contextId p) = itemCounter p ∧
  uuids (expireContext now contextId p) = uuids p ∧
  (contexts p !! contextId = None → expireContext now contextId p = p).
Proof.
  intros Hle. unfold expireContext.
  destruct (contexts p !! contextId) as [cd|] eqn:Hcd.
  - split_and!; [|by cbn; rewrite lookup_insert_eq..|done|done|done].
    eapply serve_invalid, getValidContext_expired.
    intros cd'. cbn [with_contexts contexts]. rewrite lookup_insert_eq.
    intros [= <-]. cbn. lia.
  - split_and!; [|by rewrite Hcd..|done|done|done].
    eapply serve_invalid, getValidContext_expired.
    intros cd'. by rewrite Hcd.
Qed.


End client_calls_facts.

Lemma calls_are_local_witness :
  SalesforceCartClient.contexts
    (clientAfter 9 (Serve "ctx_0" (CartService.RemoveItem "item_1")) c_two)
    !! "ctx_1"
  = SalesforceCartClient.contexts c_two !! "ctx_1".
Proof.
  apply (calls_are_local 9 (Serve "ctx_0" (CartService.RemoveItem "item_1"))
           c_two "ctx_1").
  simpl. discriminate.
Defined.

Lemma failed_call_changes_nothing_witness :
  (serve 9 "ctx_0" (CartService.RemoveItem "item_9") c_two).2 = c_two.
Proof.
  apply (failed_call_changes_nothing 9 "ctx_0"
           (CartService.RemoveItem "item_9") c_two
           (ItemNotFoundError "item_9")).
  vm_compute. reflexivity.
Defined.

Lemma mutation_is_read_back_witness :
  ∃ cart p',
    serve 9 "ctx_0" (CartService.UpdateItem "item_1" 4) c_two
    = (Ok cart, p') ∧
    SalesforceCartClient.getCart 9 "ctx_0" p' = (Ok cart, p').
Proof.
  eexists _, _. split; [vm_compute; reflexivity|].
  apply (mutation_is_read_back 9 "ctx_0"
           (CartService.UpdateItem "item_1" 4) c_two).
  vm_compute. reflexivity.
Defined.

Lemma item_ids_are_unique_witness : "ctx_0" = "ctx_0" ∧ 1 = 1.
Proof.
  eapply (item_ids_are_unique client_calls "ctx_0" "ctx_0" _ _ 1 1);
    vm_compute; reflexivity.
Defined.

Lemma removeItem_removes_the_item_witness :
  ∃ cart p',
    SalesforceCartClient.removeItem 9 "ctx_0" "item_1" c_two = (Ok cart, p') ∧
    Cart.items cart = [mkItem "item_2" "p2" "two" 50 2] ∧
    SalesforceCartClient.removeItem 9 "ctx_0" "item_1" p'
    = (Throw (ItemNotFoundError "item_1"), p').
Proof.
  eexists _, _. split; [vm_compute; reflexivity|].
  split; [reflexivity|].
  edestruct (removeItem_removes_the_item client_calls 9 "ctx_0" "item_1")
    as (cd & i & item & _ & _ & _ & _ & _ & _ & Hagain); [|exact Hagain].
  vm_compute. reflexivity.
Defined.

Lemma updateItem_changes_one_quantity_witness :
  ∃ cart p',
    SalesforceCartClient.updateItem 9 "ctx_0" "item_2" 5 c_two
    = (Ok cart, p') ∧
    Cart.total cart = 350%float ∧
    SalesforceCartClient.updateItem 9 "ctx_0" "item_2" 5 p' = (Ok cart, p').
Proof.
  eexists _, _. split; [vm_compute; reflexivity|].
  split; [reflexivity|].
  edestruct (updateItem_changes_one_quantity client_calls 9 "ctx_0" "item_2" 5)
    as (cd & i & item & _ & _ & _ & _ & _ & _ & Hagain); [|exact Hagain].
  vm_compute. reflexivity.
Defined.

Lemma expiry_is_permanent_witness :
  serve 1800001 "ctx_0" (CartService.AddItem item_p1)
    (clientRun [(1800000, Serve "ctx_0" CartService.GetCart);
                (1800001, CreateContext)]%Z c_two)
  = (Throw (ContextExpiredError "ctx_0"),
     clientRun [(1800000, Serve "ctx_0" CartService.GetCart);
                (1800001, CreateContext)]%Z c_two).
Proof.
  eapply (expiry_is_permanent client_calls).
  - vm_compute. reflexivity.
  - vm_compute. reflexivity.
  - repeat constructor; simpl; lia.
Defined.

(** ** The session table, over any provider *)

Section session_table.
Context {P : Type} `{!ISalesforceCartClient P}.
Implicit Types (s : CartService.t P) (session : SessionCart.t).

Import CartService.

Ltac run_service Hs :=
  unfold perform, getCart, addItem, removeItem, updateItem, touch,
    getSession, syncSessionItems, recoverContext, bind, try_catch, store,
    ret, throw, await;
  rewrite Hs; cbn [sessions uuids sfClient fst snd];
  repeat
    (match goal with
     | |- context [migrate ?n ?k ?l ?s0] => rewrite (migrate_replay n k l s0)
     | |- context [sf_createContext ?n ?p] =>
         destruct (sf_createContext n p) as [[?|?] ?] eqn:?
     | |- context [sf_getCart ?n ?k ?p] =>
         destruct (sf_getCart n k p) as [[?|?] ?] eqn:?
     | |- context [sf_addItem ?n ?k ?i ?p] =>
         destruct (sf_addItem n k i p) as [[?|?] ?] eqn:?
     | |- context [sf_removeItem ?n ?k ?i ?p] =>
         destruct (sf_removeItem n k i p) as [[?|?] ?] eqn:?
     | |- context [sf_updateItem ?n ?k ?i ?q ?p] =>
         destruct (sf_updateItem n k i q p) as [[?|?] ?] eqn:?
     | |- context [replay ?n ?k ?l ?p] =>
         destruct (replay n k l p) as [[[]|?] ?] eqn:?
     | |- context [instanceof_ContextExpiredError ?e] =>
         destruct (instanceof_ContextExpiredError e) eqn:?
     | |- context [find ?f ?l] => destruct (find f l) eqn:?
     end; cbn [sessions uuids sfClient fst snd]).

(** The entry an operation leaves under the session id: the session
    with its stamp renewed, bound to some context, holding the list
    written back. *)
Lemma perform_entry now sessionId session (c : call) s r s' :
  sessions s !! sessionId = Some session →
  perform now sessionId c s = (r, s') →
  ∃ contextId,
    sessions s'
    = <[sessionId :=
          {| SessionCart.sessionId := SessionCart.sessionId session;
             SessionCart.sfContextId := contextId;
             SessionCart.items := writtenBack c r (SessionCart.items session);
             SessionCart.createdAt := SessionCart.createdAt session;
             SessionCart.lastAccessed := now |}]> (sessions s) ∧
    uuids s' = uuids s.
Proof.
  intros Hs. destruct c as [|input|itemId|itemId quantity];
    run_service Hs; intros [= <- <-]; cbn [sessions uuids];
    rewrite ?insert_insert_eq; eexists; (split; [reflexivity|done]).
Qed.

(** X10. Sessions do not interfere, whatever the provider.  An operation
    on one session leaves the entry of every other session exactly as
    it was; it draws no identifier, and it neither adds nor removes a
    session. *)
Theorem sessions_are_isolated now sessionId (c : call) s other :
  other ≠ sessionId →
  sessions (perform now sessionId c s).2 !! other = sessions s !! other ∧
  uuids (perform now sessionId c s).2 = uuids s ∧
  (is_Some (sessions (perform now sessionId c s).2 !! sessionId)
   ↔ is_Some (sessions s !! sessionId)).
Proof.
  intros Hne.
  destruct (sessions s !! sessionId) as [session|] eqn:Hs.
  - destruct (perform now sessionId c s) as [r s'] eqn:Hp.
    destruct (perform_entry _ _ _ _ _ _ _ Hs Hp) as (contextId & Hs' & Hu).
    cbn [fst snd]. rewrite Hs', Hu.
    rewrite lookup_insert_ne by done. rewrite lookup_insert_eq.
    split_and!; [done|done|]. by split.
  - assert (perform now sessionId c s
            = (Throw (CartNotFoundError sessionId), s)) as ->.
    { destruct c; simpl;
        [by apply getCart_unknown|by apply addItem_unknown
        |by apply removeItem_unknown|by apply updateItem_unknown]. }
    simpl. by rewrite Hs.
Qed.

(** X11. What an operation does to its own session, whatever the
    provider.  The session keeps its id and its creation instant, and
    its last access is stamped with the instant of the call, also when
    the call fails.  Its item list changes in one way only: a
    successful [addItem], [removeItem] or [updateItem] replaces it with
    the items of the cart it returns; [getCart] and every failing call
    leave it as it was. *)
Theorem items_change_only_by_write_back now sessionId session (c : call) s :
  sessions s !! sessionId = Some session →
  ∃ session',
    sessions (perform now sessionId c s).2 !! sessionId = Some session' ∧
    SessionCart.sessionId session' = SessionCart.sessionId session ∧
    SessionCart.createdAt session' = SessionCart.createdAt session ∧
    SessionCart.lastAccessed session' = now ∧
    (∀ cart, (perform now sessionId c s).1 = Ok cart → c ≠ GetCart →
             SessionCart.items session' = Cart.items cart) ∧
    (c = GetCart ∨ is_Ok (perform now sessionId c s).1 = false →
     SessionCart.items session' = SessionCart.items session).
Proof.
  intros Hs. destruct (perform now sessionId c s) as [r s'] eqn:Hp.
  destruct (perform_entry _ _ _ _ _ _ _ Hs Hp) as (contextId & Hs' & _).
  cbn [fst snd]. rewrite Hs'.
  eexists. rewrite lookup_insert_eq. split; [reflexivity|].
  cbn [SessionCart.sessionId SessionCart.createdAt SessionCart.lastAccessed
       SessionCart.items fst snd].
  split_and!; [done..| |].
  - intros cart -> Hc. by destruct c.
  - intros [->|Hr]; [done|]. destruct r; [done|]. by destruct c.
Qed.


(** X12. No recovery unless the context expired, whatever the provider.
    When the provider answers the call of an operation with a cart or
    with any error other than [ContextExpiredError], the service hands
    that very answer to its caller, makes no further call to the
    provider, and leaves the session bound to the same context. *)
Theorem answers_pass_through now sessionId session (c : call) s r p :
  sessions s !! sessionId = Some session →
  sf_serve now (SessionCart.sfContextId session) c (sfClient s) = (r, p) →
  (∀ contextId, r ≠ Throw (ContextExpiredError contextId)) →
  (perform now sessionId c s).1 = r ∧
  sfClient (perform now sessionId c s).2 = p ∧
  (SessionCart.sfContextId
     <$> sessions (perform now sessionId c s).2 !! sessionId)
  = Some (SessionCart.sfContextId session).
Proof.
  intros Hs Hcall Hne.
  assert (match r with
          | Throw e => instanceof_ContextExpiredError e = false
          | Ok _ => True
          end) as Hr.
  { destruct r as [|e]; [done|]. destruct e; try done. by destruct (Hne contextId). }
  destruct c as [|input|itemId|itemId quantity]; simpl in Hcall;
    unfold perform, getCart, addItem, removeItem, updateItem, touch,
      getSession, syncSessionItems, bind, try_catch, store, ret, throw, await;
    rewrite Hs;
    cbn [sessions uuids sfClient fst snd SessionCart.sfContextId
         SessionCart.with_lastAccessed];
    rewrite Hcall; destruct r as [cart|e];
    cbn [sessions uuids sfClient fst snd]; rewrite ?Hr;
    cbn [sessions uuids sfClient fst snd throw];
    rewrite ?insert_insert_eq, lookup_insert_eq; done.
Qed.

(** X13. A failed recovery reaches the caller and costs the session
    nothing, whatever the provider.  When the provider rejects the call
    of an operation with [ContextExpiredError] and then the creation of
    the new context, or the replay of one of the session's items into
    it, throws, the operation throws [ContextRecoveryFailedError] for
    the session with that cause and is not retried; the session keeps
    its context id and its items, with the stamp renewed, so that a
    later operation starts the recovery afresh. *)
Theorem recovery_failure_reaches_caller now sessionId session (c : call) s
    contextId p cause p' :
  sessions s !! sessionId = Some session →
  sf_serve now (SessionCart.sfContextId session) c (sfClient s)
  = (Throw (ContextExpiredError contextId), p) →
  sf_createContext now p = (Throw cause, p') ∨
  (∃ newContext p1,
     sf_createContext now p = (Ok newContext, p1) ∧
     replay now (CartContext.id newContext) (SessionCart.items session) p1
     = (Throw cause, p')) →
  perform now sessionId c s
  = (Throw (ContextRecoveryFailedError (SessionCart.sessionId session)
              (if instanceof_Error cause then Some cause else None)),
     {| sessions :=
          <[sessionId := SessionCart.with_lastAccessed now session]>
            (sessions s);
        uuids := uuids s; sfClient := p' |}).
Proof.
  intros Hs Hcall Hfail.
  destruct c as [|input|itemId|itemId quantity]; simpl in Hcall;
    unfold perform, getCart, addItem, removeItem, updateItem, touch,
      getSession, syncSessionItems, recoverContext, bind, try_catch, store,
      ret, throw, await;
    rewrite Hs;
    cbn [sessions uuids sfClient fst snd SessionCart.sfContextId
         SessionCart.with_lastAccessed SessionCart.items
         SessionCart.sessionId];
    rewrite Hcall;
    cbn [sessions uuids sfClient fst snd instanceof_ContextExpiredError];
    (destruct Hfail as [Hcreate|(newContext & p1 & Hcreate & Hreplay)];
     rewrite Hcreate; cbn [sessions uuids sfClient fst snd]; [done|]);
    rewrite migrate_replay; cbn [sessions uuids sfClient fst snd];
    by rewrite Hreplay.
Qed.


(** X14. [createCart] fails only with the provider, and then adds no
    session, whatever the provider.  When [createContext] throws,
    [createCart] throws the same error, the session table is as before,
    and the route answers 500 [Failed to create cart]; when it returns
    a context, [createCart] returns the empty cart [cart_<sessionId>],
    the new session is bound to that context and holds no item, and
    the route answers 201. *)
Theorem createCart_follows_the_provider now s :
  match sf_createContext now (sfClient s) with
  | (Throw e, p) =>
      ∃ s', createCart now s = (Throw e, s') ∧
            sessions s' = sessions s ∧
            CartRoutes.handle now CartRoutes.POST_cart s
            = Some ({| CartRoutes.status := 500;
                       CartRoutes.json :=
                         CartRoutes.ErrorPayload "InternalServerError"
                           "Failed to create cart" None |}, s')
  | (Ok context, p) =>
      ∃ sessionId s',
        createCart now s
        = (Ok (sessionId,
               {| Cart.id := "cart_" +:+ sessionId; Cart.items := [];
                  Cart.total := 0 |}), s') ∧
        sessions s'
        = <[sessionId :=
              {| SessionCart.sessionId := sessionId;
                 SessionCart.sfContextId := CartContext.id context;
                 SessionCart.items := [];
                 SessionCart.createdAt := now;
                 SessionCart.lastAccessed := now |}]> (sessions s) ∧
        sfClient s' = p ∧
        CartRoutes.handle now CartRoutes.POST_cart s
        = Some ({| CartRoutes.status := 201;
                   CartRoutes.json :=
                     CartRoutes.CartPayload sessionId
                       {| Cart.id := "cart_" +:+ sessionId; Cart.items := [];
                          Cart.total := 0 |} |}, s')
  end.
Proof.
  cbn [CartRoutes.handle]. unfold CartRoutes.postCart.
  cbn [cs_createCart CartService_service].
  unfold createCart, bind, fresh_uuid, await, store, ret.
  cbn [sessions uuids sfClient].
  destruct (sf_createContext now (sfClient s)) as [[context|e] p].
  - by eexists _, _.
  - by eexists.
Qed.


End session_table.

Lemma sessions_are_isolated_witness :
  CartService.sessions
    (CartService.perform 7 "sess_0" (CartService.AddItem item_p2) w_two).2
    !! "sess_1"
  = CartService.sessions w_two !! "sess_1".
Proof.
  apply (sessions_are_isolated 7 "sess_0" (CartService.AddItem item_p2)
           w_two "sess_1").
  discriminate.
Defined.

Lemma items_change_only_by_write_back_witness :
  ∃ session',
    CartService.sessions
      (CartService.perform 7 "sess_0" CartService.GetCart w_one_expired).2
      !! "sess_0" = Some session' ∧
    SessionCart.lastAccessed session' = 7%Z ∧
    SessionCart.items session' = SessionCart.items session_one.
Proof.
  edestruct (items_change_only_by_write_back 7 "sess_0" session_one
               CartService.GetCart w_one_expired)
    as (session' & Hs' & _ & _ & Hstamp & _ & Hitems);
    [vm_compute; reflexivity|].
  exists session'. split_and!; [done|done|]. apply Hitems. by left.
Defined.

Lemma answers_pass_through_witness :
  (CartService.perform 0 "sess_0" (CartService.RemoveItem "item_999")
     w_one).1
  = Throw (ItemNotFoundError "item_999").
Proof.
  eapply (answers_pass_through 0 "sess_0" session_one
            (CartService.RemoveItem "item_999") w_one).
  - vm_compute. reflexivity.
  - vm_compute. reflexivity.
  - intros contextId. discriminate.
Defined.

Lemma recovery_failure_reaches_caller_witness :
  CartService.perform 0 "sess_0" (CartService.AddItem item_p2) s_outage
  = (Throw (ContextRecoveryFailedError "sess_0"
              (Some (OtherError "Salesforce unavailable"))),
     {| CartService.sessions :=
          <["sess_0" := SessionCart.with_lastAccessed 0 session_one]>
            (CartService.sessions s_outage);
        CartService.uuids := 1; CartService.sfClient := unavailable |}).
Proof.
  eapply (recovery_failure_reaches_caller 0 "sess_0" session_one
            (CartService.AddItem item_p2) s_outage "ctx_0" unavailable
            (OtherError "Salesforce unavailable") unavailable).
  - vm_compute. reflexivity.
  - reflexivity.
  - left. reflexivity.
Defined.

(** ** What the service answers, in any world and in reachable ones *)

Section service_answers.
Import CartService.
Implicit Types (w : World) (session : SessionCart.t).

Lemma sumTotal_snoc (l : list CartItem.t) item :
  sumTotal (l ++ [item])
  = (sumTotal l + CartItem.price item * CartItem.quantity item)%float.
Proof.
  unfold sumTotal. generalize 0%float.
  induction l as [|x l IH]; intros acc; simpl; [done|]. apply IH.
Qed.

Lemma contents_app (l1 l2 : list CartItem.t) :
  contents (l1 ++ l2) = contents l1 ++ contents l2.
Proof. apply map_app. Qed.

Lemma find_id_None itemId (l : list CartItem.t) :
  find (λ item, CartItem.id item = itemId) l = None
  ↔ itemId ∉ CartItem.id <$> l.
Proof.
  rewrite <-findById_None. unfold find, SalesforceCartClient.findById.
  by destruct (list_find _ l).
Qed.

(** An operation on a session whose context is expired is the same
    operation, its item id translated, on the recovered world, where
    the session is bound to a valid context holding its items. *)
Lemma recovered_or_live now sessionId session w :
  sessions w !! sessionId = Some session →
  ∃ session1 (w1 : World) cd,
    sessions w1 !! sessionId = Some session1 ∧
    SalesforceCartClient.getValidContext now
      (SessionCart.sfContextId session1) (sfClient w1) = Ok cd ∧
    SessionCart.items session1 = SessionCart.items session ∧
    (consistent w → consistent w1 ∧
       contents (SalesforceCartClient.items cd)
       = contents (SessionCart.items session)) ∧
    (w1 = w ∧ session1 = session ∨
     expired now (SessionCart.sfContextId session) (sfClient w) ∧
     w1 = recoveredW now sessionId session w ∧
     cd = recoveredData now session (sfClient w)).
Proof.
  intros Hs.
  destruct (live_or_expired now (SessionCart.sfContextId session) (sfClient w))
    as [[cd Hv]|Hexp].
  - exists session, w, cd. split_and!; [done..| |by left].
    intros Hw. split; [done|].
    destruct Hw as (_ & _ & _ & Hmirror).
    apply getValidContext_Ok in Hv as [Hcd _].
    symmetry. by eapply Hmirror.
  - eexists _, (recoveredW now sessionId session w), _.
    split_and!; [apply recoveredW_session|apply recoveredW_live|done| |].
    + intros Hw. split; [by apply consistent_recoveredW|].
      apply contents_relabel.
    + right. by split_and!.
Qed.

Lemma getCart_answer now sessionId session w :
  consistent w →
  sessions w !! sessionId = Some session →
  ∃ cart,
    (getCart now sessionId w).1 = Ok cart ∧
    contents (Cart.items cart) = contents (SessionCart.items session) ∧
    Cart.total cart = sumTotal (SessionCart.items session).
Proof.
  intros Hw Hs.
  destruct (recovered_or_live now _ _ _ Hs)
    as (session1 & w1 & cd & Hs1 & Hv1 & _ & Hcons & Hcase).
  destruct (Hcons Hw) as [_ Hcontents].
  assert (getCart now sessionId w = getCart now sessionId w1) as ->.
  { destruct Hcase as [[-> _]|(Hexp & -> & _)]; [done|].
    by apply getCart_recovers. }
  pose proof (perform_live now _ _ GetCart _ _ Hs1 Hv1) as Hp.
  cbn [perform effect] in Hp. rewrite Hp. eexists. split; [done|].
  cbn [fst snd]. split; [done|].
  rewrite buildCart_total. by apply sumTotal_contents.
Qed.

Lemma addItem_answer now sessionId session input w :
  consistent w →
  sessions w !! sessionId = Some session →
  ∃ cart,
    (addItem now sessionId input w).1 = Ok cart ∧
    contents (Cart.items cart)
    = contents (SessionCart.items session) ++ [input] ∧
    Cart.total cart
    = (sumTotal (SessionCart.items session)
       + CartItemInput.price input * CartItemInput.quantity input)%float.
Proof.
  intros Hw Hs.
  destruct (recovered_or_live now _ _ _ Hs)
    as (session1 & w1 & cd & Hs1 & Hv1 & _ & Hcons & Hcase).
  destruct (Hcons Hw) as [_ Hcontents].
  assert (addItem now sessionId input w = addItem now sessionId input w1)
    as ->.
  { destruct Hcase as [[-> _]|(Hexp & -> & _)]; [done|].
    by apply addItem_recovers. }
  pose proof (perform_live now _ _ (AddItem input) _ _ Hs1 Hv1) as Hp.
  cbn [perform effect] in Hp. rewrite Hp. eexists. split; [done|].
  cbn [fst snd]. split.
  - cbn [SalesforceCartClient.buildCart Cart.items SalesforceCartClient.items].
    by rewrite contents_app, Hcontents; simpl; rewrite toInput_mint.
  - rewrite buildCart_total. cbn [SalesforceCartClient.items].
    by rewrite sumTotal_snoc, (sumTotal_contents _ _ Hcontents).
Qed.

(** X15. Reading and adding never fail on a known session.  In every
    reachable world, at any instant and whether the session's context
    is valid, expired or has been expired by hand, [getCart] returns the
    session's items (product, name, price, quantity, in order) with
    their total, and [addItem] returns them followed by the new item.
    The totals are those of the code's arithmetic: the sum of price ×
    quantity taken in the order of the list with binary64 rounding, to
    which [addItem] adds, rounding once more, the price × quantity of
    the new item. *)
Theorem read_and_add_always_succeed now sessionId session input w :
  reachable w →
  sessions w !! sessionId = Some session →
  (∃ cart,
     (getCart now sessionId w).1 = Ok cart ∧
     contents (Cart.items cart) = contents (SessionCart.items session) ∧
     Cart.total cart = sumTotal (SessionCart.items session)) ∧
  (∃ cart,
     (addItem now sessionId input w).1 = Ok cart ∧
     contents (Cart.items cart)
     = contents (SessionCart.items session) ++ [input] ∧
     Cart.total cart
     = (sumTotal (SessionCart.items session)
        + CartItemInput.price input * CartItemInput.quantity input)%float).
Proof.
  intros Hw%reachable_consistent Hs.
  split; [by apply getCart_answer|by apply addItem_answer].
Qed.

Lemma live_outcome now sessionId session (c : call) itemId w cd :
  sessions w !! sessionId = Some session →
  SalesforceCartClient.getValidContext now (SessionCart.sfContextId session)
    (sfClient w) = Ok cd →
  c = RemoveItem itemId ∨ (∃ quantity, c = UpdateItem itemId quantity) →
  (itemId ∈ itemIds cd → is_Ok (perform now sessionId c w).1 = true) ∧
  (itemId ∉ itemIds cd →
   (perform now sessionId c w).1 = Throw (ItemNotFoundError itemId)).
Proof.
  intros Hs Hv Hc. rewrite (perform_live _ _ _ c _ _ Hs Hv).
  assert (effect c (SalesforceCartClient.itemCounter (sfClient w))
            (SalesforceCartClient.items cd) = None
          ↔ itemId ∉ itemIds cd) as Hnone.
  { unfold itemIds. rewrite <-findById_None.
    destruct Hc as [->|[quantity ->]]; simpl;
      by destruct (SalesforceCartClient.findById _ _) as [[??]|]. }
  assert (target c = itemId) as Htarget.
  { by destruct Hc as [->|[quantity ->]]. }
  destruct (effect c _ _) as [l'|]; simpl.
  - split; [done|]. intros Hnot%Hnone. done.
  - split; [|by rewrite Htarget]. intros Hin.
    by destruct (proj1 Hnone).
Qed.

Lemma expired_outcome now sessionId session (c : call) itemId w :
  sessions w !! sessionId = Some session →
  c = RemoveItem itemId ∨ (∃ quantity, c = UpdateItem itemId quantity) →
  expired now (SessionCart.sfContextId session) (sfClient w) →
  (itemId ∈ CartItem.id <$> SessionCart.items session →
   is_Ok (perform now sessionId c w).1 = true) ∧
  (itemId ∉ CartItem.id <$> SessionCart.items session →
   (perform now sessionId c w).1
   = Throw (ContextExpiredError (SessionCart.sfContextId session))).
Proof.
  intros Hs Hc Hexp. rewrite (perform_recovers _ _ _ c _ Hs Hexp).
  destruct (find (λ item, CartItem.id item = itemId)
              (SessionCart.items session)) as [old|] eqn:Hfind.
  - destruct (find_Some_elem _ _ _ Hfind) as [Hold Hid].
    destruct (relabel_covers
                (SalesforceCartClient.itemCounter (sfClient w)) _ _ Hold)
      as (newItem & Hnew & Hproduct).
    destruct (find_is_Some
                (λ item, CartItem.productId item = CartItem.productId old)
                _ _ Hnew Hproduct) as [found Hfound].
    destruct (find_Some_elem _ _ _ Hfound) as [Hin _].
    assert (∃ c', remap sessionId session
                    (SalesforceCartClient.items
                       (recoveredData now session (sfClient w))) c = inr c' ∧
                  (c' = RemoveItem (CartItem.id found) ∨
                   ∃ quantity, c' = UpdateItem (CartItem.id found) quantity))
      as (c' & -> & Hc').
    { destruct Hc as [->|[quantity ->]]; unfold remap;
        cbn [recoveredData SalesforceCartClient.items];
        rewrite Hfind, Hfound; eexists; (split; [done|]);
        [by left|right; by eexists]. }
    destruct (live_outcome now sessionId _ c' (CartItem.id found) _ _
                (recoveredW_session now sessionId session w)
                (recoveredW_live now sessionId session w) Hc')
      as [Hok _].
    split.
    + intros _. apply Hok. unfold itemIds.
      apply list_elem_of_fmap. by exists found.
    + intros Hnot. by apply find_id_None in Hnot; rewrite Hnot in Hfind.
  - assert (remap sessionId session
              (SalesforceCartClient.items
                 (recoveredData now session (sfClient w))) c
            = inl (ContextExpiredError (SessionCart.sfContextId session)))
      as ->.
    { destruct Hc as [->|[quantity ->]]; unfold remap; by rewrite Hfind. }
    split; [|done]. intros Hin. by apply find_id_None in Hfind.
Qed.


(** X16. The outcomes of [removeItem] and [updateItem] on a known
    session, in any world.  While the context is valid the call
    succeeds exactly when the context holds an item of that id, and
    otherwise throws [ItemNotFoundError].  Once the context is expired
    the call succeeds exactly when the session's own list holds an item
    of that id, and otherwise throws the provider's
    [ContextExpiredError] for the old context; so it never throws
    [ContextRecoveryFailedError] or [CartNotFoundError]. *)
Theorem remove_and_update_outcomes now sessionId session (c : call) itemId w :
  sessions w !! sessionId = Some session →
  c = RemoveItem itemId ∨ (∃ quantity, c = UpdateItem itemId quantity) →
  (∀ cd, SalesforceCartClient.getValidContext now
           (SessionCart.sfContextId session) (sfClient w) = Ok cd →
     (itemId ∈ itemIds cd → is_Ok (perform now sessionId c w).1 = true) ∧
     (itemId ∉ itemIds cd →
      (perform now sessionId c w).1 = Throw (ItemNotFoundError itemId))) ∧
  (expired now (SessionCart.sfContextId session) (sfClient w) →
     (itemId ∈ CartItem.id <$> SessionCart.items session →
      is_Ok (perform now sessionId c w).1 = true) ∧
     (itemId ∉ CartItem.id <$> SessionCart.items session →
      (perform now sessionId c w).1
      = Throw (ContextExpiredError (SessionCart.sfContextId session)))).
Proof.
  intros Hs Hc. split.
  - intros cd Hv. by eapply live_outcome.
  - by apply expired_outcome.
Qed.

Lemma perform_other now sessionId other (c : call) w :
  other ≠ sessionId →
  sessions (perform now sessionId c w).2 !! other = sessions w !! other.
Proof.
  intros Hne. destruct (sessions w !! sessionId) as [session|] eqn:Hs.
  - destruct (perform now sessionId c w) as [r w'] eqn:Hp.
    destruct (perform_entry _ _ _ _ _ _ _ Hs Hp) as (contextId & Hs' & _).
    cbn [snd]. rewrite Hs'. by apply lookup_insert_ne.
  - by rewrite (perform_unknown _ _ _ _ Hs).
Qed.

(** In a consistent world what [getCart] shows of a session is a
    function of the session's own list. *)
Lemma getCart_view later sessionId w :
  consistent w →
  view (getCart later sessionId w).1
  = (λ session,
       (map (λ item, (CartItem.productId item, CartItem.quantity item))
          (SessionCart.items session),
        sumTotal (SessionCart.items session)))
    <$> sessions w !! sessionId.
Proof.
  intros Hw. destruct (sessions w !! sessionId) as [session|] eqn:Hs.
  - destruct (getCart_answer later _ _ _ Hw Hs)
      as (cart & -> & Hcontents & Htotal).
    simpl. by rewrite (view_contents _ _ Hcontents), Htotal.
  - by rewrite (getCart_unknown _ _ _ Hs).
Qed.

(** X17. Sessions do not observe each other, nor any expiry.  In every
    reachable world, what [getCart] shows of a session (products with
    their quantities, and the total) at any later instant is not
    changed by an operation on another session, by the expiry of any
    context, its own included, or by the creation of another cart. *)
Theorem sessions_do_not_observe_each_other now later sessionId other
    (c : call) contextId w :
  reachable w →
  other ≠ sessionId →
  view (getCart later other (perform now sessionId c w).2).1
  = view (getCart later other w).1 ∧
  view (getCart later other (expireContext now contextId w)).1
  = view (getCart later other w).1 ∧
  (other ≠ createdId w →
   view (getCart later other (createCart now w).2).1
   = view (getCart later other w).1).
Proof.
  intros Hr Hne. pose proof (reachable_consistent _ Hr) as Hw.
  rewrite (getCart_view later other w Hw).
  rewrite (getCart_view later other _ (consistent_perform now sessionId c w Hw)).
  rewrite (getCart_view later other _
             (consistent_expireContext now contextId w Hw)).
  rewrite (getCart_view later other _ (consistent_createCart now w Hw)).
  split_and!.
  - by rewrite perform_other.
  - done.
  - intros Hnew. rewrite createCart_World. cbn [snd sessions].
    by rewrite lookup_insert_ne.
Qed.

Lemma live_after_call now sessionId session (c : call) w cd :
  sessions w !! sessionId = Some session →
  SalesforceCartClient.getValidContext now (SessionCart.sfContextId session)
    (sfClient w) = Ok cd →
  ∃ session' cd',
    sessions (perform now sessionId c w).2 !! sessionId = Some session' ∧
    SalesforceCartClient.getValidContext now
      (SessionCart.sfContextId session') (sfClient (perform now sessionId c w).2)
    = Ok cd'.
Proof.
  intros Hs Hv. rewrite (perform_live _ _ _ c _ _ Hs Hv).
  pose proof Hv as [Hcd Hle]%getValidContext_Ok.
  destruct (effect c _ _) as [l'|]; cbn [snd].
  - destruct c; cbn [servedW];
      try (eexists _, _; unfold touchedW; cbn [sessions sfClient];
           rewrite lookup_insert_eq; split; [reflexivity|];
           cbn [SessionCart.sfContextId SessionCart.with_lastAccessed
                SessionCart.with_items];
           first [exact Hv|by apply getValidContext_insert]).
  - eexists _, _. unfold touchedW. cbn [sessions sfClient].
    rewrite lookup_insert_eq. split; [reflexivity|]. exact Hv.
Qed.

(** X18. After any operation the session is bound to a valid context.
    In any world, an operation on a known session, whether it succeeds
    or throws, leaves the session bound to a context the provider
    accepts at that instant; in a reachable world that context holds
    the session's items. *)
Theorem session_is_live_after_call now sessionId session (c : call) w :
  sessions w !! sessionId = Some session →
  ∃ session' cd,
    sessions (perform now sessionId c w).2 !! sessionId = Some session' ∧
    SalesforceCartClient.getValidContext now
      (SessionCart.sfContextId session') (sfClient (perform now sessionId c w).2)
    = Ok cd ∧
    (reachable w →
     contents (SalesforceCartClient.items cd)
     = contents (SessionCart.items session')).
Proof.
  intros Hs.
  assert (∃ session' cd,
    sessions (perform now sessionId c w).2 !! sessionId = Some session' ∧
    SalesforceCartClient.getValidContext now
      (SessionCart.sfContextId session') (sfClient (perform now sessionId c w).2)
    = Ok cd) as (session' & cd & Hs' & Hv').
  { destruct (live_or_expired now (SessionCart.sfContextId session)
                (sfClient w)) as [[cd Hv]|Hexp]; [by eapply live_after_call|].
    rewrite (perform_recovers _ _ _ c _ Hs Hexp).
    destruct (remap _ _ _ c) as [e|c'].
    - eexists _, _. split; [apply recoveredW_session|apply recoveredW_live].
    - eapply live_after_call; [apply recoveredW_session|apply recoveredW_live]. }
  exists session', cd. split_and!; [done..|].
  intros Hr%reachable_consistent.
  destruct (consistent_perform now sessionId c _ Hr) as (_ & _ & _ & Hmirror).
  apply getValidContext_Ok in Hv' as [Hcd _].
  symmetry. by eapply Hmirror.
Qed.


Lemma contextsDrawn_insert (p : SalesforceCartClient.t) key cd' n u :
  contextsDrawn p →
  drawn key u →
  SalesforceCartClient.uuids p ≤ u →
  contextsDrawn
    {| SalesforceCartClient.contexts :=
         <[key := cd']> (SalesforceCartClient.contexts p);
       SalesforceCartClient.itemCounter := n;
       SalesforceCartClient.uuids := u |}.
Proof.
  intros Hd Hkey Hu k cd0. cbn [SalesforceCartClient.contexts
                                SalesforceCartClient.uuids].
  destruct (decide (k = key)) as [->|Hne].
  - by intros _.
  - rewrite lookup_insert_ne by done. intros Hk.
    destruct (Hd _ _ Hk) as (i & -> & Hi). exists i. split; [done|lia].
Qed.

Lemma contextsDrawn_perform now sessionId (c : call) w :
  contextsDrawn (sfClient w) →
  contextsDrawn (sfClient (perform now sessionId c w).2).
Proof.
  intros Hd.
  destruct (sessions w !! sessionId) as [session|] eqn:Hs; last first.
  { by rewrite (perform_unknown _ _ _ _ Hs). }
  assert (∀ session0 (w0 : World) cd0 c0,
    sessions w0 !! sessionId = Some session0 →
    SalesforceCartClient.getValidContext now
      (SessionCart.sfContextId session0) (sfClient w0) = Ok cd0 →
    contextsDrawn (sfClient w0) →
    contextsDrawn (sfClient (perform now sessionId c0 w0).2)) as Hlive.
  { intros session0 w0 cd0 c0 Hs0 Hv0 Hd0.
    rewrite (perform_live _ _ _ c0 _ _ Hs0 Hv0).
    apply getValidContext_Ok in Hv0 as [Hcd0 _].
    destruct (effect c0 _ _) as [l'|]; [|done].
    destruct c0; cbn [snd servedW touchedW sfClient]; [done|..];
      (apply contextsDrawn_insert; [done|by eapply Hd0|done]). }
  destruct (live_or_expired now (SessionCart.sfContextId session) (sfClient w))
    as [[cd Hv]|Hexp]; [by eapply Hlive|].
  assert (contextsDrawn (sfClient (recoveredW now sessionId session w)))
    as Hrec.
  { apply contextsDrawn_insert; [done| |lia].
    exists (SalesforceCartClient.uuids (sfClient w)). split; [done|lia]. }
  rewrite (perform_recovers _ _ _ c _ Hs Hexp).
  destruct (remap _ _ _ c) as [e|c']; [done|].
  eapply Hlive; [apply recoveredW_session|apply recoveredW_live|done].
Qed.

Lemma reachable_contextsDrawn w : reachable w → contextsDrawn (sfClient w).
Proof.
  induction 1 as [|now w _ IH|now sessionId c w _ IH|now contextId w _ IH].
  - apply contextsDrawn_init.
  - rewrite createCart_World. cbn [snd sfClient].
    by apply (clientAfter_contextsDrawn now CreateContext).
  - by apply contextsDrawn_perform.
  - by apply (clientAfter_contextsDrawn now (ExpireContext contextId)).
Qed.

Lemma reachable_issued w : reachable w → issued w.
Proof.
  induction 1 as [|now w _ IH|now sessionId c w _ IH|now contextId w _ IH].
  - intros sessionId session. simpl. by rewrite lookup_empty.
  - rewrite createCart_World. intros sessionId session. cbn [snd sessions uuids].
    destruct (decide (sessionId = "sess_" +:+ randomUUID (uuids w)))
      as [->|Hne].
    + intros _. exists (uuids w). split; [done|lia].
    + rewrite lookup_insert_ne by done. intros Hs.
      destruct (IH _ _ Hs) as (k & -> & Hk). exists k. split; [done|lia].
  - intros other session' Hother. rewrite perform_uuids.
    destruct (decide (other = sessionId)) as [->|Hne].
    + destruct (sessions w !! sessionId) as [session|] eqn:Hs.
      * by eapply IH.
      * rewrite (perform_unknown _ _ _ _ Hs) in Hother. simpl in Hother.
        by rewrite Hs in Hother.
    + rewrite perform_other in Hother by done. by eapply IH.
  - exact IH.
Qed.

(** X19. [createCart] opens a session of its own.  In every reachable
    world [createCart] succeeds and returns a session id no session had
    before, with the empty cart [cart_<sessionId>] of total 0; the new
    session holds no item and is bound to a context the provider did
    not hold before; every other session is left as it was; and
    [getCart] on the new session answers the empty cart of that context
    at every instant up to thirty minutes after the creation. *)
Theorem createCart_opens_fresh_session now later w :
  reachable w →
  ∃ sessionId session,
    (createCart now w).1
    = Ok (sessionId,
          {| Cart.id := "cart_" +:+ sessionId; Cart.items := [];
             Cart.total := 0 |}) ∧
    sessions w !! sessionId = None ∧
    sessions (createCart now w).2 !! sessionId = Some session ∧
    SessionCart.sessionId session = sessionId ∧
    SessionCart.items session = [] ∧
    SalesforceCartClient.contexts (sfClient w)
      !! SessionCart.sfContextId session = None ∧
    (∀ other, other ≠ sessionId →
       sessions (createCart now w).2 !! other = sessions w !! other) ∧
    ((later ≤ now + 1800000)%Z →
     (getCart later sessionId (createCart now w).2).1
     = Ok {| Cart.id := "cart_" +:+ SessionCart.sfContextId session;
             Cart.items := []; Cart.total := 0 |}).
Proof.
  intros Hr. rewrite createCart_World. cbn [fst snd sessions].
  eexists _, _. split; [reflexivity|].
  rewrite lookup_insert_eq.
  split_and!; [|reflexivity|reflexivity|reflexivity| | |].
  - destruct (sessions w !! _) as [session|] eqn:Hs; [|done].
    destruct (reachable_issued _ Hr _ _ Hs) as (k & Heq & Hk).
    apply (inj (String.append "sess_")) in Heq.
    unfold randomUUID in Heq. apply pretty_nat_inj in Heq. lia.
  - cbn [SessionCart.sfContextId].
    destruct (SalesforceCartClient.contexts (sfClient w) !! _)
      as [cd|] eqn:Hcd; [|done].
    by destruct (drawn_fresh _ _ (reachable_contextsDrawn _ Hr _ _ Hcd)).
  - intros other Hne. by rewrite lookup_insert_ne.
  - intros Hle. cbn [SessionCart.sfContextId].
    erewrite getCart_served; [reflexivity|apply lookup_insert_eq|].
    cbn [SessionCart.sfContextId sfClient].
    unfold SalesforceCartClient.getCart, SalesforceCartClient.createContext.
    cbn [snd]. by rewrite getValidContext_insert.
Qed.


(** The context an operation leaves its session bound to: the one it
    had, or, the context being expired, the one the recovery made. *)
Lemma perform_binding now sessionId session (c : call) w :
  sessions w !! sessionId = Some session →
  ∃ session',
    sessions (perform now sessionId c w).2 !! sessionId = Some session' ∧
    ((∃ cd, SalesforceCartClient.getValidContext now
              (SessionCart.sfContextId session) (sfClient w) = Ok cd) ∧
     SessionCart.sfContextId session' = SessionCart.sfContextId session ∧
     SalesforceCartClient.uuids (sfClient (perform now sessionId c w).2)
     = SalesforceCartClient.uuids (sfClient w) ∨
     expired now (SessionCart.sfContextId session) (sfClient w) ∧
     SessionCart.sfContextId session' = recoveredId (sfClient w) ∧
     SalesforceCartClient.uuids (sfClient (perform now sessionId c w).2)
     = S (SalesforceCartClient.uuids (sfClient w))).
Proof.
  intros Hs.
  assert (∀ session0 (w0 : World) cd0 c0,
    sessions w0 !! sessionId = Some session0 →
    SalesforceCartClient.getValidContext now
      (SessionCart.sfContextId session0) (sfClient w0) = Ok cd0 →
    ∃ session',
      sessions (perform now sessionId c0 w0).2 !! sessionId = Some session' ∧
      SessionCart.sfContextId session' = SessionCart.sfContextId session0 ∧
      SalesforceCartClient.uuids (sfClient (perform now sessionId c0 w0).2)
      = SalesforceCartClient.uuids (sfClient w0)) as Hlive.
  { intros session0 w0 cd0 c0 Hs0 Hv0.
    rewrite (perform_live _ _ _ c0 _ _ Hs0 Hv0).
    destruct (effect c0 _ _) as [l'|]; cbn [snd].
    - destruct (servedW_session now sessionId session0 cd0 c0 l' w0)
        as (session' & Hs' & Hctx).
      exists session'. split_and!; [done..|]. apply servedW_uuids.
    - eexists. unfold touchedW. cbn [sessions sfClient].
      rewrite lookup_insert_eq. by split_and!. }
  destruct (live_or_expired now (SessionCart.sfContextId session) (sfClient w))
    as [[cd Hv]|Hexp].
  { destruct (Hlive _ _ _ c Hs Hv) as (session' & Hs' & Hctx & Hu).
    exists session'. split; [done|]. left. split_and!; [by exists cd|done..]. }
  rewrite (perform_recovers _ _ _ c _ Hs Hexp).
  destruct (remap _ _ _ c) as [e|c'].
  - eexists. split; [apply recoveredW_session|]. right. by split_and!.
  - destruct (Hlive _ _ _ c' (recoveredW_session now sessionId session w)
                (recoveredW_live now sessionId session w))
      as (session' & Hs' & Hctx & Hu).
    exists session'. split; [done|]. right. by split_and!.
Qed.

Lemma unbound_step (w w' : World) contextId :
  evolves w w' →
  unbound contextId w →
  drawn contextId (SalesforceCartClient.uuids (sfClient w)) →
  unbound contextId w' ∧
  drawn contextId (SalesforceCartClient.uuids (sfClient w')).
Proof.
  intros Hev Hun Hdrawn.
  induction Hev as [w|now w w' _ IH|now sessionId c w w' _ IH
                   |now other w w' _ IH]; [done|..];
    destruct (IH Hun Hdrawn) as [Hun' Hdrawn']; clear IH.
  - rewrite createCart_World. cbn [snd sessions sfClient]. split.
    + intros sid session'. cbn [sessions].
      destruct (decide (sid = "sess_" +:+ randomUUID (uuids w')))
        as [->|Hne].
      * rewrite lookup_insert_eq. intros [= <-]. cbn [SessionCart.sfContextId].
        intros Heq. by destruct (drawn_fresh _ _ Hdrawn').
      * rewrite lookup_insert_ne by done. apply Hun'.
    + destruct Hdrawn' as (k & -> & Hk). exists k.
      split; [done|]. simpl. lia.
  - destruct (sessions w' !! sessionId) as [session|] eqn:Hs; last first.
    { by rewrite (perform_unknown _ _ _ _ Hs). }
    destruct (perform_binding now _ _ c _ Hs)
      as (session' & Hs' & Hcase).
    split.
    + intros sid session0.
      destruct (decide (sid = sessionId)) as [->|Hne].
      * rewrite Hs'. intros [= <-].
        destruct Hcase as [(_ & -> & _)|(_ & -> & _)].
        -- by eapply Hun'.
        -- intros Heq. by destruct (drawn_fresh _ _ Hdrawn').
      * rewrite perform_other by done. apply Hun'.
    + destruct Hdrawn' as (k & -> & Hk). exists k. split; [done|].
      destruct Hcase as [(_ & _ & ->)|(_ & _ & ->)]; lia.
  - split; [done|].
    destruct Hdrawn' as (k & -> & Hk). exists k. split; [done|].
    unfold expireContext. cbn [sfClient].
    unfold SalesforceCartClient.expireContext.
    by destruct (SalesforceCartClient.contexts _ !! _).
Qed.

(** X20. An abandoned context is never revisited.  In every reachable
    world, once an operation has found the context of its session
    expired and recovered, no session is bound to that context any
    more, the session itself included, and none ever is again, whatever
    carts are created, operations performed and contexts expired
    afterwards. *)
Theorem abandoned_contexts_are_never_revisited now sessionId session
    (c : call) w w' :
  reachable w →
  sessions w !! sessionId = Some session →
  expired now (SessionCart.sfContextId session) (sfClient w) →
  evolves (perform now sessionId c w).2 w' →
  unbound (SessionCart.sfContextId session) w'.
Proof.
  intros Hr Hs Hexp Hev.
  destruct (reachable_consistent _ Hr) as (_ & Hdrawn & Hinj & _).
  pose proof (Hdrawn _ _ Hs) as Hk.
  destruct (perform_binding now _ _ c _ Hs) as (session' & Hs' & Hcase).
  destruct Hcase as [([cd Hv] & _)|(_ & Hctx & Hu)].
  { apply getValidContext_Ok in Hv as [Hcd Hle].
    specialize (Hexp _ Hcd). lia. }
  eapply (unbound_step _ _ _ Hev).
  - intros sid session0.
    destruct (decide (sid = sessionId)) as [->|Hne].
    + rewrite Hs'. intros [= <-]. rewrite Hctx.
      intros Heq. by destruct (drawn_fresh _ _ Hk).
    + rewrite perform_other by done. intros Hsid Heq.
      by destruct (Hne (Hinj _ _ _ _ Hsid Hs Heq)).
  - destruct Hk as (k & -> & Hk). exists k. split; [done|]. lia.
Qed.


End service_answers.

Lemma w_two_reachable : reachable w_two.
Proof.
  apply reachable_createCart.
  apply (reachable_perform 0 "sess_0" (CartService.AddItem item_p1)).
  apply reachable_createCart, reachable_init.
Qed.

Lemma read_and_add_always_succeed_witness :
  ∃ cart,
    (CartService.addItem 7 "sess_0" item_p2 w_one_expired).1 = Ok cart ∧
    contents (Cart.items cart) = [item_p1; item_p2] ∧
    Cart.total cart = 200%float.
Proof.
  apply (read_and_add_always_succeed 7 "sess_0" session_one item_p2
           w_one_expired w_one_expired_reachable).
  vm_compute. reflexivity.
Defined.

Lemma remove_and_update_outcomes_witness :
  is_Ok (CartService.perform 7 "sess_0" (CartService.RemoveItem "item_1")
           w_one_expired).1 = true.
Proof.
  eapply (remove_and_update_outcomes 7 "sess_0" session_one
            (CartService.RemoveItem "item_1") "item_1" w_one_expired).
  - vm_compute. reflexivity.
  - by left.
  - intros cd Hcd. vm_compute in Hcd. injection Hcd as <-. vm_compute.
    reflexivity.
  - apply list_elem_of_here.
Defined.

Lemma sessions_do_not_observe_each_other_witness :
  view (CartService.getCart 9 "sess_0"
          (CartService.perform 7 "sess_1" (CartService.AddItem item_p2)
             w_two).2).1
  = view (CartService.getCart 9 "sess_0" w_two).1.
Proof.
  refine (proj1 (sessions_do_not_observe_each_other 7 9 "sess_1" "sess_0"
                   (CartService.AddItem item_p2) "ctx_0" w_two
                   w_two_reachable _)).
  discriminate.
Defined.

Lemma session_is_live_after_call_witness :
  ∃ session' cd,
    CartService.sessions
      (CartService.perform 7 "sess_0" (CartService.RemoveItem "item_999")
         w_one_expired).2 !! "sess_0" = Some session' ∧
    SalesforceCartClient.getValidContext 7
      (SessionCart.sfContextId session')
      (CartService.sfClient
         (CartService.perform 7 "sess_0" (CartService.RemoveItem "item_999")
            w_one_expired).2) = Ok cd.
Proof.
  edestruct (session_is_live_after_call 7 "sess_0" session_one
               (CartService.RemoveItem "item_999") w_one_expired)
    as (session' & cd & Hs' & Hv' & _); [vm_compute; reflexivity|].
  exists session', cd. split; assumption.
Defined.

Lemma createCart_opens_fresh_session_witness :
  ∃ sessionId,
    (CartService.createCart 7 w_one_expired).1
    = Ok (sessionId,
          {| Cart.id := "cart_" +:+ sessionId; Cart.items := [];
             Cart.total := 0 |}) ∧
    CartService.sessions w_one_expired !! sessionId = None.
Proof.
  destruct (createCart_opens_fresh_session 7 7 w_one_expired
              w_one_expired_reachable)
    as (sessionId & session & Hcart & Hnew & _).
  by exists sessionId.
Defined.

(** ** The routes *)

Section routes_any_service.
Context {S : Type} `{!ICartService S}.
Implicit Types (s : S) (r : CartRoutes.request).

Import CartRoutes.

Lemma truthy_VString p : truthy (VString p) = true ↔ p ≠ "".
Proof.
  simpl. rewrite negb_true_iff. apply String.eqb_neq.
Qed.

Lemma checks_passed productId name price quantity :
  negb (truthy productId) || negb (truthy name) || isUndefined price
  || isUndefined quantity = false →
  negb (isNumber price) || leqZero price = false →
  negb (isInteger quantity) || leqZero quantity = false →
  passesChecks productId name price quantity.
Proof.
  intros Hmissing Hprice Hquantity.
  apply orb_false_iff in Hmissing as [Hmissing _].
  apply orb_false_iff in Hmissing as [Hmissing _].
  apply orb_false_iff in Hmissing as [Hp%negb_false_iff Hn%negb_false_iff].
  apply orb_false_iff in Hprice as [Hnumber%negb_false_iff Hprice].
  apply orb_false_iff in Hquantity as [Hinteger%negb_false_iff Hquantity].
  split_and!; [done|done| |].
  - destruct price as [| |b|p|t|]; try done. by exists p.
  - destruct quantity as [| |b|q|t|]; try done. by exists q.
Qed.


(** X21. What validation lets through, whatever the service.  POST of
    an item is answered 400, the service not reached and its state as
    before, exactly when the body fails a check: [productId] or [name]
    is falsy, [price] or [quantity] is absent, [price] is not a number
    or is [<= 0], [quantity] is not an integer or is [<= 0].  A body
    that passes with a string for [productId] and for [name] reaches
    [addItem] once, with exactly its four fields.  The checks do not
    test that [productId] and [name] are strings: a body that passes
    with another truthy value there is handed to the service all the
    same, as an item outside the typed [CartItemInput], for which the
    model gives no answer.  PUT is answered 400, the service not
    reached, exactly when [quantity] is absent, not an integer or
    [<= 0], and reaches [updateItem] once with that quantity
    otherwise. *)
Theorem validation_guards_the_service now sessionId itemId
    productId name price quantity s :
  match handle now (POST_item sessionId productId name price quantity) s with
  | Some (resp, s') =>
      (status resp = 400%Z ∧ s' = s ∧
       ¬ passesChecks productId name price quantity) ∨
      (status resp ≠ 400%Z ∧
       passesChecks productId name price quantity ∧
       ∃ item,
         wellFormed item ∧
         POST_item sessionId productId name price quantity
         = POST_itemOf sessionId item ∧
         s' = (cs_addItem now sessionId item s).2)
  | None =>
      passesChecks productId name price quantity ∧
      ¬ (∃ p n, productId = VString p ∧ name = VString n)
  end ∧
  ∃ resp s',
    handle now (PUT_item sessionId itemId quantity) s = Some (resp, s') ∧
    ((status resp = 400%Z ∧ s' = s ∧ ¬ passesCheck quantity) ∨
     (status resp ≠ 400%Z ∧
      ∃ q, quantity = VNumber q ∧ positiveInteger q ∧
           s' = (cs_updateItem now sessionId itemId q s).2)).
Proof.
  split.
  - cbn [handle]. unfold postItem.
    destruct (negb (truthy productId) || negb (truthy name)
              || isUndefined price || isUndefined quantity) eqn:Hmissing.
    { left. split_and!; [done..|].
      intros (Hp & Hn & (p & -> & _) & (q & -> & _)).
      by rewrite Hp, Hn in Hmissing. }
    destruct (negb (isNumber price) || leqZero price) eqn:Hprice.
    { left. split_and!; [done..|].
      intros (_ & _ & (p & -> & Hpositive) & _). simpl in Hprice.
      by rewrite Hpositive in Hprice. }
    destruct (negb (isInteger quantity) || leqZero quantity) eqn:Hquantity.
    { left. split_and!; [done..|].
      intros (_ & _ & _ & (q & -> & Hinteger & Hpositive)).
      simpl in Hquantity. by rewrite Hinteger, Hpositive in Hquantity. }
    pose proof (checks_passed _ _ _ _ Hmissing Hprice Hquantity) as Hpass.
    pose proof Hpass as (Hp & Hn & (p & -> & Hpositive) & (q & -> & Hinteger)).
    destruct productId as [| |b|n|productId|];
      try (split; [done|]; by intros (? & ? & [=] & _)).
    destruct name as [| |b|n|name|];
      try (split; [done|]; by intros (? & ? & _ & [=])).
    apply truthy_VString in Hp, Hn.
    set (item := {| CartItemInput.productId := productId;
                    CartItemInput.name := name;
                    CartItemInput.price := p;
                    CartItemInput.quantity := q |}).
    destruct (cs_addItem now sessionId item s) as [[cart|e] s0] eqn:Hadd.
    2: destruct e.
    all: right; (split_and!; [done|done|]); exists item; by rewrite Hadd.
  - cbn [handle]. unfold putItem.
    destruct (isUndefined quantity) eqn:Hundefined.
    { eexists _, _. split; [done|]. left. split_and!; [done..|].
      by intros (q & -> & _). }
    destruct quantity as [| |b|q|t|];
      try (eexists _, _; split; [done|]; left; split_and!; [done..|];
           by intros (? & [=] & _)).
    destruct (negb (Number_isInteger q) || PrimFloat.leb q 0) eqn:Hq.
    { eexists _, _. split; [done|]. left. split_and!; [done..|].
      intros (q' & [= <-] & Hinteger & Hpositive).
      by rewrite Hinteger, Hpositive in Hq. }
    apply orb_false_iff in Hq as [Hinteger%negb_false_iff Hpositive].
    destruct (cs_updateItem now sessionId itemId q s) as [[cart|e] s0] eqn:Hup.
    2: destruct e.
    all: eexists _, _; (split; [done|]); right; (split; [done|]); exists q;
      by rewrite Hup.
Qed.

End routes_any_service.

(** ** The routes over the service and the simulated provider *)

Section routes_simulated.
Import CartService.
Implicit Types (w : World) (session : SessionCart.t).

Lemma handle_POST_itemOf now sessionId item w :
  wellFormed item →
  CartRoutes.handle now (POST_itemOf sessionId item) w
  = Some
      match addItem now sessionId item w with
      | (Ok cart, w') =>
          ({| CartRoutes.status := 200;
              CartRoutes.json := CartRoutes.CartPayload sessionId cart |}, w')
      | (Throw (CartNotFoundError unknown), w') =>
          ({| CartRoutes.status := 404;
              CartRoutes.json :=
                CartRoutes.ErrorPayload "CartNotFound"
                  (CartNotFoundError_message unknown) None |}, w')
      | (Throw (ContextRecoveryFailedError failed _), w') =>
          ({| CartRoutes.status := 409;
              CartRoutes.json :=
                CartRoutes.ErrorPayload "ContextRecoveryFailed"
                  (ContextRecoveryFailedError_message failed)
                  (Some sessionId) |}, w')
      | (Throw _, w') =>
          ({| CartRoutes.status := 500;
              CartRoutes.json :=
                CartRoutes.ErrorPayload "InternalServerError"
                  "Failed to add item to cart" None |}, w')
      end.
Proof.
  intros (Hp & Hn & Hprice & Hinteger & Hquantity).
  unfold POST_itemOf, CartRoutes.handle, CartRoutes.postItem.
  apply truthy_VString in Hp, Hn. rewrite Hp, Hn.
  cbn [negb orb CartRoutes.isUndefined CartRoutes.isNumber
       CartRoutes.isInteger CartRoutes.leqZero].
  unfold notLeqZero in Hprice. rewrite Hprice, Hinteger, Hquantity.
  by destruct item.
Qed.

(** X22. Reading, adding and creating through the routes.  In every
    reachable world, GET on a known session answers 200 with the
    session's items and their total, and POST of a well-formed item
    answers 200 with them followed by the new item, whatever the state
    of the session's context; the totals are the sums of price ×
    quantity the code takes, in list order with binary64 rounding, the
    new item's price × quantity added last; on an unknown session both
    answer 404
    [CartNotFound] with the message [Cart session <id> not found] and
    change nothing; POST of a new cart answers 201 with the empty cart
    [cart_<sessionId>]. *)
Theorem get_and_add_routes_answer now sessionId item w :
  reachable w →
  wellFormed item →
  match sessions w !! sessionId with
  | Some session =>
      (∃ cart w',
         CartRoutes.handle now (CartRoutes.GET_cart sessionId) w
         = Some ({| CartRoutes.status := 200;
                    CartRoutes.json := CartRoutes.CartPayload sessionId cart |},
                 w') ∧
         contents (Cart.items cart) = contents (SessionCart.items session) ∧
         Cart.total cart = sumTotal (SessionCart.items session)) ∧
      (∃ cart w',
         CartRoutes.handle now (POST_itemOf sessionId item) w
         = Some ({| CartRoutes.status := 200;
                    CartRoutes.json := CartRoutes.CartPayload sessionId cart |},
                 w') ∧
         contents (Cart.items cart)
         = contents (SessionCart.items session) ++ [item] ∧
         Cart.total cart
         = (sumTotal (SessionCart.items session)
            + CartItemInput.price item * CartItemInput.quantity item)%float)
  | None =>
      CartRoutes.handle now (CartRoutes.GET_cart sessionId) w
      = Some ({| CartRoutes.status := 404;
                 CartRoutes.json :=
                   CartRoutes.ErrorPayload "CartNotFound"
                     ("Cart session " +:+ sessionId +:+ " not found") None |},
              w) ∧
      CartRoutes.handle now (POST_itemOf sessionId item) w
      = Some ({| CartRoutes.status := 404;
                 CartRoutes.json :=
                   CartRoutes.ErrorPayload "CartNotFound"
                     ("Cart session " +:+ sessionId +:+ " not found") None |},
              w)
  end ∧
  ∃ created w',
    CartRoutes.handle now CartRoutes.POST_cart w
    = Some ({| CartRoutes.status := 201;
               CartRoutes.json :=
                 CartRoutes.CartPayload created
                   {| Cart.id := "cart_" +:+ created; Cart.items := [];
                      Cart.total := 0 |} |}, w').
Proof.
  intros Hw%reachable_consistent Hitem. split.
  2:{ cbn [CartRoutes.handle]. unfold CartRoutes.postCart.
      cbn [cs_createCart CartService_service].
      rewrite createCart_World. by eexists _, _. }
  rewrite (handle_POST_itemOf _ _ _ _ Hitem).
  cbn [CartRoutes.handle]. unfold CartRoutes.getCart.
  cbn [cs_getCart CartService_service].
  destruct (sessions w !! sessionId) as [session|] eqn:Hs.
  - split.
    + destruct (getCart_answer now _ _ _ Hw Hs) as (cart & Hcart & Hrest).
      destruct (getCart now sessionId w) as [r w'].
      simpl in Hcart. subst r. by exists cart, w'.
    + destruct (addItem_answer now _ _ item _ Hw Hs) as (cart & Hcart & Hrest).
      destruct (addItem now sessionId item w) as [r w'].
      simpl in Hcart. subst r. by exists cart, w'.
  - by rewrite (getCart_unknown _ _ _ Hs), (addItem_unknown _ _ _ _ Hs).
Qed.




(** X24. An unknown item id on a valid context is answered 404.  In
    any world, DELETE and PUT (of a positive integer quantity) on a
    known session whose context is valid and holds no item of that id
    answer 404 [ItemNotFound] with the message
    [Item <id> not found in cart]; the provider is left as it was and
    the session is only stamped. *)
Theorem unknown_item_is_answered_404 now sessionId session itemId quantity
    w cd :
  sessions w !! sessionId = Some session →
  SalesforceCartClient.getValidContext now (SessionCart.sfContextId session)
    (sfClient w) = Ok cd →
  itemId ∉ itemIds cd →
  positiveInteger quantity →
  CartRoutes.handle now (CartRoutes.DELETE_item sessionId itemId) w
  = Some ({| CartRoutes.status := 404;
             CartRoutes.json :=
               CartRoutes.ErrorPayload "ItemNotFound"
                 ("Item " +:+ itemId +:+ " not found in cart") None |},
          touchedW now sessionId session w) ∧
  CartRoutes.handle now
    (CartRoutes.PUT_item sessionId itemId (CartRoutes.VNumber quantity)) w
  = Some ({| CartRoutes.status := 404;
             CartRoutes.json :=
               CartRoutes.ErrorPayload "ItemNotFound"
                 ("Item " +:+ itemId +:+ " not found in cart") None |},
          touchedW now sessionId session w).
Proof.
  intros Hs Hv Hnot [Hi Hq]. unfold itemIds in Hnot.
  apply findById_None in Hnot.
  pose proof (perform_live now _ _ (RemoveItem itemId) _ _ Hs Hv) as Hremove.
  pose proof (perform_live now _ _ (UpdateItem itemId quantity) _ _ Hs Hv)
    as Hupdate.
  cbn [perform effect target] in Hremove, Hupdate.
  rewrite Hnot in Hremove, Hupdate.
  cbn [CartRoutes.handle].
  unfold CartRoutes.deleteItem, CartRoutes.putItem.
  cbn [cs_removeItem cs_updateItem CartService_service CartRoutes.isUndefined].
  by rewrite Hi, Hq, Hremove, Hupdate.
Qed.


End routes_simulated.

Lemma item_p2_wellFormed : wellFormed item_p2.
Proof. split_and!; [discriminate|discriminate|done|done]. Qed.

Lemma get_and_add_routes_answer_witness :
  ∃ cart w',
    CartRoutes.handle 7 (POST_itemOf "sess_0" item_p2) w_one_expired
    = Some ({| CartRoutes.status := 200;
               CartRoutes.json := CartRoutes.CartPayload "sess_0" cart |}, w') ∧
    contents (Cart.items cart) = [item_p1; item_p2] ∧
    Cart.total cart = 200%float.
Proof.
  destruct (get_and_add_routes_answer 7 "sess_0" item_p2 w_one_expired
              w_one_expired_reachable item_p2_wellFormed) as [Hknown _].
  rewrite w_one_expired_session in Hknown.
  destruct Hknown as [_ Hadd]. exact Hadd.
Defined.


Lemma abandoned_contexts_are_never_revisited_witness :
  unbound "ctx_0"
    (CartService.createCart 9
       (CartService.perform 7 "sess_0" (CartService.AddItem item_p2)
          w_one_expired).2).2.
Proof.
  apply (abandoned_contexts_are_never_revisited 7 "sess_0" session_one
           (CartService.AddItem item_p2) w_one_expired _
           w_one_expired_reachable).
  - vm_compute. reflexivity.
  - intros cd Hcd. vm_compute in Hcd. by injection Hcd as <-.
  - apply evolves_createCart, evolves_refl.
Defined.

Lemma unknown_item_is_answered_404_witness :
  CartRoutes.handle 0 (CartRoutes.DELETE_item "sess_0" "item_999") w_one
  = Some ({| CartRoutes.status := 404;
             CartRoutes.json :=
               CartRoutes.ErrorPayload "ItemNotFound"
                 "Item item_999 not found in cart" None |},
          touchedW 0 "sess_0" session_one w_one).
Proof.
  eapply (unknown_item_is_answered_404 0 "sess_0" session_one "item_999" 1
            w_one).
  - vm_compute. reflexivity.
  - vm_compute. reflexivity.
  - simpl. by intros [=]%list_elem_of_singleton.
  - done.
Defined.

Lemma expireContext_expires_witness :
  serve 9 "ctx_0" CartService.GetCart
    (SalesforceCartClient.expireContext 9 "ctx_0" c_two)
  = (Throw (ContextExpiredError "ctx_0"),
     SalesforceCartClient.expireContext 9 "ctx_0" c_two).
Proof.
  apply (expireContext_expires 9 9 "ctx_0" CartService.GetCart c_two).
  done.
Defined.

(** ** The routes over the service and any provider *)

Section routes_any_provider.
Context {P : Type} `{!ISalesforceCartClient P}.
Implicit Types (s : CartService.t P) (session : SessionCart.t).

Import CartService.

(** What the routes answer for an operation the service has run. *)
Lemma handle_routeOf now sessionId (c : call) s :
  acceptable c →
  CartRoutes.handle now (routeOf sessionId c) s
  = Some
      match perform now sessionId c s with
      | (Ok cart, s') =>
          ({| CartRoutes.status := 200;
              CartRoutes.json := CartRoutes.CartPayload sessionId cart |}, s')
      | (Throw (CartNotFoundError unknown), s') =>
          ({| CartRoutes.status := 404;
              CartRoutes.json :=
                CartRoutes.ErrorPayload "CartNotFound"
                  (CartNotFoundError_message unknown) None |}, s')
      | (Throw (ItemNotFoundError unknown), s') =>
          match c with
          | RemoveItem _ | UpdateItem _ _ =>
              ({| CartRoutes.status := 404;
                  CartRoutes.json :=
                    CartRoutes.ErrorPayload "ItemNotFound"
                      (ItemNotFoundError_message unknown) None |}, s')
          | GetCart =>
              ({| CartRoutes.status := 500;
                  CartRoutes.json :=
                    CartRoutes.ErrorPayload "InternalServerError"
                      "Failed to get cart" None |}, s')
          | AddItem _ =>
              ({| CartRoutes.status := 500;
                  CartRoutes.json :=
                    CartRoutes.ErrorPayload "InternalServerError"
                      "Failed to add item to cart" None |}, s')
          end
      | (Throw (ContextRecoveryFailedError failed _), s') =>
          match c with
          | GetCart =>
              ({| CartRoutes.status := 500;
                  CartRoutes.json :=
                    CartRoutes.ErrorPayload "InternalServerError"
                      "Failed to get cart" None |}, s')
          | _ =>
              ({| CartRoutes.status := 409;
                  CartRoutes.json :=
                    CartRoutes.ErrorPayload "ContextRecoveryFailed"
                      (ContextRecoveryFailedError_message failed)
                      (Some sessionId) |}, s')
          end
      | (Throw _, s') =>
          ({| CartRoutes.status := 500;
              CartRoutes.json :=
                CartRoutes.ErrorPayload "InternalServerError"
                  match c with
                  | GetCart => "Failed to get cart"
                  | AddItem _ => "Failed to add item to cart"
                  | RemoveItem _ => "Failed to remove item from cart"
                  | UpdateItem _ _ => "Failed to update item in cart"
                  end None |}, s')
      end.
Proof.
  intros Hc. destruct c as [|item|itemId|itemId quantity];
    cbn [routeOf perform acceptable] in *.
  - cbn [CartRoutes.handle]. unfold CartRoutes.getCart.
    cbn [cs_getCart CartService_service].
    by destruct (getCart now sessionId s) as [[cart|[]] s'].
  - destruct Hc as (Hp & Hn & Hprice & Hinteger & Hquantity).
    unfold POST_itemOf, CartRoutes.handle, CartRoutes.postItem.
    apply truthy_VString in Hp, Hn. rewrite Hp, Hn.
    cbn [negb orb CartRoutes.isUndefined CartRoutes.isNumber
         CartRoutes.isInteger CartRoutes.leqZero].
    unfold notLeqZero in Hprice. rewrite Hprice, Hinteger, Hquantity.
    cbn [negb orb cs_addItem CartService_service].
    destruct item as [productId name price quantity].
    cbn [CartItemInput.productId CartItemInput.name CartItemInput.price
         CartItemInput.quantity].
    by destruct (addItem now sessionId _ s) as [[cart|[]] s'].
  - cbn [CartRoutes.handle]. unfold CartRoutes.deleteItem.
    cbn [cs_removeItem CartService_service].
    by destruct (removeItem now sessionId itemId s) as [[cart|[]] s'].
  - cbn [CartRoutes.handle]. unfold CartRoutes.putItem.
    cbn [CartRoutes.isUndefined]. destruct Hc as [Hinteger Hc].
    rewrite Hinteger, Hc. cbn [negb orb cs_updateItem CartService_service].
    by destruct (updateItem now sessionId itemId quantity s)
      as [[cart|[]] s'].
Qed.

(** X25. A failed recovery through the routes, whatever the provider.
    When the provider rejects the call of an operation with
    [ContextExpiredError] and the creation of the new context throws,
    adding, removing and updating are answered 409
    [ContextRecoveryFailed] with the message
    [Failed to recover from context expiry for session <id>] and the
    session id of the request, while reading is answered 500
    [Failed to get cart]; in both cases the session keeps its context
    and its items. *)
Theorem recovery_failure_through_the_routes now sessionId session (c : call)
    s contextId p cause p' :
  sessions s !! sessionId = Some session →
  acceptable c →
  sf_serve now (SessionCart.sfContextId session) c (sfClient s)
  = (Throw (ContextExpiredError contextId), p) →
  sf_createContext now p = (Throw cause, p') →
  CartRoutes.handle now (routeOf sessionId c) s
  = Some
      (match c with
       | GetCart =>
           {| CartRoutes.status := 500;
              CartRoutes.json :=
                CartRoutes.ErrorPayload "InternalServerError"
                  "Failed to get cart" None |}
       | _ =>
           {| CartRoutes.status := 409;
              CartRoutes.json :=
                CartRoutes.ErrorPayload "ContextRecoveryFailed"
                  ("Failed to recover from context expiry for session "
                   +:+ SessionCart.sessionId session)
                  (Some sessionId) |}
       end,
       {| sessions :=
            <[sessionId := SessionCart.with_lastAccessed now session]>
              (sessions s);
          uuids := uuids s; sfClient := p' |}).
Proof.
  intros Hs Hc Hcall Hcreate.
  rewrite (handle_routeOf _ _ _ _ Hc).
  assert (perform now sessionId c s
          = (Throw (ContextRecoveryFailedError (SessionCart.sessionId session)
                      (if instanceof_Error cause then Some cause else None)),
             {| sessions :=
                  <[sessionId := SessionCart.with_lastAccessed now session]>
                    (sessions s);
                uuids := uuids s; sfClient := p' |})) as ->.
  { destruct c as [|input|itemId|itemId quantity]; simpl in Hcall;
      unfold perform, getCart, addItem, removeItem, updateItem, touch,
        getSession, syncSessionItems, recoverContext, bind, try_catch, store,
        ret, throw, await;
      rewrite Hs;
      cbn [sessions uuids sfClient fst snd SessionCart.sfContextId
           SessionCart.with_lastAccessed SessionCart.items
           SessionCart.sessionId];
      rewrite Hcall;
      cbn [sessions uuids sfClient fst snd instanceof_ContextExpiredError];
      by rewrite Hcreate. }
  by destruct c.
Qed.

End routes_any_provider.

Lemma recovery_failure_through_the_routes_witness :
  CartRoutes.handle 0 (CartRoutes.DELETE_item "sess_0" "item_1") s_outage
  = Some
      ({| CartRoutes.status := 409;
          CartRoutes.json :=
            CartRoutes.ErrorPayload "ContextRecoveryFailed"
              "Failed to recover from context expiry for session sess_0"
              (Some "sess_0") |},
       {| CartService.sessions :=
            <["sess_0" := SessionCart.with_lastAccessed 0 session_one]>
              (CartService.sessions s_outage);
          CartService.uuids := 1; CartService.sfClient := unavailable |}).
Proof.
  eapply (recovery_failure_through_the_routes 0 "sess_0" session_one
            (CartService.RemoveItem "item_1") s_outage "ctx_0" unavailable
            (OtherError "Salesforce unavailable") unavailable).
  - vm_compute. reflexivity.
  - exact I.
  - reflexivity.
  - reflexivity.
Defined.
